(** * Pulse: board state, make/undo protocol, attack oracle and notation

    A shallow embedding of [position.cpp] and [notation.cpp].  The C++
    [int] is modelled by [Z] (the program never comes near the limits of
    a 32-bit integer, and signed overflow is undefined there anyway),
    [uint64_t] by [Z] reduced modulo [2^64] wherever the code can wrap,
    [std::array] by [list] with bounds-checked reads and writes, and a
    thrown exception (or a read or write outside an array) by [None]. *)

From Stdlib Require Import ZArith Lia Bool List Ascii String.
From stdpp Require Import base option list.

Local Open Scope Z_scope.

(** ** Arrays *)

Definition array_get {A : Type} (l : list A) (i : Z) : option A :=
  if 0 <=? i then l !! Z.to_nat i else None.

Definition array_set {A : Type} (l : list A) (i : Z) (x : A) : option (list A) :=
  if (0 <=? i) && (i <? Z.of_nat (length l))
  then Some (<[Z.to_nat i := x]> l) else None.

(** [uint64_t] arithmetic wraps modulo [2^64]. *)
Definition u64 (x : Z) : Z := x mod 2 ^ 64.

(** ** Enumerations of the headers *)

Module color.
(** Modelled from the spec: [color.h] is not among the sources; the two
      sides and the "no color" sentinel, used as array indices. *)
Definition WHITE : Z := 0.
Definition BLACK : Z := 1.
Definition NOCOLOR : Z := 2.

(** Modelled from the spec: a side to move is white or black. *)
Definition isValid (c : Z) : bool := (c =? WHITE) || (c =? BLACK).

(** Modelled from the spec: flipping the side to move; an invalid
      color is a fatal contract violation. *)
Definition opposite (c : Z) : option Z :=
    if c =? WHITE then Some BLACK
    else if c =? BLACK then Some WHITE
    else None.
End color.

Module PieceType.
(** Modelled from the spec: [piecetype.h] is not among the sources;
      piece-type is one of pawn, knight, bishop, rook, queen, king. *)
Definition PAWN : Z := 0.
Definition KNIGHT : Z := 1.
Definition BISHOP : Z := 2.
Definition ROOK : Z := 3.
Definition QUEEN : Z := 4.
Definition KING : Z := 5.
Definition NOPIECETYPE : Z := 6.

(** Modelled from the spec: the six piece types are the valid ones. *)
Definition isValid (t : Z) : bool := (0 <=? t) && (t <? NOPIECETYPE).
End PieceType.

Module piece.
(** Modelled from the spec: [piece.h] is not among the sources; a piece
      is a (color, piece-type) pair packed into an integer, with a
      reserved "no piece" sentinel. *)
Definition WHITE_PAWN : Z := 0.
Definition WHITE_KNIGHT : Z := 1.
Definition WHITE_BISHOP : Z := 2.
Definition WHITE_ROOK : Z := 3.
Definition WHITE_QUEEN : Z := 4.
Definition WHITE_KING : Z := 5.
Definition BLACK_PAWN : Z := 6.
Definition BLACK_KNIGHT : Z := 7.
Definition BLACK_BISHOP : Z := 8.
Definition BLACK_ROOK : Z := 9.
Definition BLACK_QUEEN : Z := 10.
Definition BLACK_KING : Z := 11.
Definition NOPIECE : Z := 12.

(** Modelled from the spec: the twelve pieces are valid, the sentinel is not. *)
Definition isValid (p : Z) : bool := (0 <=? p) && (p <? NOPIECE).

(** Modelled from the spec: packing; an invalid color or piece-type
      passed to an internal transform is fatal. *)
Definition valueOf (c t : Z) : option Z :=
    if color.isValid c && PieceType.isValid t then Some (c * 6 + t) else None.

(** Modelled from the spec: unpacking; the sentinel has no type. *)
Definition getType (p : Z) : option Z :=
    if isValid p then Some (p mod 6) else None.

(** Modelled from the spec: unpacking; the sentinel has no color. *)
Definition getColor (p : Z) : option Z :=
    if isValid p then Some (p / 6) else None.
End piece.

Module castlingtype.
(** Modelled from the spec: [castlingtype.h] is not among the sources. *)
Definition KINGSIDE : Z := 0.
Definition QUEENSIDE : Z := 1.
Definition NOCASTLINGTYPE : Z := 2.
End castlingtype.

Module castling.
(** Modelled from the spec: [castling.h] is not among the sources; the
      rights are a bitmask over four flags, white/black by
      kingside/queenside, and the empty mask is "no castling". *)
Definition WHITE_KINGSIDE : Z := 1.
Definition WHITE_QUEENSIDE : Z := 2.
Definition BLACK_KINGSIDE : Z := 4.
Definition BLACK_QUEENSIDE : Z := 8.
Definition NOCASTLING : Z := 0.

(** Modelled from the spec: the flag of a color and a side; anything else
    is a fatal contract violation. *)
Definition valueOf (c t : Z) : option Z :=
    if c =? color.WHITE then
      if t =? castlingtype.KINGSIDE then Some WHITE_KINGSIDE
      else if t =? castlingtype.QUEENSIDE then Some WHITE_QUEENSIDE
      else None
    else if c =? color.BLACK then
      if t =? castlingtype.KINGSIDE then Some BLACK_KINGSIDE
      else if t =? castlingtype.QUEENSIDE then Some BLACK_QUEENSIDE
      else None
    else None.

(** Modelled from the spec: the side of a single flag. *)
Definition getType (c : Z) : option Z :=
    if (c =? WHITE_KINGSIDE) || (c =? BLACK_KINGSIDE) then Some castlingtype.KINGSIDE
    else if (c =? WHITE_QUEENSIDE) || (c =? BLACK_QUEENSIDE) then Some castlingtype.QUEENSIDE
    else None.

(** Modelled from the spec: the color of a single flag. *)
Definition getColor (c : Z) : option Z :=
    if (c =? WHITE_KINGSIDE) || (c =? WHITE_QUEENSIDE) then Some color.WHITE
    else if (c =? BLACK_KINGSIDE) || (c =? BLACK_QUEENSIDE) then Some color.BLACK
    else None.

(** The four single flags. *)
Definition isFlag (c : Z) : bool :=
    (c =? WHITE_KINGSIDE) || (c =? WHITE_QUEENSIDE)
    || (c =? BLACK_KINGSIDE) || (c =? BLACK_QUEENSIDE).
End castling.

Module file.
(** Modelled from the spec: [file.h] is not among the sources; files a
      to h are 0 to 7, followed by the "no file" sentinel. *)
Definition a : Z := 0.
Definition b : Z := 1.
Definition c : Z := 2.
Definition d : Z := 3.
Definition e : Z := 4.
Definition f : Z := 5.
Definition g : Z := 6.
Definition h : Z := 7.
Definition NOFILE : Z := 8.
Definition values : list Z := [a; b; c; d; e; f; g; h].
(** Modelled from the spec: files a to h are valid. *)
Definition isValid (x : Z) : bool := (0 <=? x) && (x <? NOFILE).
End file.

Module Rank.
(** Modelled from the spec: [rank.h] is not among the sources; ranks 1
      to 8 are 0 to 7, followed by the "no rank" sentinel. *)
Definition r1 : Z := 0.
Definition r2 : Z := 1.
Definition r3 : Z := 2.
Definition r4 : Z := 3.
Definition r5 : Z := 4.
Definition r6 : Z := 5.
Definition r7 : Z := 6.
Definition r8 : Z := 7.
Definition NORANK : Z := 8.
Definition values : list Z := [r1; r2; r3; r4; r5; r6; r7; r8].
(** Modelled from the spec: ranks 1 to 8 are valid. *)
Definition isValid (x : Z) : bool := (0 <=? x) && (x <? NORANK).
End Rank.

Module Square.
(** Modelled from the spec: [square.h] is not among the sources; 64
      playable cells and 64 invalid encodings, so that direction offsets
      can be added before the validity test.  The packing
      [(rank << 4) + file] is the one [Notation::toSquare] spells out. *)
Definition VALUES_LENGTH : Z := 128.
Definition NOSQUARE : Z := 127.

(** Modelled from the spec: file and rank to index and back; a valid square
    decodes to a file and a rank in 0..7. *)
Definition valueOf (file rank : Z) : Z := Z.shiftl rank 4 + file.
Definition getFile (square : Z) : Z := Z.land square 15.
Definition getRank (square : Z) : Z := Z.shiftr square 4.
Definition isValid (square : Z) : bool := Z.land square 136 =? 0.

(** Modelled from the spec: the squares [clearCastling] and the castling
    [switch] name, by the packing above. *)
Definition a1 : Z := 0.
Definition c1 : Z := 2.
Definition d1 : Z := 3.
Definition e1 : Z := 4.
Definition f1 : Z := 5.
Definition g1 : Z := 6.
Definition h1 : Z := 7.
Definition a8 : Z := 112.
Definition c8 : Z := 114.
Definition d8 : Z := 115.
Definition e8 : Z := 116.
Definition f8 : Z := 117.
Definition g8 : Z := 118.
Definition h8 : Z := 119.

(** Modelled from the spec: directional offsets; north is one rank up, east
    one file to the right. *)
Definition N : Z := 16.
Definition E : Z := 1.
Definition S : Z := -16.
Definition W : Z := -1.
Definition NE : Z := N + E.
Definition SE : Z := S + E.
Definition SW : Z := S + W.
Definition NW : Z := N + W.

(** Modelled from the spec: per color, the forward step followed by
      the two capturing diagonals. *)
Definition pawnDirections (c : Z) : option (list Z) :=
    array_get [[N; NE; NW]; [S; SE; SW]] c.
(** Modelled from the spec: the fixed offsets of the knight. *)
Definition knightDirections : list Z :=
    [N + N + E; N + N + W; N + E + E; N + W + W;
     S + S + E; S + S + W; S + E + E; S + W + W].
(** Modelled from the spec: diagonal for bishop, orthogonal for rook. *)
Definition bishopDirections : list Z := [NE; NW; SE; SW].
Definition rookDirections : list Z := [N; E; S; W].
(** Modelled from the spec: the eight neighbours. *)
Definition kingDirections : list Z := [N; NE; E; SE; S; SW; W; NW].

(** The 64 playable squares, rank by rank. *)
Definition values : list Z :=
    r ← Rank.values; (fun f => valueOf f r) <$> file.values.
End Square.

Module bitboard.
(** Modelled from the spec: [bitboard.h] is not among the sources; an
      occupancy set is a 64-bit set of squares with add, remove, count
      and "first member".  A playable square of the 128-value encoding
      is packed to its bit index in 0..63. *)
Definition toBitSquare (square : Z) : Z :=
    Z.lor (Z.shiftr (Z.land square (Z.lnot 7)) 1) (Z.land square 7).
Definition toX88Square (square : Z) : Z :=
    Z.lor (Z.shiftl (Z.land square (Z.lnot 7)) 1) (Z.land square 7).

(** Modelled from the spec: add and remove a square. *)
Definition add (square bitboard : Z) : Z :=
    Z.lor bitboard (u64 (Z.shiftl 1 (toBitSquare square))).
Definition remove (square bitboard : Z) : Z :=
    Z.land bitboard (u64 (Z.lnot (u64 (Z.shiftl 1 (toBitSquare square))))).

(** Membership, as the bit that [add] sets and [remove] clears. *)
Definition mem (square bitboard : Z) : bool :=
    Z.testbit bitboard (toBitSquare square).

(** Modelled from the spec: the count of members, the set bits among the 64. *)
Definition size (bitboard : Z) : Z :=
    Z.of_nat (length (filter (fun i => Z.testbit bitboard i = true) (Z.of_nat <$> seq 0 64))).

Fixpoint numberOfTrailingZeros_from (fuel : nat) (i : Z) (bitboard : Z) : Z :=
    match fuel with
    | O => i
    | S fuel' => if Z.testbit bitboard i then i
                 else numberOfTrailingZeros_from fuel' (i + 1) bitboard
    end.

(** Modelled from the spec: the "first member" query, as a square. *)
Definition next (bitboard : Z) : Z :=
    toX88Square (numberOfTrailingZeros_from 64 0 bitboard).
End bitboard.

Module movetype.
(** Modelled from the spec: [movetype.h] is not among the sources. *)
Definition NORMAL : Z := 0.
Definition PAWNDOUBLE : Z := 1.
Definition PAWNPROMOTION : Z := 2.
Definition ENPASSANT : Z := 3.
Definition CASTLING : Z := 4.
End movetype.

Module move.
(** Modelled from the spec: [move.h] is not among the sources; a move
      is an opaque value exposing its type, origin and target square,
      origin and target piece and, for promotions, the promotion
      piece-type.  It is modelled by what its accessors return. *)
Record t : Type := valueOf {
    getType : Z;
    getOriginSquare : Z;
    getTargetSquare : Z;
    getOriginPiece : Z;
    getTargetPiece : Z;
    getPromotion : Z
  }.
End move.


(** ** The position and its history *)

Module State.
(** Modelled from the spec: [position.h] is not among the sources; a
    history snapshot holds the hash, the castling rights, the
    en-passant square and the halfmove clock. *)
Record t : Type := make {
  zobristKey : Z;
  castlingRights : Z;
  enPassantSquare : Z;
  halfmoveClock : Z
}.
End State.

Module Zobrist.
(** Modelled from the spec: the class is declared in [position.h], which is
    not among the sources; its constructor in [position.cpp] fills
    these tables.  The process-wide tables of [Position::Zobrist]: one value per
    (piece, square), per castling-rights mask, per en-passant square,
    and one for the side to move. *)
Record t : Type := make {
  board : Z -> Z -> Z;
  castlingRights : Z -> Z;
  enPassantSquare : Z -> Z;
  activeColor : Z
}.
End Zobrist.

(** [Zobrist::next]: sixteen draws of the generator, folded by
    exclusive-or at shifts 0, 8, ..., 56, 0, 8, ..., 56.  The generator
    is the stream [generator]; [n] counts the calls of [next] so far. *)
Definition Zobrist_next (generator : nat -> Z) (n : nat) : Z :=
  fold_left
    (fun hash i =>
       Z.lxor hash (u64 (Z.shiftl (u64 (generator (16 * n + i)%nat))
                                  ((Z.of_nat i * 8) mod 64))))
    (seq 0 16) 0.

(** [Zobrist::Zobrist]: the board entries are drawn piece by piece and
    square by square, then the four single castling flags, then the two
    per-color combinations are derived by exclusive-or, then the
    en-passant entries and the side-to-move value are drawn.  The
    constructor writes no other castling entry; [unwritten] stands for
    whatever the memory holds there. *)
Definition Zobrist_new (generator : nat -> Z) (unwritten : Z -> Z) : Zobrist.t :=
  let next := Zobrist_next generator in
  let nb := (12 * 128)%nat in
  let wk := next nb in
  let wq := next (nb + 1)%nat in
  let bk := next (nb + 2)%nat in
  let bq := next (nb + 3)%nat in
  Zobrist.make
    (fun piece i => next (Z.to_nat (piece * Square.VALUES_LENGTH + i)))
    (fun c =>
       if c =? castling.WHITE_KINGSIDE then wk
       else if c =? castling.WHITE_QUEENSIDE then wq
       else if c =? castling.BLACK_KINGSIDE then bk
       else if c =? castling.BLACK_QUEENSIDE then bq
       else if c =? Z.lor castling.WHITE_KINGSIDE castling.WHITE_QUEENSIDE
       then Z.lxor wk wq
       else if c =? Z.lor castling.BLACK_KINGSIDE castling.BLACK_QUEENSIDE
       then Z.lxor bk bq
       else unwritten c)
    (fun i => next (nb + 4 + Z.to_nat i)%nat)
    (next (nb + 4 + 128)%nat).

(** Modelled from the spec: [position.h] is not among the sources; the
    position owns the board array, the occupancy sets per color and
    piece type, the material per color, the castling rights, the
    en-passant square, the side to move, the halfmove clock, the hash,
    the halfmove number and the history with its depth, the fields
    [position.cpp] reads and writes. *)
Record Position : Type := mkPosition {
  board : list Z;
  pieces : list (list Z);
  material : list Z;
  castlingRights : Z;
  enPassantSquare : Z;
  activeColor : Z;
  halfmoveClock : Z;
  zobristKey : Z;
  halfmoveNumber : Z;
  states : list State.t;
  statesSize : Z
}.

Definition set_board (x : list Z) (p : Position) : Position :=
  mkPosition x (pieces p) (material p) (castlingRights p) (enPassantSquare p)
    (activeColor p) (halfmoveClock p) (zobristKey p) (halfmoveNumber p)
    (states p) (statesSize p).
Definition set_pieces (x : list (list Z)) (p : Position) : Position :=
  mkPosition (board p) x (material p) (castlingRights p) (enPassantSquare p)
    (activeColor p) (halfmoveClock p) (zobristKey p) (halfmoveNumber p)
    (states p) (statesSize p).
Definition set_material (x : list Z) (p : Position) : Position :=
  mkPosition (board p) (pieces p) x (castlingRights p) (enPassantSquare p)
    (activeColor p) (halfmoveClock p) (zobristKey p) (halfmoveNumber p)
    (states p) (statesSize p).
Definition set_castlingRights (x : Z) (p : Position) : Position :=
  mkPosition (board p) (pieces p) (material p) x (enPassantSquare p)
    (activeColor p) (halfmoveClock p) (zobristKey p) (halfmoveNumber p)
    (states p) (statesSize p).
Definition set_enPassantSquare (x : Z) (p : Position) : Position :=
  mkPosition (board p) (pieces p) (material p) (castlingRights p) x
    (activeColor p) (halfmoveClock p) (zobristKey p) (halfmoveNumber p)
    (states p) (statesSize p).
Definition set_activeColor (x : Z) (p : Position) : Position :=
  mkPosition (board p) (pieces p) (material p) (castlingRights p) (enPassantSquare p)
    x (halfmoveClock p) (zobristKey p) (halfmoveNumber p)
    (states p) (statesSize p).
Definition set_halfmoveClock (x : Z) (p : Position) : Position :=
  mkPosition (board p) (pieces p) (material p) (castlingRights p) (enPassantSquare p)
    (activeColor p) x (zobristKey p) (halfmoveNumber p)
    (states p) (statesSize p).
Definition set_zobristKey (x : Z) (p : Position) : Position :=
  mkPosition (board p) (pieces p) (material p) (castlingRights p) (enPassantSquare p)
    (activeColor p) (halfmoveClock p) x (halfmoveNumber p)
    (states p) (statesSize p).
Definition set_halfmoveNumber (x : Z) (p : Position) : Position :=
  mkPosition (board p) (pieces p) (material p) (castlingRights p) (enPassantSquare p)
    (activeColor p) (halfmoveClock p) (zobristKey p) x
    (states p) (statesSize p).
Definition set_states (x : list State.t) (p : Position) : Position :=
  mkPosition (board p) (pieces p) (material p) (castlingRights p) (enPassantSquare p)
    (activeColor p) (halfmoveClock p) (zobristKey p) (halfmoveNumber p)
    x (statesSize p).
Definition set_statesSize (x : Z) (p : Position) : Position :=
  mkPosition (board p) (pieces p) (material p) (castlingRights p) (enPassantSquare p)
    (activeColor p) (halfmoveClock p) (zobristKey p) (halfmoveNumber p)
    (states p) x.

(** [zobristKey ^= x]. *)
Definition xor_zobristKey (x : Z) (p : Position) : Position :=
  set_zobristKey (Z.lxor (zobristKey p) x) p.

(** [pieces[color][piecetype]], read and written. *)
Definition pieces_get (ps : list (list Z)) (color piecetype : Z) : option Z :=
  row ← array_get ps color; array_get row piecetype.
Definition pieces_set (ps : list (list Z)) (color piecetype x : Z) : option (list (list Z)) :=
  row ← array_get ps color;
  row' ← array_set row piecetype x;
  array_set ps color row'.

(** [Position::Position()]: an empty board.  Modelled from the spec: the
    member initialisers are in [position.h], which is not among the
    sources; no rights, no en-passant square, white to move, halfmove
    clock 0 and fullmove number 1.  [MAX_MOVES] is the capacity of the
    history. *)
Definition Position_new (MAX_MOVES : nat) : Position :=
  mkPosition
    (replicate 128 piece.NOPIECE)
    (replicate 2 (replicate 6 0))
    (replicate 2 0)
    castling.NOCASTLING Square.NOSQUARE color.WHITE 0 0 2
    (replicate MAX_MOVES (State.make 0 0 0 0)) 0.

(** [Position::operator==]: every field but the history. *)
Definition Position_equal (p q : Position) : Prop :=
  board p = board q
  /\ pieces p = pieces q
  /\ material p = material q
  /\ castlingRights p = castlingRights q
  /\ enPassantSquare p = enPassantSquare q
  /\ activeColor p = activeColor q
  /\ halfmoveClock p = halfmoveClock q
  /\ zobristKey p = zobristKey q
  /\ halfmoveNumber p = halfmoveNumber q.

Section Position.

(** The shared hash tables, and [PieceType::getValue] of the missing
    [piecetype.h]. *)
Variable zobrist : Zobrist.t.
Variable PieceType_getValue : Z -> Z.

Definition setActiveColor (activeColor' : Z) (p : Position) : Position :=
  if negb (activeColor p =? activeColor') then
    xor_zobristKey (Zobrist.activeColor zobrist) (set_activeColor activeColor' p)
  else p.

Definition setCastlingRight (castling : Z) (p : Position) : Position :=
  if Z.land (castlingRights p) castling =? castling.NOCASTLING then
    let p := set_castlingRights (Z.lor (castlingRights p) castling) p in
    xor_zobristKey (Zobrist.castlingRights zobrist castling) p
  else p.

Definition setEnPassantSquare (enPassantSquare' : Z) (p : Position) : Position :=
  let p := if negb (enPassantSquare p =? Square.NOSQUARE)
           then xor_zobristKey (Zobrist.enPassantSquare zobrist (enPassantSquare p)) p
           else p in
  let p := if negb (enPassantSquare' =? Square.NOSQUARE)
           then xor_zobristKey (Zobrist.enPassantSquare zobrist enPassantSquare') p
           else p in
  set_enPassantSquare enPassantSquare' p.

Definition setHalfmoveClock (halfmoveClock' : Z) (p : Position) : Position :=
  set_halfmoveClock halfmoveClock' p.

Definition getFullmoveNumber (p : Position) : Z :=
  Z.quot (halfmoveNumber p) 2.

Definition setFullmoveNumber (fullmoveNumber : Z) (p : Position) : Position :=
  let p := set_halfmoveNumber (fullmoveNumber * 2) p in
  if activeColor p =? color.BLACK
  then set_halfmoveNumber (halfmoveNumber p + 1) p
  else p.

(** The loop of [isRepetition]: [i] runs down in steps of two while
    [i >= j]; [fuel] bounds the number of iterations. *)
Fixpoint isRepetition_loop (fuel : nat) (i j : Z) (p : Position) : option bool :=
  if i >=? j then
    match fuel with
    | O => None
    | S fuel' =>
        entry ← array_get (states p) i;
        if zobristKey p =? State.zobristKey entry then Some true
        else isRepetition_loop fuel' (i - 2) j p
    end
  else Some false.

Definition isRepetition (p : Position) : option bool :=
  let j := Z.max 0 (statesSize p - halfmoveClock p) in
  isRepetition_loop (Z.to_nat (statesSize p)) (statesSize p - 2) j p.

Definition hasInsufficientMaterial (p : Position) : option bool :=
  wp ← pieces_get (pieces p) color.WHITE PieceType.PAWN;
  bp ← pieces_get (pieces p) color.BLACK PieceType.PAWN;
  wr ← pieces_get (pieces p) color.WHITE PieceType.ROOK;
  br ← pieces_get (pieces p) color.BLACK PieceType.ROOK;
  wq ← pieces_get (pieces p) color.WHITE PieceType.QUEEN;
  bq ← pieces_get (pieces p) color.BLACK PieceType.QUEEN;
  wn ← pieces_get (pieces p) color.WHITE PieceType.KNIGHT;
  wb ← pieces_get (pieces p) color.WHITE PieceType.BISHOP;
  bn ← pieces_get (pieces p) color.BLACK PieceType.KNIGHT;
  bb ← pieces_get (pieces p) color.BLACK PieceType.BISHOP;
  Some ((bitboard.size wp =? 0)
        && (bitboard.size bp =? 0)
        && (bitboard.size wr =? 0)
        && (bitboard.size br =? 0)
        && (bitboard.size wq =? 0)
        && (bitboard.size bq =? 0)
        && (bitboard.size wn + bitboard.size wb <=? 1)
        && (bitboard.size bn + bitboard.size bb <=? 1)).

Definition put (piece square : Z) (p : Position) : option Position :=
  piecetype ← piece.getType piece;
  color ← piece.getColor piece;
  board' ← array_set (board p) square piece;
  bb ← pieces_get (pieces p) color piecetype;
  pieces' ← pieces_set (pieces p) color piecetype (bitboard.add square bb);
  m ← array_get (material p) color;
  material' ← array_set (material p) color (m + PieceType_getValue piecetype);
  Some (xor_zobristKey (Zobrist.board zobrist piece square)
          (set_material material' (set_pieces pieces' (set_board board' p)))).

Definition remove (square : Z) (p : Position) : option (Z * Position) :=
  piece ← array_get (board p) square;
  piecetype ← piece.getType piece;
  color ← piece.getColor piece;
  board' ← array_set (board p) square piece.NOPIECE;
  bb ← pieces_get (pieces p) color piecetype;
  pieces' ← pieces_set (pieces p) color piecetype (bitboard.remove square bb);
  m ← array_get (material p) color;
  material' ← array_set (material p) color (m - PieceType_getValue piecetype);
  Some (piece,
        xor_zobristKey (Zobrist.board zobrist piece square)
          (set_material material' (set_pieces pieces' (set_board board' p)))).

(** The [switch] of [clearCastling]: the rights that survive when
    [square] is vacated, or [None] for the [default: return]. *)
Definition clearCastling_mask (square castlingRights : Z) : option Z :=
  if square =? Square.a1 then
    Some (Z.land castlingRights (Z.lnot castling.WHITE_QUEENSIDE))
  else if square =? Square.a8 then
    Some (Z.land castlingRights (Z.lnot castling.BLACK_QUEENSIDE))
  else if square =? Square.h1 then
    Some (Z.land castlingRights (Z.lnot castling.WHITE_KINGSIDE))
  else if square =? Square.h8 then
    Some (Z.land castlingRights (Z.lnot castling.BLACK_KINGSIDE))
  else if square =? Square.e1 then
    Some (Z.land castlingRights
            (Z.lnot (Z.lor castling.WHITE_KINGSIDE castling.WHITE_QUEENSIDE)))
  else if square =? Square.e8 then
    Some (Z.land castlingRights
            (Z.lnot (Z.lor castling.BLACK_KINGSIDE castling.BLACK_QUEENSIDE)))
  else None.

Definition clearCastling (square : Z) (p : Position) : Position :=
  match clearCastling_mask square (castlingRights p) with
  | None => p
  | Some newCastlingRights =>
      if negb (newCastlingRights =? castlingRights p) then
        let p := set_castlingRights newCastlingRights p in
        xor_zobristKey
          (Zobrist.castlingRights zobrist (Z.lxor newCastlingRights (castlingRights p))) p
      else p
  end.

(** The [switch] on the king's target square shared by [makeMove] and
    [undoMove]: the rook's origin and target, or the thrown exception. *)
Definition castlingRookSquares (targetSquare : Z) : option (Z * Z) :=
  if targetSquare =? Square.g1 then Some (Square.h1, Square.f1)
  else if targetSquare =? Square.c1 then Some (Square.a1, Square.d1)
  else if targetSquare =? Square.g8 then Some (Square.h8, Square.f8)
  else if targetSquare =? Square.c8 then Some (Square.a8, Square.d8)
  else None.

(** The square a captured piece stands on. *)
Definition captureSquareOf (type targetSquare originColor : Z) : Z :=
  if type =? movetype.ENPASSANT
  then targetSquare + (if originColor =? color.WHITE then Square.S else Square.N)
  else targetSquare.

(** [makeMove], block by block as the source comments divide it.  Each
    block takes the position the previous one left. *)

(** "Save state": push the snapshot on the history. *)
Definition makeMove_save (p : Position) : option Position :=
  let entry := State.make (zobristKey p) (castlingRights p)
                          (enPassantSquare p) (halfmoveClock p) in
  states' ← array_set (states p) (statesSize p) entry;
  Some (set_statesSize (statesSize p + 1) (set_states states' p)).

(** "Remove target piece and update castling rights". *)
Definition makeMove_capture (m : move.t) (originColor : Z) (p : Position)
    : option Position :=
  let type := move.getType m in
  let targetSquare := move.getTargetSquare m in
  let targetPiece := move.getTargetPiece m in
  if negb (targetPiece =? piece.NOPIECE) then
    let captureSquare := captureSquareOf type targetSquare originColor in
    r ← remove captureSquare p;
    Some (clearCastling captureSquare r.2)
  else Some p.

(** "Move piece". *)
Definition makeMove_move (m : move.t) (originColor : Z) (p : Position)
    : option Position :=
  let type := move.getType m in
  let originSquare := move.getOriginSquare m in
  let targetSquare := move.getTargetSquare m in
  let originPiece := move.getOriginPiece m in
  r ← remove originSquare p;
  if type =? movetype.PAWNPROMOTION then
    promoted ← piece.valueOf originColor (move.getPromotion m);
    put promoted targetSquare r.2
  else put originPiece targetSquare r.2.

(** "Move rook and update castling rights". *)
Definition makeMove_rook (m : move.t) (p : Position) : option Position :=
  let type := move.getType m in
  let targetSquare := move.getTargetSquare m in
  if type =? movetype.CASTLING then
    rook ← castlingRookSquares targetSquare;
    r ← remove rook.1 p;
    put r.1 rook.2 r.2
  else Some p.

(** "Update castling", "Update enPassantSquare", "Update activeColor",
    "Update halfmoveClock" and "Update fullMoveNumber". *)
Definition makeMove_update (m : move.t) (originColor : Z) (p : Position)
    : option Position :=
  let type := move.getType m in
  let originSquare := move.getOriginSquare m in
  let targetSquare := move.getTargetSquare m in
  let originPiece := move.getOriginPiece m in
  let targetPiece := move.getTargetPiece m in
  (* Update castling *)
  let p := clearCastling originSquare p in
  (* Update enPassantSquare *)
  let p := if negb (enPassantSquare p =? Square.NOSQUARE)
           then xor_zobristKey (Zobrist.enPassantSquare zobrist (enPassantSquare p)) p
           else p in
  let p := if type =? movetype.PAWNDOUBLE then
             let p := set_enPassantSquare
                        (targetSquare + (if originColor =? color.WHITE
                                         then Square.S else Square.N)) p in
             xor_zobristKey (Zobrist.enPassantSquare zobrist (enPassantSquare p)) p
           else set_enPassantSquare Square.NOSQUARE p in
  (* Update activeColor *)
  activeColor' ← color.opposite (activeColor p);
  let p := xor_zobristKey (Zobrist.activeColor zobrist)
             (set_activeColor activeColor' p) in
  (* Update halfmoveClock *)
  originType ← piece.getType originPiece;
  let p := if (originType =? PieceType.PAWN) || negb (targetPiece =? piece.NOPIECE)
           then set_halfmoveClock 0 p
           else set_halfmoveClock (halfmoveClock p + 1) p in
  (* Update fullMoveNumber *)
  Some (set_halfmoveNumber (halfmoveNumber p + 1) p).

Definition makeMove (m : move.t) (p : Position) : option Position :=
  p ← makeMove_save p;
  originColor ← piece.getColor (move.getOriginPiece m);
  p ← makeMove_capture m originColor p;
  p ← makeMove_move m originColor p;
  p ← makeMove_rook m p;
  makeMove_update m originColor p.

(** [undoMove], block by block. *)

(** "Update fullMoveNumber" and "Update activeColor". *)
Definition undoMove_update (p : Position) : option Position :=
  let p := set_halfmoveNumber (halfmoveNumber p - 1) p in
  activeColor' ← color.opposite (activeColor p);
  Some (set_activeColor activeColor' p).

(** "Undo move rook". *)
Definition undoMove_rook (m : move.t) (p : Position) : option Position :=
  let type := move.getType m in
  let targetSquare := move.getTargetSquare m in
  if type =? movetype.CASTLING then
    rook ← castlingRookSquares targetSquare;
    r ← remove rook.2 p;
    put r.1 rook.1 r.2
  else Some p.

(** "Undo move piece". *)
Definition undoMove_move (m : move.t) (p : Position) : option Position :=
  r ← remove (move.getTargetSquare m) p;
  put (move.getOriginPiece m) (move.getOriginSquare m) r.2.

(** "Restore target piece". *)
Definition undoMove_capture (m : move.t) (originColor : Z) (p : Position)
    : option Position :=
  let type := move.getType m in
  let targetSquare := move.getTargetSquare m in
  let targetPiece := move.getTargetPiece m in
  if negb (targetPiece =? piece.NOPIECE) then
    put targetPiece (captureSquareOf type targetSquare originColor) p
  else Some p.

(** "Restore state": pop the snapshot and copy it back. *)
Definition undoMove_restore (p : Position) : option Position :=
  let p := set_statesSize (statesSize p - 1) p in
  entry ← array_get (states p) (statesSize p);
  let p := set_halfmoveClock (State.halfmoveClock entry) p in
  let p := set_enPassantSquare (State.enPassantSquare entry) p in
  let p := set_castlingRights (State.castlingRights entry) p in
  Some (set_zobristKey (State.zobristKey entry) p).

Definition undoMove (m : move.t) (p : Position) : option Position :=
  originColor ← piece.getColor (move.getOriginPiece m);
  p ← undoMove_update p;
  p ← undoMove_rook m p;
  p ← undoMove_move m p;
  p ← undoMove_capture m originColor p;
  undoMove_restore p.

End Position.

(** ** The attack oracle *)

(** [isAttacked(targetSquare, attackerPiece, directions)]: non-sliding
    pieces, one step in each direction. *)
Fixpoint isAttacked_step (targetSquare attackerPiece : Z) (directions : list Z)
    (p : Position) : option bool :=
  match directions with
  | [] => Some false
  | direction :: directions' =>
      let attackerSquare := targetSquare + direction in
      hit ← (if Square.isValid attackerSquare then
               pc ← array_get (board p) attackerSquare;
               Some (pc =? attackerPiece)
             else Some false);
      if hit : bool then Some true
      else isAttacked_step targetSquare attackerPiece directions' p
  end.

(** The [while] loop of the sliding overload: [Some true] for
    [return true], [Some false] when the loop is left by [break] or by
    its condition, [None] when [fuel] iterations were not enough. *)
Fixpoint isAttacked_ray (fuel : nat) (attackerSquare direction attackerPiece queenPiece : Z)
    (p : Position) : option bool :=
  if Square.isValid attackerSquare then
    match fuel with
    | O => None
    | S fuel' =>
        piece ← array_get (board p) attackerSquare;
        if piece.isValid piece then
          Some ((piece =? attackerPiece) || (piece =? queenPiece))
        else
          isAttacked_ray fuel' (attackerSquare + direction) direction
            attackerPiece queenPiece p
    end
  else Some false.

(** [isAttacked(targetSquare, attackerPiece, queenPiece, directions)]:
    sliding pieces.  A ray from a playable square leaves the board
    within eight steps. *)
Fixpoint isAttacked_slide (targetSquare attackerPiece queenPiece : Z) (directions : list Z)
    (p : Position) : option bool :=
  match directions with
  | [] => Some false
  | direction :: directions' =>
      hit ← isAttacked_ray 8 (targetSquare + direction) direction
              attackerPiece queenPiece p;
      if hit : bool then Some true
      else isAttacked_slide targetSquare attackerPiece queenPiece directions' p
  end.

(** The pawn loop of [isAttacked], over the directions from index 1 on. *)
Fixpoint isAttacked_pawn (targetSquare pawnPiece : Z) (directions : list Z)
    (p : Position) : option bool :=
  match directions with
  | [] => Some false
  | direction :: directions' =>
      let attackerSquare := targetSquare - direction in
      hit ← (if Square.isValid attackerSquare then
               attackerPawn ← array_get (board p) attackerSquare;
               Some (attackerPawn =? pawnPiece)
             else Some false);
      if hit : bool then Some true
      else isAttacked_pawn targetSquare pawnPiece directions' p
  end.

(** Short-circuit [||] of two computations that may fail. *)
Definition orElse (x y : option bool) : option bool :=
  b ← x; if b : bool then Some true else y.

Definition isAttacked (targetSquare attackerColor : Z) (p : Position) : option bool :=
  pawnPiece ← piece.valueOf attackerColor PieceType.PAWN;
  pawnDirections ← Square.pawnDirections attackerColor;
  pawn ← isAttacked_pawn targetSquare pawnPiece (drop 1 pawnDirections) p;
  if pawn : bool then Some true
  else
    knightPiece ← piece.valueOf attackerColor PieceType.KNIGHT;
    bishopPiece ← piece.valueOf attackerColor PieceType.BISHOP;
    rookPiece ← piece.valueOf attackerColor PieceType.ROOK;
    queenPiece ← piece.valueOf attackerColor PieceType.QUEEN;
    kingPiece ← piece.valueOf attackerColor PieceType.KING;
    orElse (isAttacked_step targetSquare knightPiece Square.knightDirections p)
      (orElse (isAttacked_slide targetSquare bishopPiece queenPiece
                 Square.bishopDirections p)
         (orElse (isAttacked_slide targetSquare rookPiece queenPiece
                    Square.rookDirections p)
            (isAttacked_step targetSquare kingPiece Square.kingDirections p))).


(** ** The notation layer *)

(** [std::tolower], [std::toupper] and [std::islower] in the C locale. *)
Definition tolower (c : ascii) : ascii :=
  let n := N_of_ascii c in
  if ((65 <=? n) && (n <=? 90))%N then ascii_of_N (n + 32) else c.
Definition toupper (c : ascii) : ascii :=
  let n := N_of_ascii c in
  if ((97 <=? n) && (n <=? 122))%N then ascii_of_N (n - 32) else c.
Definition islower (c : ascii) : bool :=
  let n := N_of_ascii c in ((97 <=? n) && (n <=? 122))%N.
Definition isdigit (c : ascii) : bool :=
  let n := N_of_ascii c in ((48 <=? n) && (n <=? 57))%N.
Definition isspace (c : ascii) : bool :=
  let n := N_of_ascii c in ((n =? 32) || ((9 <=? n) && (n <=? 13)))%N.
Definition digitValue (c : ascii) : Z := Z.of_N (N_of_ascii c) - 48.

(** Modelled from the spec: the letters are constants of [notation.h],
    which is not among the sources; [w]/[b] for the active color, the
    usual piece letters, [K]/[Q] for the castling sides, file letters
    and rank digits. *)
Definition WHITE_NOTATION : ascii := "w".
Definition BLACK_NOTATION : ascii := "b".
Definition PAWN_NOTATION : ascii := "P".
Definition KNIGHT_NOTATION : ascii := "N".
Definition BISHOP_NOTATION : ascii := "B".
Definition ROOK_NOTATION : ascii := "R".
Definition QUEEN_NOTATION : ascii := "Q".
Definition KING_NOTATION : ascii := "K".
Definition KINGSIDE_NOTATION : ascii := "K".
Definition QUEENSIDE_NOTATION : ascii := "Q".

Definition STANDARDPOSITION : string :=
  "rnbqkbnr/pppppppp/8/8/8/8/PPPPPPPP/RNBQKBNR w KQkq - 0 1"%string.

Definition toColor (notation : ascii) : Z :=
  let lowercaseNotation := tolower notation in
  if Ascii.eqb lowercaseNotation WHITE_NOTATION then color.WHITE
  else if Ascii.eqb lowercaseNotation BLACK_NOTATION then color.BLACK
  else color.NOCOLOR.

Definition fromColor (c : Z) : option ascii :=
  if c =? color.WHITE then Some WHITE_NOTATION
  else if c =? color.BLACK then Some BLACK_NOTATION
  else None.

Definition colorOf (notation : ascii) : Z :=
  if islower notation then color.BLACK else color.WHITE.

Definition transform (notation : ascii) (c : Z) : option ascii :=
  if c =? color.WHITE then Some (toupper notation)
  else if c =? color.BLACK then Some (tolower notation)
  else None.

Definition toPieceType (notation : ascii) : Z :=
  let uppercaseNotation := toupper notation in
  if Ascii.eqb uppercaseNotation PAWN_NOTATION then PieceType.PAWN
  else if Ascii.eqb uppercaseNotation KNIGHT_NOTATION then PieceType.KNIGHT
  else if Ascii.eqb uppercaseNotation BISHOP_NOTATION then PieceType.BISHOP
  else if Ascii.eqb uppercaseNotation ROOK_NOTATION then PieceType.ROOK
  else if Ascii.eqb uppercaseNotation QUEEN_NOTATION then PieceType.QUEEN
  else if Ascii.eqb uppercaseNotation KING_NOTATION then PieceType.KING
  else PieceType.NOPIECETYPE.

Definition fromPieceType (piecetype : Z) : option ascii :=
  if piecetype =? PieceType.PAWN then Some PAWN_NOTATION
  else if piecetype =? PieceType.KNIGHT then Some KNIGHT_NOTATION
  else if piecetype =? PieceType.BISHOP then Some BISHOP_NOTATION
  else if piecetype =? PieceType.ROOK then Some ROOK_NOTATION
  else if piecetype =? PieceType.QUEEN then Some QUEEN_NOTATION
  else if piecetype =? PieceType.KING then Some KING_NOTATION
  else None.

Definition toPiece (notation : ascii) : option Z :=
  let c := colorOf notation in
  let piecetype := toPieceType notation in
  if negb (piecetype =? PieceType.NOPIECETYPE) then piece.valueOf c piecetype
  else Some piece.NOPIECE.

Definition fromPiece (pc : Z) : option ascii :=
  piecetype ← piece.getType pc;
  notation ← fromPieceType piecetype;
  c ← piece.getColor pc;
  transform notation c.

Definition toCastlingType (notation : ascii) : Z :=
  let uppercaseNotation := toupper notation in
  if Ascii.eqb uppercaseNotation KINGSIDE_NOTATION then castlingtype.KINGSIDE
  else if Ascii.eqb uppercaseNotation QUEENSIDE_NOTATION then castlingtype.QUEENSIDE
  else castlingtype.NOCASTLINGTYPE.

Definition fromCastlingType (t : Z) : option ascii :=
  if t =? castlingtype.KINGSIDE then Some KINGSIDE_NOTATION
  else if t =? castlingtype.QUEENSIDE then Some QUEENSIDE_NOTATION
  else None.

Definition toCastling (notation : ascii) : option Z :=
  let c := colorOf notation in
  let t := toCastlingType notation in
  if negb (t =? castlingtype.NOCASTLINGTYPE) then castling.valueOf c t
  else Some castling.NOCASTLING.

Definition fromCastling (c : Z) : option ascii :=
  t ← castling.getType c;
  notation ← fromCastlingType t;
  col ← castling.getColor c;
  transform notation col.

Definition toFile (notation : ascii) : Z :=
  let lowercaseNotation := tolower notation in
  if Ascii.eqb lowercaseNotation "a" then file.a
  else if Ascii.eqb lowercaseNotation "b" then file.b
  else if Ascii.eqb lowercaseNotation "c" then file.c
  else if Ascii.eqb lowercaseNotation "d" then file.d
  else if Ascii.eqb lowercaseNotation "e" then file.e
  else if Ascii.eqb lowercaseNotation "f" then file.f
  else if Ascii.eqb lowercaseNotation "g" then file.g
  else if Ascii.eqb lowercaseNotation "h" then file.h
  else file.NOFILE.

Definition fromFile (f : Z) : option ascii :=
  if f =? file.a then Some "a"%char
  else if f =? file.b then Some "b"%char
  else if f =? file.c then Some "c"%char
  else if f =? file.d then Some "d"%char
  else if f =? file.e then Some "e"%char
  else if f =? file.f then Some "f"%char
  else if f =? file.g then Some "g"%char
  else if f =? file.h then Some "h"%char
  else None.

Definition toRank (notation : ascii) : Z :=
  if Ascii.eqb notation "1" then Rank.r1
  else if Ascii.eqb notation "2" then Rank.r2
  else if Ascii.eqb notation "3" then Rank.r3
  else if Ascii.eqb notation "4" then Rank.r4
  else if Ascii.eqb notation "5" then Rank.r5
  else if Ascii.eqb notation "6" then Rank.r6
  else if Ascii.eqb notation "7" then Rank.r7
  else if Ascii.eqb notation "8" then Rank.r8
  else Rank.NORANK.

Definition fromRank (r : Z) : option ascii :=
  if r =? Rank.r1 then Some "1"%char
  else if r =? Rank.r2 then Some "2"%char
  else if r =? Rank.r3 then Some "3"%char
  else if r =? Rank.r4 then Some "4"%char
  else if r =? Rank.r5 then Some "5"%char
  else if r =? Rank.r6 then Some "6"%char
  else if r =? Rank.r7 then Some "7"%char
  else if r =? Rank.r8 then Some "8"%char
  else None.

Definition fromSquare (square : Z) : option string :=
  f ← fromFile (Square.getFile square);
  r ← fromRank (Square.getRank square);
  Some (String f (String r EmptyString)).

(** [std::to_string] of a non-negative number, most significant digit
    first; [fuel] bounds the number of digits. *)
Fixpoint to_string_digits (fuel : nat) (n : Z) (acc : string) : string :=
  match fuel with
  | O => acc
  | S fuel' =>
      let acc := String (ascii_of_N (Z.to_N (48 + n mod 10))) acc in
      if n / 10 =? 0 then acc else to_string_digits fuel' (n / 10) acc
  end.

Definition to_string (n : Z) : string :=
  if n <? 0 then String "-" (to_string_digits 20 (- n) EmptyString)
  else to_string_digits 20 n EmptyString.

(** [std::stoi]: leading white space is skipped, a sign is accepted,
    the longest run of digits is read and what follows is ignored; no
    digit at all, or a value that does not fit an [int], throws. *)
Fixpoint stoi_skip (s : string) : string :=
  match s with
  | String c s' => if isspace c then stoi_skip s' else s
  | EmptyString => s
  end.

Fixpoint stoi_digits (s : string) (acc : option Z) : option Z :=
  match s with
  | String c s' =>
      if isdigit c then stoi_digits s' (Some (10 * default 0 acc + digitValue c))
      else acc
  | EmptyString => acc
  end.

Definition stoi (s : string) : option Z :=
  let s := stoi_skip s in
  let '(negative, s) :=
    match s with
    | String "-" s' => (true, s')
    | String "+" s' => (false, s')
    | _ => (false, s)
    end in
  n ← stoi_digits s None;
  let n := if negative : bool then - n else n in
  if (- 2 ^ 31 <=? n) && (n <? 2 ^ 31) then Some n else None.

(** The [std::getline] loop: the tokens are the non-empty runs between
    blanks.  [token] is the run read so far. *)
Fixpoint getTokens (s : string) (token : string) : list string :=
  match s with
  | EmptyString => if String.eqb token EmptyString then [] else [token]
  | String c s' =>
      if Ascii.eqb c " " then
        if String.eqb token EmptyString then getTokens s' EmptyString
        else token :: getTokens s' EmptyString
      else getTokens s' (String.append token (String c EmptyString))
  end.

Section NotationLayer.

Variable zobrist : Zobrist.t.
Variable PieceType_getValue : Z -> Z.
(** Capacity of the history of a fresh position. *)
Variable MAX_MOVES : nat.

(** One turn of the loop over the piece-placement field. *)
Definition toPosition_placement (character : ascii) (st : Z * Z * Position)
    : option (Z * Z * Position) :=
  let '(file, rank, position) := st in
  pc ← toPiece character;
  if negb (pc =? piece.NOPIECE) then
    if negb (file.isValid file) || negb (Rank.isValid rank) then None
    else
      position ← put zobrist PieceType_getValue pc (Square.valueOf file rank) position;
      if file =? file.h then Some (file.NOFILE, rank, position)
      else Some (file + 1, rank, position)
  else if Ascii.eqb character "/" then
    if negb (file =? file.NOFILE) || (rank =? Rank.r1) then None
    else Some (file.a, rank - 1, position)
  else
    emptySquares ← stoi (String character EmptyString);
    if (emptySquares <? 1) || (8 <? emptySquares) then None
    else
      let file := file + (emptySquares - 1) in
      if negb (file.isValid file) then None
      else if file =? file.h then Some (file.NOFILE, rank, position)
      else Some (file + 1, rank, position).

Fixpoint toPosition_placements (token : string) (st : Z * Z * Position)
    : option (Z * Z * Position) :=
  match token with
  | EmptyString => Some st
  | String character token' =>
      st ← toPosition_placement character st;
      toPosition_placements token' st
  end.

(** One turn of the loop over the castling field. *)
Definition toPosition_castling (character : ascii) (position : Position)
    : option Position :=
  castling ← toCastling character;
  castling ←
    (if castling =? castling.NOCASTLING then
       let castlingFile := toFile character in
       if castlingFile =? file.NOFILE then None
       else
         let c := colorOf character in
         king ← pieces_get (pieces position) c PieceType.KING;
         if king =? 0 then None
         else
           let kingFile := Square.getFile (bitboard.next king) in
           if castlingFile >? kingFile
           then castling.valueOf c castlingtype.KINGSIDE
           else castling.valueOf c castlingtype.QUEENSIDE
     else
       _ ← castling.getType castling;
       Some castling);
  Some (setCastlingRight zobrist castling position).

Fixpoint toPosition_castlings (token : string) (position : Position)
    : option Position :=
  match token with
  | EmptyString => Some position
  | String character token' =>
      position ← toPosition_castling character position;
      toPosition_castlings token' position
  end.

Definition toPosition (fen : string) : option Position :=
  let position := Position_new MAX_MOVES in
  (* Clean and split into tokens *)
  let tokens := getTokens fen EmptyString in
  (* halfmove clock and fullmove number are optional *)
  if (length tokens <? 4)%nat || (6 <? length tokens)%nat then None
  else
    (* Parse pieces *)
    token ← tokens !! 0%nat;
    st ← toPosition_placements token (file.a, Rank.r8, position);
    let position := st.2 in
    (* Parse active color *)
    token ← tokens !! 1%nat;
    if negb (String.length token =? 1)%nat then None
    else
      c0 ← String.get 0 token;
      let activeColor := toColor c0 in
      if activeColor =? color.NOCOLOR then None
      else
        let position := setActiveColor zobrist activeColor position in
        (* Parse castling rights *)
        token ← tokens !! 2%nat;
        position ← (if negb (String.eqb token "-")
                    then toPosition_castlings token position
                    else Some position);
        (* Parse en passant square *)
        token ← tokens !! 3%nat;
        position ←
          (if negb (String.eqb token "-") then
             if negb (String.length token =? 2)%nat then None
             else
               c0 ← String.get 0 token;
               c1 ← String.get 1 token;
               let enPassantFile := toFile c0 in
               let enPassantRank := toRank c1 in
               if negb ((activeColor =? color.BLACK) && (enPassantRank =? Rank.r3))
                  && negb ((activeColor =? color.WHITE) && (enPassantRank =? Rank.r6))
               then None
               else Some (setEnPassantSquare zobrist
                            (Square.valueOf enPassantFile enPassantRank) position)
           else Some position);
        (* Parse halfmove clock *)
        position ←
          (if (5 <=? length tokens)%nat then
             token ← tokens !! 4%nat;
             number ← stoi token;
             if number <? 0 then None
             else Some (setHalfmoveClock number position)
           else Some position);
        (* Parse fullmove number *)
        if (length tokens =? 6)%nat then
          token ← tokens !! 5%nat;
          number ← stoi token;
          if number <? 1 then None
          else Some (setFullmoveNumber number position)
        else Some position.

End NotationLayer.

(** One rank of the piece-placement field, file by file. *)
Fixpoint fromPosition_rank (position : Position) (rank : Z) (files : list Z)
    (emptySquares : Z) (fen : string) : option (Z * string) :=
  match files with
  | [] => Some (emptySquares, fen)
  | file :: files' =>
      pc ← array_get (board position) (Square.valueOf file rank);
      if pc =? piece.NOPIECE then
        fromPosition_rank position rank files' (emptySquares + 1) fen
      else
        let fen := if emptySquares >? 0
                   then String.append fen (to_string emptySquares) else fen in
        c ← fromPiece pc;
        fromPosition_rank position rank files' 0
          (String.append fen (String c EmptyString))
  end.

Fixpoint fromPosition_ranks (position : Position) (ranks : list Z) (fen : string)
    : option string :=
  match ranks with
  | [] => Some fen
  | rank :: ranks' =>
      r ← fromPosition_rank position rank file.values 0 fen;
      let fen := if r.1 >? 0 then String.append r.2 (to_string r.1) else r.2 in
      let fen := if rank >? Rank.r1
                 then String.append fen (String "/" EmptyString) else fen in
      fromPosition_ranks position ranks' fen
  end.

Definition fromPosition_castling (position : Position) (flag : Z)
    (castlingNotation : string) : option string :=
  if negb (Z.land (castlingRights position) flag =? castling.NOCASTLING) then
    c ← fromCastling flag;
    Some (String.append castlingNotation (String c EmptyString))
  else Some castlingNotation.

Definition fromPosition (position : Position) : option string :=
  (* Pieces *)
  fen ← fromPosition_ranks position (rev Rank.values) EmptyString;
  let fen := String.append fen " " in
  (* Color *)
  c ← fromColor (activeColor position);
  let fen := String.append fen (String c EmptyString) in
  let fen := String.append fen " " in
  (* Castling *)
  castlingNotation ← fromPosition_castling position castling.WHITE_KINGSIDE EmptyString;
  castlingNotation ← fromPosition_castling position castling.WHITE_QUEENSIDE castlingNotation;
  castlingNotation ← fromPosition_castling position castling.BLACK_KINGSIDE castlingNotation;
  castlingNotation ← fromPosition_castling position castling.BLACK_QUEENSIDE castlingNotation;
  let fen := if String.eqb castlingNotation EmptyString
             then String.append fen "-"
             else String.append fen castlingNotation in
  let fen := String.append fen " " in
  (* En passant *)
  fen ← (if negb (enPassantSquare position =? Square.NOSQUARE) then
           s ← fromSquare (enPassantSquare position);
           Some (String.append fen s)
         else Some (String.append fen "-"));
  let fen := String.append fen " " in
  (* Halfmove clock *)
  let fen := String.append fen (to_string (halfmoveClock position)) in
  let fen := String.append fen " " in
  (* Fullmove number *)
  Some (String.append fen (to_string (getFullmoveNumber position))).


(** ** Data-model invariants and preconditions *)

(** A playable square: an index of the board array that passes
    [Square::isValid]. *)
Definition validSquare (s : Z) : bool :=
  (0 <=? s) && (s <? Square.VALUES_LENGTH) && Square.isValid s.

Definition piece_values : list Z := Z.of_nat <$> seq 0 12.

(** A [uint64_t]. *)
Definition bitboard_ok (bb : Z) : bool := (0 <=? bb) && (bb <? 2 ^ 64).

(** The arrays have the sizes of their declarations. *)
Definition shape_ok (p : Position) : bool :=
  (length (board p) =? 128)%nat
  && (length (pieces p) =? 2)%nat
  && forallb (fun row => (length row =? 6)%nat && forallb bitboard_ok row) (pieces p)
  && (length (material p) =? 2)%nat.

(** Board array and occupancy sets agree: a playable square is a member
    of the set of a piece exactly when the board holds that piece there. *)
Definition occupancy_ok (p : Position) : bool :=
  forallb
    (fun s =>
       forallb
         (fun pc =>
            match array_get (board p) s, pieces_get (pieces p) (pc / 6) (pc mod 6) with
            | Some x, Some bb => Bool.eqb (bitboard.mem s bb) (x =? pc)
            | _, _ => false
            end)
         piece_values)
    Square.values.

(** The invariants of the data model that [put] and [remove] rely on:
    array shapes and agreement of board and occupancy sets. *)
Definition board_ok (p : Position) : bool := shape_ok p && occupancy_ok p.

(** The invariants of the data model that the move protocol relies on:
    those of the board, a side to move, and a history depth within the
    capacity. *)
Definition position_ok (p : Position) : bool :=
  board_ok p
  && color.isValid (activeColor p)
  && (0 <=? statesSize p) && (statesSize p <=? Z.of_nat (length (states p))).

(** The piece on a square, for stating preconditions. *)
Definition pieceAt (p : Position) (s : Z) : Z :=
  default piece.NOPIECE (array_get (board p) s).

(** Caller discipline of [makeMove]: the history has room; the origin
    piece sits on its origin square; a captured piece sits on the
    capture square, which is not the origin; the square the moving
    piece is put on is empty once the capture is removed; a promotion
    names a piece type; a castling move captures nothing, has a
    canonical target, finds a rook on the rook's origin and the rook's
    target empty. *)
Definition move_ok (p : Position) (m : move.t) : bool :=
  let type := move.getType m in
  let originSquare := move.getOriginSquare m in
  let targetSquare := move.getTargetSquare m in
  let originPiece := move.getOriginPiece m in
  let targetPiece := move.getTargetPiece m in
  let captureSquare := captureSquareOf type targetSquare (originPiece / 6) in
  (statesSize p <? Z.of_nat (length (states p)))
  && validSquare originSquare && validSquare targetSquare
  && piece.isValid originPiece && (pieceAt p originSquare =? originPiece)
  && (if targetPiece =? piece.NOPIECE then
        (targetSquare =? originSquare) || (pieceAt p targetSquare =? piece.NOPIECE)
      else
        piece.isValid targetPiece && validSquare captureSquare
        && negb (captureSquare =? originSquare)
        && (pieceAt p captureSquare =? targetPiece)
        && ((targetSquare =? captureSquare) || (targetSquare =? originSquare)
            || (pieceAt p targetSquare =? piece.NOPIECE)))
  && (if type =? movetype.PAWNPROMOTION
      then PieceType.isValid (move.getPromotion m) else true)
  && (if type =? movetype.CASTLING then
        (targetPiece =? piece.NOPIECE)
        && match castlingRookSquares targetSquare with
           | Some (rookOriginSquare, rookTargetSquare) =>
               negb (originSquare =? rookOriginSquare)
               && negb (originSquare =? rookTargetSquare)
               && piece.isValid (pieceAt p rookOriginSquare)
               && (pieceAt p rookTargetSquare =? piece.NOPIECE)
           | None => false
           end
      else true).

(** ** The hash recomputed from scratch *)

Section FromScratch.

Variable zobrist : Zobrist.t.

(** Contribution of one square: the table entry of the piece on it. *)
Definition zobrist_square (brd : list Z) (s : Z) : Z :=
  match array_get brd s with
  | Some pc => if piece.isValid pc then Zobrist.board zobrist pc s else 0
  | None => 0
  end.

(** Contribution of the rights: the entries of the flags that are set
    (the table holds, for the two per-color pairs, the exclusive-or of
    the entries of their flags). *)
Definition zobrist_castling (rights : Z) : Z :=
  fold_right
    (fun flag acc =>
       if negb (Z.land rights flag =? castling.NOCASTLING)
       then Z.lxor (Zobrist.castlingRights zobrist flag) acc else acc)
    0
    [castling.WHITE_KINGSIDE; castling.WHITE_QUEENSIDE;
     castling.BLACK_KINGSIDE; castling.BLACK_QUEENSIDE].

(** Contribution of the board: every playable square in turn. *)
Definition zobrist_board (brd : list Z) : Z :=
  fold_right (fun s acc => Z.lxor (zobrist_square brd s) acc) 0 Square.values.

(** Contribution of the en-passant square, when one is set. *)
Definition zobrist_enPassant (square : Z) : Z :=
  if negb (square =? Square.NOSQUARE)
  then Zobrist.enPassantSquare zobrist square else 0.

(** The side-to-move term: the empty position with white to move
    hashes to 0, so the term is folded in when black is to move. *)
Definition zobrist_active (c : Z) : Z :=
  if c =? color.BLACK then Zobrist.activeColor zobrist else 0.

(** The exclusive-or over every occupied square, the active castling
    rights, the en-passant square when one is set, and the side to
    move. *)
Definition zobristKey_from_scratch (p : Position) : Z :=
  Z.lxor (zobrist_board (board p))
    (Z.lxor (zobrist_castling (castlingRights p))
       (Z.lxor (zobrist_enPassant (enPassantSquare p))
          (zobrist_active (activeColor p)))).

End FromScratch.

(** ** What the sliding part of the attack oracle decides *)

(** On the ray from [targetSquare] in [direction], the [k]-th square is
    the first occupied one, every square before it is playable and
    empty, and it holds [attackerPiece] or [queenPiece]. *)
Definition ray_hit_at (p : Position) (targetSquare direction attackerPiece queenPiece : Z)
    (k : nat) : Prop :=
  (1 <= k)%nat
  /\ (forall i : nat, (1 <= i < k)%nat ->
        Square.isValid (targetSquare + Z.of_nat i * direction) = true
        /\ exists pc, array_get (board p) (targetSquare + Z.of_nat i * direction) = Some pc
                      /\ piece.isValid pc = false)
  /\ Square.isValid (targetSquare + Z.of_nat k * direction) = true
  /\ exists pc, array_get (board p) (targetSquare + Z.of_nat k * direction) = Some pc
                /\ piece.isValid pc = true
                /\ (pc = attackerPiece \/ pc = queenPiece).

Definition ray_hit (p : Position) (targetSquare direction attackerPiece queenPiece : Z) : Prop :=
  exists k : nat, ray_hit_at p targetSquare direction attackerPiece queenPiece k.

(** ** What the repetition test compares *)

(** The history indices [isRepetition] examines: [statesSize - 2],
    [statesSize - 4], ... down to [max 0 (statesSize - halfmoveClock)]. *)
Definition examined (p : Position) (i : Z) : Prop :=
  Z.max 0 (statesSize p - halfmoveClock p) <= i
  /\ exists k : Z, 1 <= k /\ i = statesSize p - 2 * k.

(** The integers [lo], [lo + 1], ..., [lo + n - 1]. *)
Definition Zrange (lo : Z) (n : nat) : list Z := (fun i => lo + Z.of_nat i) <$> seq 0 n.

(** The data-model invariant as a proposition.  Shapes of the arrays, and for each color and piece type an
    occupancy set that agrees with the board on every playable square. *)
Definition Inv (p : Position) : Prop :=
  length (board p) = 128%nat
  /\ length (material p) = 2%nat
  /\ forall c t, 0 <= c < 2 -> 0 <= t < 6 ->
       exists bb, pieces_get (pieces p) c t = Some bb
                  /\ bitboard_ok bb = true
                  /\ forall s, validSquare s = true ->
                       exists x, array_get (board p) s = Some x
                                 /\ bitboard.mem s bb = (x =? c * 6 + t).


(** [with_core q p]: board, occupancy sets and material of [p], every
    other field of [q].  [put] and [remove] read and write only the
    former three and the hash. *)
Definition with_core (q p : Position) : Position :=
  mkPosition (board p) (pieces p) (material p) (castlingRights q) (enPassantSquare q)
    (activeColor q) (halfmoveClock q) (zobristKey q) (halfmoveNumber q)
    (states q) (statesSize q).

(** A small table and piece values to run the definitions on. *)
Definition sample_zobrist : Zobrist.t :=
  Zobrist_new (fun n => (Z.of_nat n * 2654435761 + 12345) mod 256) (fun _ => 0).
Definition sample_getValue (t : Z) : Z :=
  nth (Z.to_nat t) [100; 325; 325; 500; 975; 20000] 0.

(** The fields that [put], [remove] and [clearCastling] leave alone and
    that the history does not restore. *)
Definition frame (q : Position) : Z * Z * Z * list State.t * Z :=
  (activeColor q, halfmoveClock q, halfmoveNumber q, states q, statesSize q).

(** The piece [makeMove] puts on the target square. *)
Definition placedPiece (m : move.t) : Z :=
  if move.getType m =? movetype.PAWNPROMOTION
  then move.getOriginPiece m / 6 * 6 + move.getPromotion m
  else move.getOriginPiece m.

(** The position a description parses to, with the sample tables and a
    history of capacity 8 (the empty position when parsing fails). *)
Definition sample_position (fen : string) : Position :=
  default (Position_new 8) (toPosition sample_zobrist sample_getValue 8 fen).

(** ** What the material test counts *)

(** Color [c] has a piece of type [t]: some playable square is a member
    of that occupancy set. *)
Definition hasPiece (p : Position) (c t : Z) : Prop :=
  exists bb s, pieces_get (pieces p) c t = Some bb
               /\ validSquare s = true /\ bitboard.mem s bb = true.

(** The number of pieces of type [t] that color [c] has. *)
Definition countPieces (p : Position) (c t : Z) : Z :=
  match pieces_get (pieces p) c t with
  | Some bb => bitboard.size bb
  | None => 0
  end.

(** ** Further functions of [position.cpp] and [notation.cpp] *)

(** [Position::Position(const Position&)]: a fresh position, into which
    every field but the history is copied; the history depth is 0. *)
Definition Position_copy (MAX_MOVES : nat) (position : Position) : Position :=
  let this := Position_new MAX_MOVES in
  mkPosition (board position) (pieces position) (material position)
    (castlingRights position) (enPassantSquare position) (activeColor position)
    (halfmoveClock position) (zobristKey position) (halfmoveNumber position)
    (states this) 0.

(** [Position::operator=]: the same copy into an existing position,
    whose history array stays and whose history depth becomes 0. *)
Definition Position_assign (this position : Position) : Position :=
  mkPosition (board position) (pieces position) (material position)
    (castlingRights position) (enPassantSquare position) (activeColor position)
    (halfmoveClock position) (zobristKey position) (halfmoveNumber position)
    (states this) 0.

(** The rights [clearCastling] leaves when [square] is vacated. *)
Definition clearedRights (square rights : Z) : Z :=
  match clearCastling_mask square rights with
  | Some n => n
  | None => rights
  end.

(** The arrays of occupancy sets have their declared shape. *)
Definition pieces_shape (ps : list (list Z)) : Prop :=
  length ps = 2%nat
  /\ Forall (fun row => length row = 6%nat
                        /\ Forall (fun bb => bitboard_ok bb = true) row) ps.

(** [notation[i]] of a [std::string]: the character at [i], the
    terminating null at [i = length]; beyond that the read is undefined. *)
Definition string_at (s : string) (i : nat) : option ascii :=
  match String.get i s with
  | Some c => Some c
  | None => if (i =? String.length s)%nat then Some Ascii.zero else None
  end.

(** [Notation::toSquare]. *)
Definition toSquare (notation : string) : option Z :=
  c0 ← string_at notation 0;
  c1 ← string_at notation 1;
  let file := toFile c0 in
  let rank := toRank c1 in
  if negb (file =? file.NOFILE) && negb (rank =? Rank.NORANK)
  then Some (Z.shiftl rank 4 + file)
  else Some Square.NOSQUARE.

(** A character the piece-placement loop rejects wherever it stands:
    not a piece letter, not the rank separator, not a digit from 1 to 8. *)
Definition placement_reject (c : ascii) : bool :=
  match toPiece c with
  | Some pc => pc =? piece.NOPIECE
  | None => false
  end
  && negb (Ascii.eqb c "/")
  && negb ((49 <=? N_of_ascii c)%N && (N_of_ascii c <=? 56)%N).

(** What the construction interface guarantees of a position it has
    built: the invariants of the data model, a maintained hash equal to
    the hash from scratch, an empty history and a halfmove clock that is
    not negative. *)
Definition wellBuilt (zobrist : Zobrist.t) (p : Position) : Prop :=
  position_ok p = true
  /\ zobristKey p = zobristKey_from_scratch zobrist p
  /\ statesSize p = 0
  /\ 0 <= halfmoveClock p.

(** The squares the piece-placement loop has not reached yet, from
    [file] on [rank] to the end of the first rank, are empty. *)
Definition emptyAhead (file rank : Z) (p : Position) : Prop :=
  forall f r, 0 <= f < 8 -> 0 <= r < 8 -> r < rank \/ (r = rank /\ file <= f) ->
    array_get (board p) (Square.valueOf f r) = Some piece.NOPIECE.

(** ** What the attack oracle looks for *)

(** The piece of a color and a piece type. *)
Definition pieceOf (c t : Z) : Z := default piece.NOPIECE (piece.valueOf c t).

(** One step from [targetSquare], in one of the [directions], lies a
    playable square that holds [attackerPiece]. *)
Definition step_hit (p : Position) (targetSquare attackerPiece : Z)
    (directions : list Z) : Prop :=
  exists d, In d directions
            /\ Square.isValid (targetSquare + d) = true
            /\ array_get (board p) (targetSquare + d) = Some attackerPiece.

(** [targetSquare] is attacked by [attackerColor]: a pawn of that color
    stands one capturing step back from the target, or a knight a
    knight's step away, or a bishop or the queen is the first piece on a
    diagonal ray, or a rook or the queen the first piece on an
    orthogonal ray, or the king stands next to the target. *)
Definition attacked (p : Position) (targetSquare attackerColor : Z) : Prop :=
  exists pawnDirections,
    Square.pawnDirections attackerColor = Some pawnDirections
    /\ (step_hit p targetSquare (pieceOf attackerColor PieceType.PAWN)
          (Z.opp <$> drop 1 pawnDirections)
        \/ step_hit p targetSquare (pieceOf attackerColor PieceType.KNIGHT)
             Square.knightDirections
        \/ (exists d, In d Square.bishopDirections
                      /\ ray_hit p targetSquare d (pieceOf attackerColor PieceType.BISHOP)
                           (pieceOf attackerColor PieceType.QUEEN))
        \/ (exists d, In d Square.rookDirections
                      /\ ray_hit p targetSquare d (pieceOf attackerColor PieceType.ROOK)
                           (pieceOf attackerColor PieceType.QUEEN))
        \/ step_hit p targetSquare (pieceOf attackerColor PieceType.KING)
             Square.kingDirections).
(** * Properties *)

(** ** Arrays *)

Lemma array_set_Some {A : Type} (l : list A) (i : Z) (x : A) :
  0 <= i < Z.of_nat (length l) ->
  array_set l i x = Some (<[Z.to_nat i := x]> l).
Proof.
  intros Hi. unfold array_set.
  destruct (Z.leb_spec 0 i); [|lia].
  destruct (Z.ltb_spec i (Z.of_nat (length l))); [|lia].
  reflexivity.
Qed.

Lemma array_set_inv {A : Type} (l l' : list A) (i : Z) (x : A) :
  array_set l i x = Some l' ->
  0 <= i < Z.of_nat (length l) /\ l' = <[Z.to_nat i := x]> l.
Proof.
  unfold array_set.
  destruct (Z.leb_spec 0 i); simpl; [|discriminate].
  destruct (Z.ltb_spec i (Z.of_nat (length l))); simpl; [|discriminate].
  intros [= <-]. split; [lia | reflexivity].
Qed.

Lemma array_get_Some {A : Type} (l : list A) (i : Z) :
  0 <= i < Z.of_nat (length l) -> exists x, array_get l i = Some x.
Proof.
  intros Hi. unfold array_get.
  destruct (Z.leb_spec 0 i); [|lia].
  apply lookup_lt_is_Some_2. lia.
Qed.

Lemma array_get_inv {A : Type} (l : list A) (i : Z) (x : A) :
  array_get l i = Some x ->
  0 <= i < Z.of_nat (length l) /\ l !! Z.to_nat i = Some x.
Proof.
  unfold array_get.
  destruct (Z.leb_spec 0 i); [|discriminate].
  intros Hx. split; [|exact Hx].
  apply lookup_lt_Some in Hx. lia.
Qed.

Lemma array_set_length {A : Type} (l l' : list A) (i : Z) (x : A) :
  array_set l i x = Some l' -> length l' = length l.
Proof.
  intros H. apply array_set_inv in H as [_ ->]. apply length_insert.
Qed.

Lemma array_get_set_eq {A : Type} (l l' : list A) (i : Z) (x : A) :
  array_set l i x = Some l' -> array_get l' i = Some x.
Proof.
  intros H. apply array_set_inv in H as [Hi ->]. unfold array_get.
  destruct (Z.leb_spec 0 i); [|lia].
  apply list_lookup_insert_eq. lia.
Qed.

Lemma array_get_set_ne {A : Type} (l l' : list A) (i j : Z) (x : A) :
  array_set l i x = Some l' -> i <> j -> array_get l' j = array_get l j.
Proof.
  intros H Hne. apply array_set_inv in H as [Hi ->]. unfold array_get.
  destruct (Z.leb_spec 0 j); [|reflexivity].
  apply list_lookup_insert_ne. lia.
Qed.

Lemma array_set_set {A : Type} (l l' : list A) (i : Z) (x y : A) :
  array_set l i x = Some l' -> array_set l' i y = array_set l i y.
Proof.
  intros H. apply array_set_inv in H as [Hi ->].
  rewrite !array_set_Some by (rewrite ?length_insert; lia).
  by rewrite list_insert_insert_eq.
Qed.

Lemma array_set_id {A : Type} (l : list A) (i : Z) (x : A) :
  array_get l i = Some x -> array_set l i x = Some l.
Proof.
  intros H. apply array_get_inv in H as [Hi Hx].
  rewrite array_set_Some by lia. by rewrite list_insert_id.
Qed.

(** ** The two-dimensional array of occupancy sets *)

Lemma pieces_set_inv (ps ps' : list (list Z)) (c t x : Z) :
  pieces_set ps c t x = Some ps' ->
  exists row row', array_get ps c = Some row /\ array_set row t x = Some row'
                   /\ array_set ps c row' = Some ps'.
Proof.
  unfold pieces_set. intros H.
  destruct (array_get ps c) as [row|] eqn:Hrow; [|discriminate]. simpl in H.
  destruct (array_set row t x) as [row'|] eqn:Hrow'; [|discriminate]. simpl in H.
  eauto.
Qed.

Lemma pieces_get_set_eq (ps ps' : list (list Z)) (c t x : Z) :
  pieces_set ps c t x = Some ps' -> pieces_get ps' c t = Some x.
Proof.
  intros (row & row' & Hrow & Hset & Hps)%pieces_set_inv.
  unfold pieces_get. rewrite (array_get_set_eq _ _ _ _ Hps). simpl.
  eapply array_get_set_eq; eauto.
Qed.

Lemma pieces_get_set_ne (ps ps' : list (list Z)) (c t c' t' x : Z) :
  pieces_set ps c t x = Some ps' -> (c, t) <> (c', t') ->
  pieces_get ps' c' t' = pieces_get ps c' t'.
Proof.
  intros (row & row' & Hrow & Hset & Hps)%pieces_set_inv Hne.
  unfold pieces_get. destruct (Z.eq_dec c c') as [<-|Hc].
  - rewrite (array_get_set_eq _ _ _ _ Hps), Hrow. simpl.
    eapply array_get_set_ne; eauto. congruence.
  - by rewrite (array_get_set_ne _ _ _ _ _ Hps Hc).
Qed.

Lemma pieces_set_set (ps ps' : list (list Z)) (c t x y : Z) :
  pieces_set ps c t x = Some ps' -> pieces_set ps' c t y = pieces_set ps c t y.
Proof.
  intros (row & row' & Hrow & Hset & Hps)%pieces_set_inv.
  unfold pieces_set. rewrite (array_get_set_eq _ _ _ _ Hps), Hrow. simpl.
  rewrite (array_set_set _ _ _ _ _ Hset).
  destruct (array_set row t y) as [row''|]; simpl; [|reflexivity].
  eapply array_set_set; eauto.
Qed.

Lemma pieces_set_id (ps : list (list Z)) (c t x : Z) :
  pieces_get ps c t = Some x -> pieces_set ps c t x = Some ps.
Proof.
  unfold pieces_get, pieces_set. intros H.
  destruct (array_get ps c) as [row|] eqn:Hrow; [|discriminate]. simpl in *.
  rewrite (array_set_id _ _ _ H). simpl. by apply array_set_id.
Qed.

Lemma pieces_set_Some (ps : list (list Z)) (c t x y : Z) :
  pieces_get ps c t = Some x -> exists ps', pieces_set ps c t y = Some ps'.
Proof.
  unfold pieces_get, pieces_set. intros H.
  destruct (array_get ps c) as [row|] eqn:Hrow; [|discriminate]. simpl in *.
  apply array_get_inv in H as [Ht _]. apply array_get_inv in Hrow as [Hc _].
  rewrite array_set_Some by lia. simpl.
  rewrite array_set_Some by lia. eauto.
Qed.

(** ** Finite checks by enumeration *)

Lemma Zrange_forallb (P : Z -> bool) (lo : Z) (n : nat) :
  forallb P (Zrange lo n) = true ->
  forall z, lo <= z < lo + Z.of_nat n -> P z = true.
Proof.
  intros H z Hz. rewrite forallb_forall in H. apply H.
  unfold Zrange. apply in_map_iff. exists (Z.to_nat (z - lo)). split; [lia|].
  apply in_seq. lia.
Qed.

Lemma validSquare_values (s : Z) :
  validSquare s = true <-> In s Square.values.
Proof.
  split.
  - intros H.
    assert (Hr : 0 <= s < 0 + Z.of_nat 128).
    { unfold validSquare, Square.VALUES_LENGTH in H. lia. }
    pose proof (Zrange_forallb
      (fun z => implb (validSquare z) (existsb (Z.eqb z) Square.values)) 0 128
      ltac:(vm_compute; reflexivity) s Hr) as Hex.
    cbv beta in Hex. rewrite H in Hex.
    change (existsb (Z.eqb s) Square.values = true) in Hex.
    apply existsb_exists in Hex as (x & Hx & Heq).
    apply Z.eqb_eq in Heq. by subst.
  - intros H.
    assert (Hall : forallb validSquare Square.values = true) by (vm_compute; reflexivity).
    rewrite forallb_forall in Hall. by apply Hall.
Qed.

Lemma validSquare_range (s : Z) : validSquare s = true -> 0 <= s < 128.
Proof. unfold validSquare, Square.VALUES_LENGTH. lia. Qed.

Lemma toBitSquare_range (s : Z) :
  validSquare s = true -> 0 <= bitboard.toBitSquare s < 64.
Proof.
  intros H%validSquare_values.
  assert (Hall : forallb (fun z => (0 <=? bitboard.toBitSquare z)
                                   && (bitboard.toBitSquare z <? 64))
                   Square.values = true) by (vm_compute; reflexivity).
  rewrite forallb_forall in Hall. specialize (Hall _ H). lia.
Qed.

Lemma toBitSquare_inj (s s' : Z) :
  validSquare s = true -> validSquare s' = true ->
  bitboard.toBitSquare s = bitboard.toBitSquare s' -> s = s'.
Proof.
  intros H%validSquare_values H'%validSquare_values Heq.
  assert (Hall : forallb (fun z => forallb (fun z' =>
                    implb (bitboard.toBitSquare z =? bitboard.toBitSquare z') (z =? z'))
                    Square.values) Square.values = true) by (vm_compute; reflexivity).
  rewrite forallb_forall in Hall. specialize (Hall _ H).
  rewrite forallb_forall in Hall. specialize (Hall _ H').
  apply Z.eqb_eq in Heq. rewrite Heq in Hall. simpl in Hall. by apply Z.eqb_eq.
Qed.
(** ** Occupancy sets as bits *)

Lemma u64_small (x : Z) : 0 <= x < 2 ^ 64 -> u64 x = x.
Proof. intros H. unfold u64. by apply Z.mod_small. Qed.

Lemma bit_of_square (s : Z) :
  validSquare s = true ->
  u64 (Z.shiftl 1 (bitboard.toBitSquare s)) = 2 ^ bitboard.toBitSquare s.
Proof.
  intros H%toBitSquare_range. rewrite Z.shiftl_1_l. apply u64_small.
  split; [apply Z.pow_nonneg; lia | apply Z.pow_lt_mono_r; lia].
Qed.

Lemma testbit_u64 (x i : Z) :
  0 <= i -> Z.testbit (u64 x) i = Z.testbit x i && (i <? 64).
Proof.
  intros Hi. unfold u64. destruct (Z.ltb_spec i 64).
  - rewrite Z.mod_pow2_bits_low by lia. by rewrite andb_true_r.
  - rewrite Z.mod_pow2_bits_high by lia. by rewrite andb_false_r.
Qed.

Lemma testbit_bitboard_high (bb i : Z) :
  bitboard_ok bb = true -> 64 <= i -> Z.testbit bb i = false.
Proof.
  intros Hbb Hi. unfold bitboard_ok in Hbb.
  rewrite <- (u64_small bb) by lia. rewrite testbit_u64 by lia.
  destruct (Z.ltb_spec i 64); [lia|]. by rewrite andb_false_r.
Qed.

Lemma bitboard_ok_bits (bb : Z) :
  0 <= bb -> (forall i, 64 <= i -> Z.testbit bb i = false) -> bitboard_ok bb = true.
Proof.
  intros Hnn Hhigh. unfold bitboard_ok.
  assert (u64 bb = bb) as Heq.
  { apply Z.bits_inj'. intros i Hi. rewrite testbit_u64 by lia.
    destruct (Z.ltb_spec i 64); [by rewrite andb_true_r|].
    rewrite Hhigh by lia. reflexivity. }
  pose proof (Z.mod_pos_bound bb (2 ^ 64) ltac:(lia)) as Hb.
  unfold u64 in Heq. rewrite Heq in Hb. lia.
Qed.

Lemma testbit_add (s bb i : Z) :
  validSquare s = true -> 0 <= i ->
  Z.testbit (bitboard.add s bb) i = Z.testbit bb i || (i =? bitboard.toBitSquare s).
Proof.
  intros Hs Hi. unfold bitboard.add. rewrite bit_of_square by done.
  rewrite Z.lor_spec, Z.pow2_bits_eqb by (apply toBitSquare_range in Hs; lia).
  by rewrite (Z.eqb_sym i).
Qed.

Lemma testbit_remove (s bb i : Z) :
  validSquare s = true -> 0 <= i ->
  Z.testbit (bitboard.remove s bb) i
  = Z.testbit bb i && negb (i =? bitboard.toBitSquare s) && (i <? 64).
Proof.
  intros Hs Hi. unfold bitboard.remove. rewrite bit_of_square by done.
  rewrite Z.land_spec, testbit_u64, Z.lnot_spec by lia.
  rewrite Z.pow2_bits_eqb by (apply toBitSquare_range in Hs; lia).
  rewrite (Z.eqb_sym i). by rewrite andb_assoc.
Qed.

Lemma bitboard_add_ok (s bb : Z) :
  validSquare s = true -> bitboard_ok bb = true -> bitboard_ok (bitboard.add s bb) = true.
Proof.
  intros Hs Hbb. apply bitboard_ok_bits.
  - unfold bitboard.add. rewrite bit_of_square by done.
    apply Z.lor_nonneg. unfold bitboard_ok in Hbb.
    split; [lia | apply Z.pow_nonneg; lia].
  - intros i Hi. rewrite testbit_add by (done || lia).
    rewrite (testbit_bitboard_high bb) by done.
    apply toBitSquare_range in Hs. simpl. lia.
Qed.

Lemma bitboard_remove_ok (s bb : Z) :
  validSquare s = true -> bitboard_ok bb = true -> bitboard_ok (bitboard.remove s bb) = true.
Proof.
  intros Hs Hbb. apply bitboard_ok_bits.
  - unfold bitboard.remove. apply Z.land_nonneg. left.
    unfold bitboard_ok in Hbb. lia.
  - intros i Hi. rewrite testbit_remove by (done || lia).
    destruct (Z.ltb_spec i 64); [lia|]. by rewrite andb_false_r.
Qed.

Lemma bitboard_remove_add (s bb : Z) :
  validSquare s = true -> bitboard_ok bb = true -> bitboard.mem s bb = false ->
  bitboard.remove s (bitboard.add s bb) = bb.
Proof.
  intros Hs Hbb Hmem. unfold bitboard.mem in Hmem.
  apply Z.bits_inj'. intros i Hi.
  rewrite testbit_remove, testbit_add by done.
  destruct (Z.eqb_spec i (bitboard.toBitSquare s)) as [->|Hne].
  - rewrite Hmem. reflexivity.
  - simpl. rewrite orb_false_r, andb_true_r.
    destruct (Z.ltb_spec i 64); [by rewrite andb_true_r|].
    rewrite (testbit_bitboard_high bb) by done. reflexivity.
Qed.

Lemma bitboard_add_remove (s bb : Z) :
  validSquare s = true -> bitboard_ok bb = true -> bitboard.mem s bb = true ->
  bitboard.add s (bitboard.remove s bb) = bb.
Proof.
  intros Hs Hbb Hmem. unfold bitboard.mem in Hmem.
  apply Z.bits_inj'. intros i Hi.
  rewrite testbit_add, testbit_remove by done.
  destruct (Z.eqb_spec i (bitboard.toBitSquare s)) as [->|Hne].
  - rewrite Hmem. by rewrite orb_true_r.
  - simpl. rewrite orb_false_r, andb_true_r.
    destruct (Z.ltb_spec i 64); [by rewrite andb_true_r|].
    rewrite andb_false_r. by rewrite (testbit_bitboard_high bb).
Qed.

(** ** The data-model invariant, as a proposition *)

Lemma pack_div (c t : Z) : 0 <= t < 6 -> (c * 6 + t) / 6 = c.
Proof. intros H. symmetry. apply Z.div_unique with t; lia. Qed.

Lemma pack_mod (c t : Z) : 0 <= t < 6 -> (c * 6 + t) mod 6 = t.
Proof. intros H. symmetry. apply Z.mod_unique with c; lia. Qed.

Lemma board_ok_inv (p : Position) : board_ok p = true -> Inv p.
Proof.
  unfold board_ok, shape_ok, occupancy_ok.
  rewrite !andb_true_iff, !forallb_forall.
  intros [[[[Hb Hp] Hrows] Hm] Hocc].
  apply Nat.eqb_eq in Hb, Hp, Hm.
  split; [done | split; [done |]].
  intros c t Hc Ht.
  destruct (array_get_Some (pieces p) c ltac:(lia)) as [row Hrow].
  assert (Hin : In row (pieces p)).
  { apply array_get_inv in Hrow as [_ Hrow].
    apply list_elem_of_In. eapply list_elem_of_lookup_2; eauto. }
  specialize (Hrows _ Hin). apply andb_true_iff in Hrows as [Hlen Hbbs].
  apply Nat.eqb_eq in Hlen. rewrite forallb_forall in Hbbs.
  destruct (array_get_Some row t ltac:(lia)) as [bb Hbb].
  assert (Hget : pieces_get (pieces p) c t = Some bb).
  { unfold pieces_get. rewrite Hrow. exact Hbb. }
  exists bb. split; [done | split].
  - apply Hbbs. apply array_get_inv in Hbb as [_ Hbb].
    apply list_elem_of_In. eapply list_elem_of_lookup_2; eauto.
  - intros s Hs. apply validSquare_values in Hs.
    specialize (Hocc _ Hs). rewrite forallb_forall in Hocc.
    assert (Hpc : In (c * 6 + t) piece_values).
    { unfold piece_values. apply in_map_iff. exists (Z.to_nat (c * 6 + t)).
      split; [lia | apply in_seq; lia]. }
    specialize (Hocc _ Hpc).
    rewrite pack_div, pack_mod in Hocc by lia.
    rewrite Hget in Hocc.
    destruct (array_get (board p) s) as [x|]; [|discriminate].
    exists x. split; [done|]. by apply eqb_prop.
Qed.

Lemma position_ok_inv (p : Position) :
  position_ok p = true ->
  Inv p /\ color.isValid (activeColor p) = true
  /\ 0 <= statesSize p <= Z.of_nat (length (states p)).
Proof.
  unfold position_ok. rewrite !andb_true_iff.
  intros [[[Hb Hcol] Hs0] Hs1]. split; [by apply board_ok_inv | split; [done | lia]].
Qed.

Lemma piece_unpack (pc : Z) :
  piece.isValid pc = true ->
  piece.getType pc = Some (pc mod 6) /\ piece.getColor pc = Some (pc / 6)
  /\ 0 <= pc / 6 < 2 /\ 0 <= pc mod 6 < 6 /\ pc = pc / 6 * 6 + pc mod 6.
Proof.
  intros H. unfold piece.getType, piece.getColor. rewrite H.
  unfold piece.isValid, piece.NOPIECE in H.
  assert (0 <= pc < 12) as Hr by lia.
  repeat split; try (apply Z.div_pos; lia); try (apply Z.mod_pos_bound; lia).
  - apply Z.div_lt_upper_bound; lia.
  - rewrite Z.mul_comm. apply Z.div_mod. lia.
Qed.

Lemma position_eta (p : Position) :
  mkPosition (board p) (pieces p) (material p) (castlingRights p) (enPassantSquare p)
    (activeColor p) (halfmoveClock p) (zobristKey p) (halfmoveNumber p)
    (states p) (statesSize p) = p.
Proof. by destruct p. Qed.

Lemma lxor_cancel (h z : Z) : Z.lxor (Z.lxor h z) z = h.
Proof. by rewrite Z.lxor_assoc, Z.lxor_nilpotent, Z.lxor_0_r. Qed.

Section PutRemove.

Variable zobrist : Zobrist.t.
Variable PieceType_getValue : Z -> Z.

(** Putting a piece on an empty playable square succeeds, keeps the
    invariant, and is undone exactly by removing it again. *)
Lemma put_spec (p : Position) (pc s : Z) :
  Inv p -> piece.isValid pc = true -> validSquare s = true ->
  array_get (board p) s = Some piece.NOPIECE ->
  exists p', put zobrist PieceType_getValue pc s p = Some p'
             /\ remove zobrist PieceType_getValue s p' = Some (pc, p)
             /\ Inv p' /\ array_set (board p) s pc = Some (board p').
Proof.
  intros (Hb & Hm & Hps) Hpc Hs Hempty.
  destruct (piece_unpack pc Hpc) as (Hty & Hco & Hc & Ht & Hpack).
  pose proof (validSquare_range s Hs) as Hsr.
  destruct (Hps _ _ Hc Ht) as (bb & Hbb & Hbbok & Hocc).
  destruct (Hocc s Hs) as (x & Hx & Hmem).
  rewrite Hempty in Hx. injection Hx as <-.
  assert (Hmem' : bitboard.mem s bb = false).
  { rewrite Hmem. apply Z.eqb_neq. unfold piece.isValid in Hpc. lia. }
  destruct (pieces_set_Some _ _ _ _ (bitboard.add s bb) Hbb) as [ps' Hps'].
  destruct (array_get_Some (material p) (pc / 6) ltac:(lia)) as [m Hget].
  pose proof (array_set_Some (board p) s pc ltac:(lia)) as Hbset.
  pose proof (array_set_Some (material p) (pc / 6) (m + PieceType_getValue (pc mod 6))
                ltac:(lia)) as Hmset.
  eexists. split; [|split; [|split]].
  - unfold put. rewrite Hty, Hco. simpl.
    rewrite Hbset. simpl. rewrite Hbb. simpl. rewrite Hps'. simpl.
    rewrite Hget. simpl. rewrite Hmset. simpl. reflexivity.
  - unfold remove. simpl.
    rewrite (array_get_set_eq _ _ _ _ Hbset). simpl. rewrite Hty, Hco. simpl.
    rewrite (array_set_set _ _ _ _ _ Hbset), (array_set_id _ _ _ Hempty). simpl.
    rewrite (pieces_get_set_eq _ _ _ _ _ Hps'). simpl.
    rewrite (pieces_set_set _ _ _ _ _ _ Hps'), (bitboard_remove_add _ _ Hs Hbbok Hmem').
    rewrite (pieces_set_id _ _ _ _ Hbb). simpl.
    rewrite (array_get_set_eq _ _ _ _ Hmset). simpl.
    rewrite (array_set_set _ _ _ _ _ Hmset).
    replace (m + PieceType_getValue (pc mod 6) - PieceType_getValue (pc mod 6)) with m by lia.
    rewrite (array_set_id _ _ _ Hget). simpl.
    cbv [xor_zobristKey set_zobristKey set_material set_pieces set_board
         board pieces material castlingRights enPassantSquare activeColor
         halfmoveClock zobristKey halfmoveNumber states statesSize].
    rewrite lxor_cancel. destruct p; reflexivity.
  - unfold Inv. simpl. split; [by rewrite length_insert | split; [by rewrite length_insert|]].
    intros c t Hc' Ht'.
    destruct (Hps _ _ Hc' Ht') as (bb' & Hbb' & Hbbok' & Hocc').
    destruct (decide ((pc / 6, pc mod 6) = (c, t))) as [[= <- <-]|Hne].
    + exists (bitboard.add s bb). split; [by eapply pieces_get_set_eq|].
      split; [by apply bitboard_add_ok|].
      intros s' Hs'. destruct (Z.eq_dec s s') as [<-|Hss].
      * exists pc. split; [by eapply array_get_set_eq|].
        unfold bitboard.mem. rewrite testbit_add by (done || apply toBitSquare_range in Hs; lia).
        rewrite Z.eqb_refl, orb_true_r. symmetry. apply Z.eqb_eq. lia.
      * destruct (Hocc s' Hs') as (x & Hx & Hmemx).
        exists x. split; [by rewrite (array_get_set_ne _ _ _ _ _ Hbset Hss)|].
        unfold bitboard.mem in *.
        rewrite testbit_add by (done || apply toBitSquare_range in Hs'; lia).
        rewrite Hmemx.
        destruct (Z.eqb_spec (bitboard.toBitSquare s') (bitboard.toBitSquare s)) as [Heq|_].
        -- apply toBitSquare_inj in Heq; congruence.
        -- by rewrite orb_false_r.
    + exists bb'. split; [by rewrite (pieces_get_set_ne _ _ _ _ _ _ _ Hps' Hne)|].
      split; [done|].
      intros s' Hs'. destruct (Hocc' s' Hs') as (x & Hx & Hmemx).
      destruct (Z.eq_dec s s') as [<-|Hss].
      * exists pc. split; [by eapply array_get_set_eq|].
        rewrite Hmemx. rewrite Hempty in Hx. injection Hx as <-.
        assert (pc <> c * 6 + t).
        { intros Heq. apply Hne. rewrite Heq. by rewrite pack_div, pack_mod by lia. }
        transitivity false; [|symmetry]; apply Z.eqb_neq; [|done].
        unfold piece.NOPIECE. lia.
      * exists x. split; [by rewrite (array_get_set_ne _ _ _ _ _ Hbset Hss)|done].
  - simpl. exact Hbset.
Qed.

(** Removing a piece from a playable square succeeds, keeps the
    invariant, and is undone exactly by putting the piece back. *)
Lemma remove_spec (p : Position) (pc s : Z) :
  Inv p -> piece.isValid pc = true -> validSquare s = true ->
  array_get (board p) s = Some pc ->
  exists p', remove zobrist PieceType_getValue s p = Some (pc, p')
             /\ put zobrist PieceType_getValue pc s p' = Some p
             /\ Inv p' /\ array_set (board p) s piece.NOPIECE = Some (board p').
Proof.
  intros (Hb & Hm & Hps) Hpc Hs Hfull.
  destruct (piece_unpack pc Hpc) as (Hty & Hco & Hc & Ht & Hpack).
  pose proof (validSquare_range s Hs) as Hsr.
  destruct (Hps _ _ Hc Ht) as (bb & Hbb & Hbbok & Hocc).
  destruct (Hocc s Hs) as (x & Hx & Hmem).
  rewrite Hfull in Hx. injection Hx as <-.
  assert (Hmem' : bitboard.mem s bb = true).
  { rewrite Hmem. apply Z.eqb_eq. lia. }
  destruct (pieces_set_Some _ _ _ _ (bitboard.remove s bb) Hbb) as [ps' Hps'].
  destruct (array_get_Some (material p) (pc / 6) ltac:(lia)) as [m Hget].
  pose proof (array_set_Some (board p) s piece.NOPIECE ltac:(lia)) as Hbset.
  pose proof (array_set_Some (material p) (pc / 6) (m - PieceType_getValue (pc mod 6))
                ltac:(lia)) as Hmset.
  eexists. split; [|split; [|split]].
  - unfold remove. rewrite Hfull. simpl. rewrite Hty, Hco. simpl.
    rewrite Hbset. simpl. rewrite Hbb. simpl. rewrite Hps'. simpl.
    rewrite Hget. simpl. rewrite Hmset. simpl. reflexivity.
  - unfold put. simpl. rewrite Hty, Hco. simpl.
    rewrite (array_set_set _ _ _ _ _ Hbset), (array_set_id _ _ _ Hfull). simpl.
    rewrite (pieces_get_set_eq _ _ _ _ _ Hps'). simpl.
    rewrite (pieces_set_set _ _ _ _ _ _ Hps'), (bitboard_add_remove _ _ Hs Hbbok Hmem').
    rewrite (pieces_set_id _ _ _ _ Hbb). simpl.
    rewrite (array_get_set_eq _ _ _ _ Hmset). simpl.
    rewrite (array_set_set _ _ _ _ _ Hmset).
    replace (m - PieceType_getValue (pc mod 6) + PieceType_getValue (pc mod 6)) with m by lia.
    rewrite (array_set_id _ _ _ Hget). simpl.
    cbv [xor_zobristKey set_zobristKey set_material set_pieces set_board
         board pieces material castlingRights enPassantSquare activeColor
         halfmoveClock zobristKey halfmoveNumber states statesSize].
    rewrite lxor_cancel. destruct p; reflexivity.
  - unfold Inv. simpl. split; [by rewrite length_insert | split; [by rewrite length_insert|]].
    intros c t Hc' Ht'.
    destruct (Hps _ _ Hc' Ht') as (bb' & Hbb' & Hbbok' & Hocc').
    assert (Hno : (piece.NOPIECE =? c * 6 + t) = false).
    { apply Z.eqb_neq. unfold piece.NOPIECE. lia. }
    destruct (decide ((pc / 6, pc mod 6) = (c, t))) as [[= <- <-]|Hne].
    + exists (bitboard.remove s bb). split; [by eapply pieces_get_set_eq|].
      split; [by apply bitboard_remove_ok|].
      intros s' Hs'. pose proof (toBitSquare_range s' Hs') as Hr'.
      destruct (Z.eq_dec s s') as [<-|Hss].
      * exists piece.NOPIECE. split; [by eapply array_get_set_eq|].
        unfold bitboard.mem. rewrite testbit_remove by (done || lia).
        rewrite Z.eqb_refl, Hno. simpl. by rewrite andb_false_r.
      * destruct (Hocc s' Hs') as (x & Hx & Hmemx).
        exists x. split; [by rewrite (array_get_set_ne _ _ _ _ _ Hbset Hss)|].
        unfold bitboard.mem in *. rewrite testbit_remove by (done || lia).
        rewrite Hmemx.
        destruct (Z.eqb_spec (bitboard.toBitSquare s') (bitboard.toBitSquare s)) as [Heq|_].
        -- apply toBitSquare_inj in Heq; congruence.
        -- destruct (Z.ltb_spec (bitboard.toBitSquare s') 64); [|lia].
           simpl. by rewrite !andb_true_r.
    + exists bb'. split; [by rewrite (pieces_get_set_ne _ _ _ _ _ _ _ Hps' Hne)|].
      split; [done|].
      intros s' Hs'. destruct (Hocc' s' Hs') as (x & Hx & Hmemx).
      destruct (Z.eq_dec s s') as [<-|Hss].
      * exists piece.NOPIECE. split; [by eapply array_get_set_eq|].
        rewrite Hmemx. rewrite Hfull in Hx. injection Hx as <-.
        assert (pc <> c * 6 + t).
        { intros Heq. apply Hne. rewrite Heq. by rewrite pack_div, pack_mod by lia. }
        rewrite Hno. by apply Z.eqb_neq.
      * exists x. split; [by rewrite (array_get_set_ne _ _ _ _ _ Hbset Hss)|done].
  - simpl. exact Hbset.
Qed.

End PutRemove.
(** ** C3: put followed by remove *)

Section PutRemoveIdentity.

Variable zobrist : Zobrist.t.
Variable PieceType_getValue : Z -> Z.

Lemma put_zobristKey (p p' : Position) (pc s : Z) :
  put zobrist PieceType_getValue pc s p = Some p' ->
  zobristKey p' = Z.lxor (zobristKey p) (Zobrist.board zobrist pc s).
Proof.
  unfold put. intros H.
  repeat (match type of H with
          | context [mbind _ ?x] => destruct x; simpl in H; [|discriminate]
          end).
  by injection H as <-.
Qed.

Lemma remove_zobristKey (p p' : Position) (pc s : Z) :
  remove zobrist PieceType_getValue s p = Some (pc, p') ->
  zobristKey p' = Z.lxor (zobristKey p) (Zobrist.board zobrist pc s).
Proof.
  unfold remove. intros H.
  repeat (match type of H with
          | context [mbind _ ?x] => destruct x; simpl in H; [|discriminate]
          end).
  by injection H as <- <-.
Qed.

(** C3.  On a position whose board array and occupancy sets agree, for a
    piece [pc] and a playable square [s] that is empty, [put pc s]
    succeeds and [remove s] right after it returns [pc] and the very
    position the pair started from, every field included; both
    exclusive-or the hash with the same table entry. *)
Theorem put_remove_identity (p : Position) (pc s : Z) :
  board_ok p = true ->
  piece.isValid pc = true ->
  validSquare s = true ->
  array_get (board p) s = Some piece.NOPIECE ->
  exists p',
    put zobrist PieceType_getValue pc s p = Some p'
    /\ remove zobrist PieceType_getValue s p' = Some (pc, p)
    /\ zobristKey p' = Z.lxor (zobristKey p) (Zobrist.board zobrist pc s)
    /\ zobristKey p = Z.lxor (zobristKey p') (Zobrist.board zobrist pc s).
Proof.
  intros Hok Hpc Hs Hempty.
  apply board_ok_inv in Hok as Hinv.
  destruct (put_spec zobrist PieceType_getValue p pc s Hinv Hpc Hs Hempty)
    as (p' & Hput & Hrem & _ & _).
  exists p'. split; [done | split; [done | split]].
  - by eapply put_zobristKey.
  - by eapply remove_zobristKey.
Qed.

End PutRemoveIdentity.

Lemma put_remove_identity_witness :
  exists p',
    put sample_zobrist sample_getValue piece.WHITE_KING Square.e1 (Position_new 4) = Some p'
    /\ remove sample_zobrist sample_getValue Square.e1 p'
       = Some (piece.WHITE_KING, Position_new 4)
    /\ zobristKey p'
       = Z.lxor (zobristKey (Position_new 4))
           (Zobrist.board sample_zobrist piece.WHITE_KING Square.e1)
    /\ zobristKey (Position_new 4)
       = Z.lxor (zobristKey p') (Zobrist.board sample_zobrist piece.WHITE_KING Square.e1).
Proof.
  apply (put_remove_identity sample_zobrist sample_getValue (Position_new 4)
           piece.WHITE_KING Square.e1); vm_compute; reflexivity.
Defined.

(** ** C10: setting a castling right twice *)

Lemma land_flag (r c : Z) :
  castling.isFlag c = true -> Z.land r c = c \/ Z.land r c = 0.
Proof.
  unfold castling.isFlag, castling.WHITE_KINGSIDE, castling.WHITE_QUEENSIDE,
    castling.BLACK_KINGSIDE, castling.BLACK_QUEENSIDE.
  intros H.
  assert (exists k, 0 <= k /\ c = 2 ^ k) as (k & Hk & ->).
  { assert (c = 1 \/ c = 2 \/ c = 4 \/ c = 8) as [->|[->|[->| ->]]] by lia;
      [exists 0 | exists 1 | exists 2 | exists 3]; split; (lia || reflexivity). }
  destruct (Z.testbit r k) eqn:Hbit; [left | right];
    apply Z.bits_inj'; intros i Hi;
    rewrite Z.land_spec, ?Z.bits_0, Z.pow2_bits_eqb by lia;
    destruct (Z.eqb_spec k i) as [<-|]; rewrite ?Hbit, ?andb_false_r; reflexivity.
Qed.

(** C10.  For a single castling flag: when the rights already contain
    it, [setCastlingRight] returns the position unchanged, rights and
    hash included; the hash is exclusive-ored with the flag's table
    entry (and the flag added to the rights) exactly when the flag was
    absent before. *)
Theorem setCastlingRight_idempotent (zobrist : Zobrist.t) (p : Position) (c : Z) :
  castling.isFlag c = true ->
  (Z.land (castlingRights p) c = c -> setCastlingRight zobrist c p = p)
  /\ (Z.land (castlingRights p) c <> c ->
      Z.land (castlingRights p) c = castling.NOCASTLING
      /\ castlingRights (setCastlingRight zobrist c p) = Z.lor (castlingRights p) c
      /\ zobristKey (setCastlingRight zobrist c p)
         = Z.lxor (zobristKey p) (Zobrist.castlingRights zobrist c))
  /\ setCastlingRight zobrist c (setCastlingRight zobrist c p)
     = setCastlingRight zobrist c p.
Proof.
  intros Hflag.
  assert (Hpos : c <> 0).
  { unfold castling.isFlag, castling.WHITE_KINGSIDE, castling.WHITE_QUEENSIDE,
      castling.BLACK_KINGSIDE, castling.BLACK_QUEENSIDE in Hflag. lia. }
  assert (Hin : forall q, Z.land (castlingRights q) c = c -> setCastlingRight zobrist c q = q).
  { intros q Hq. unfold setCastlingRight, castling.NOCASTLING. rewrite Hq.
    destruct (Z.eqb_spec c 0); [done | reflexivity]. }
  split; [apply Hin | split].
  - intros Hne. destruct (land_flag (castlingRights p) c Hflag) as [|H0]; [done|].
    split; [exact H0|].
    unfold setCastlingRight, castling.NOCASTLING. rewrite H0. simpl. done.
  - destruct (land_flag (castlingRights p) c Hflag) as [Hc|H0].
    + by rewrite !(Hin p Hc).
    + apply Hin. unfold setCastlingRight, castling.NOCASTLING. rewrite H0. simpl.
      rewrite Z.land_lor_distr_l, H0, Z.land_diag. apply Z.lor_0_l.
Qed.

Lemma setCastlingRight_idempotent_witness :
  let p := setCastlingRight sample_zobrist castling.WHITE_KINGSIDE (Position_new 4) in
  castling.isFlag castling.WHITE_KINGSIDE = true
  /\ Z.land (castlingRights p) castling.WHITE_KINGSIDE = castling.WHITE_KINGSIDE
  /\ setCastlingRight sample_zobrist castling.WHITE_KINGSIDE p = p.
Proof.
  split; [reflexivity | split; [reflexivity|]].
  apply (setCastlingRight_idempotent sample_zobrist
           (setCastlingRight sample_zobrist castling.WHITE_KINGSIDE (Position_new 4))
           castling.WHITE_KINGSIDE); reflexivity.
Defined.
(** ** The primitives touch only board, occupancy sets, material and hash *)

Lemma with_core_self (p : Position) : with_core p p = p.
Proof. by destruct p. Qed.

Section Frame.

Variable zobrist : Zobrist.t.
Variable PieceType_getValue : Z -> Z.

Lemma put_with_core (q p : Position) (pc s : Z) :
  put zobrist PieceType_getValue pc s (with_core q p)
  = p' ← put zobrist PieceType_getValue pc s p;
    Some (with_core (xor_zobristKey (Zobrist.board zobrist pc s) q) p').
Proof.
  unfold put. cbn [with_core board pieces material].
  repeat (match goal with
          | |- context [mbind _ ?x] => destruct x; simpl; [|reflexivity]
          end).
  reflexivity.
Qed.

Lemma remove_with_core (q p : Position) (s : Z) :
  remove zobrist PieceType_getValue s (with_core q p)
  = r ← remove zobrist PieceType_getValue s p;
    Some (r.1, with_core (xor_zobristKey (Zobrist.board zobrist r.1 s) q) r.2).
Proof.
  unfold remove. cbn [with_core board pieces material].
  repeat (match goal with
          | |- context [mbind _ ?x] => destruct x; simpl; [|reflexivity]
          end).
  reflexivity.
Qed.

Lemma clearCastling_with_core (q p : Position) (s : Z) :
  clearCastling zobrist s (with_core q p) = with_core (clearCastling zobrist s q) p.
Proof.
  unfold clearCastling. cbn [with_core castlingRights].
  destruct (clearCastling_mask s (castlingRights q)) as [n|]; [|reflexivity].
  destruct (negb (n =? castlingRights q)); reflexivity.
Qed.

(** [clearCastling] changes the rights and the hash only. *)
Lemma clearCastling_frame (q : Position) (s : Z) :
  exists c h, clearCastling zobrist s q = set_zobristKey h (set_castlingRights c q).
Proof.
  unfold clearCastling.
  destruct (clearCastling_mask s (castlingRights q)) as [n|].
  - destruct (negb (n =? castlingRights q)).
    + eexists _, _. reflexivity.
    + exists (castlingRights q), (zobristKey q). by destruct q.
  - exists (castlingRights q), (zobristKey q). by destruct q.
Qed.

End Frame.
(** ** The squares a move touches *)

Lemma pieceAt_get (p : Position) (s : Z) :
  Inv p -> validSquare s = true -> array_get (board p) s = Some (pieceAt p s).
Proof.
  intros (Hb & _ & _) Hs. apply validSquare_range in Hs.
  destruct (array_get_Some (board p) s ltac:(lia)) as [x Hx].
  unfold pieceAt. by rewrite Hx.
Qed.

Lemma castlingRookSquares_inv (t rO rT : Z) :
  castlingRookSquares t = Some (rO, rT) ->
  validSquare rO = true /\ validSquare rT = true /\ rO <> rT /\ rO <> t /\ rT <> t.
Proof.
  unfold castlingRookSquares.
  repeat (match goal with
          | |- context [?a =? ?b] => destruct (Z.eqb_spec a b) as [->|?]
          end);
    intros [= <- <-] || discriminate; repeat split; (reflexivity || discriminate).
Qed.

Section CorePath.

Variable zobrist : Zobrist.t.
Variable PieceType_getValue : Z -> Z.

(** The puts and removes of [makeMove] on the board, occupancy sets and
    material of a well-formed position, each paired with the call of
    [undoMove] that reverts it. *)
Lemma core_path (p : Position) (m : move.t) :
  Inv p -> move_ok p m = true ->
  let type := move.getType m in
  let o := move.getOriginSquare m in
  let t := move.getTargetSquare m in
  let op := move.getOriginPiece m in
  let tp := move.getTargetPiece m in
  let cap := captureSquareOf type t (op / 6) in
  exists X1 X2 X3 X4,
    (if tp =? piece.NOPIECE then X1 = p
     else remove zobrist PieceType_getValue cap p = Some (tp, X1)
          /\ put zobrist PieceType_getValue tp cap X1 = Some p)
    /\ remove zobrist PieceType_getValue o X1 = Some (op, X2)
    /\ put zobrist PieceType_getValue op o X2 = Some X1
    /\ ((type =? movetype.PAWNPROMOTION) = true ->
        piece.valueOf (op / 6) (move.getPromotion m) = Some (placedPiece m))
    /\ put zobrist PieceType_getValue (placedPiece m) t X2 = Some X3
    /\ remove zobrist PieceType_getValue t X3 = Some (placedPiece m, X2)
    /\ (if type =? movetype.CASTLING then
          exists rO rT rook Xr,
            castlingRookSquares t = Some (rO, rT)
            /\ remove zobrist PieceType_getValue rO X3 = Some (rook, Xr)
            /\ put zobrist PieceType_getValue rook rO Xr = Some X3
            /\ put zobrist PieceType_getValue rook rT Xr = Some X4
            /\ remove zobrist PieceType_getValue rT X4 = Some (rook, Xr)
        else X4 = X3).
Proof.
  intros Hinv Hok type o t op tp cap.
  unfold move_ok in Hok. fold type o t op tp cap in Hok.
  rewrite !andb_true_iff in Hok.
  destruct Hok as [[[[[[[Hroom Ho] Ht] Hop] Hat] Hcapture] Hpromo] Hcastle].
  apply Z.eqb_eq in Hat.
  pose proof (pieceAt_get p o Hinv Ho) as Hgo. rewrite Hat in Hgo.
  pose proof (pieceAt_get p t Hinv Ht) as Hgt.
  (* the capture *)
  assert (exists X1, Inv X1
            /\ (if tp =? piece.NOPIECE then X1 = p
                else remove zobrist PieceType_getValue cap p = Some (tp, X1)
                     /\ put zobrist PieceType_getValue tp cap X1 = Some p)
            /\ array_get (board X1) o = Some op
            /\ (t = o \/ array_get (board X1) t = Some piece.NOPIECE))
    as (X1 & Hinv1 & Hstep1 & Hgo1 & Hgt1).
  { destruct (Z.eqb_spec tp piece.NOPIECE) as [Htp|Htp].
    - exists p. split; [done | split; [done | split; [done|]]].
      apply orb_true_iff in Hcapture as [Hto%Z.eqb_eq | Hc%Z.eqb_eq]; [by left | right].
      by rewrite Hgt, Hc.
    - rewrite !andb_true_iff in Hcapture.
      destruct Hcapture as [[[[Htpv Hcapv] Hcapo] Hatc] Htgt].
      apply Z.eqb_eq in Hatc. apply negb_true_iff, Z.eqb_neq in Hcapo.
      pose proof (pieceAt_get p cap Hinv Hcapv) as Hgc. rewrite Hatc in Hgc.
      destruct (remove_spec zobrist PieceType_getValue p tp cap Hinv Htpv Hcapv Hgc)
        as (X1 & Hrem & Hput & Hinv1 & Hb1).
      exists X1. split; [done | split; [done | split]].
      + by rewrite (array_get_set_ne _ _ _ _ _ Hb1 Hcapo).
      + rewrite !orb_true_iff in Htgt.
        destruct Htgt as [[Htc%Z.eqb_eq | Hto%Z.eqb_eq] | Hc%Z.eqb_eq]; [right | by left | right].
        * rewrite Htc. by rewrite (array_get_set_eq _ _ _ _ Hb1).
        * destruct (Z.eq_dec cap t) as [Hct|Hne].
          -- rewrite <- Hct. by rewrite (array_get_set_eq _ _ _ _ Hb1).
          -- by rewrite (array_get_set_ne _ _ _ _ _ Hb1 Hne), Hgt, Hc. }
  (* the moving piece leaves its origin *)
  destruct (remove_spec zobrist PieceType_getValue X1 op o Hinv1 Hop Ho Hgo1)
    as (X2 & Hrem2 & Hput2 & Hinv2 & Hb2).
  assert (Hgt2 : array_get (board X2) t = Some piece.NOPIECE).
  { destruct (Z.eq_dec o t) as [Hot|Hne].
    - rewrite <- Hot. by rewrite (array_get_set_eq _ _ _ _ Hb2).
    - rewrite (array_get_set_ne _ _ _ _ _ Hb2 Hne). by destruct Hgt1 as [Heq|]. }
  (* and lands on the target, possibly promoted *)
  destruct (piece_unpack op Hop) as (_ & _ & Hc & _ & _).
  assert (Hplaced : piece.isValid (placedPiece m) = true
            /\ ((type =? movetype.PAWNPROMOTION) = true ->
                piece.valueOf (op / 6) (move.getPromotion m) = Some (placedPiece m))).
  { unfold placedPiece. fold type op.
    destruct (type =? movetype.PAWNPROMOTION); [|by split].
    unfold PieceType.isValid, PieceType.NOPIECETYPE in Hpromo.
    split; [unfold piece.isValid, piece.NOPIECE; lia | intros _].
    unfold piece.valueOf, color.isValid, color.WHITE, color.BLACK,
      PieceType.isValid, PieceType.NOPIECETYPE.
    destruct ((op / 6 =? 0) || (op / 6 =? 1)) eqn:Hcol; [|lia].
    by rewrite Hpromo. }
  destruct Hplaced as [Hplv Hval].
  destruct (put_spec zobrist PieceType_getValue X2 (placedPiece m) t Hinv2 Hplv Ht Hgt2)
    as (X3 & Hput3 & Hrem3 & Hinv3 & Hb3).
  exists X1, X2, X3.
  (* the rook *)
  destruct (type =? movetype.CASTLING) eqn:Htype.
  - rewrite !andb_true_iff in Hcastle. destruct Hcastle as [Htp Hrook].
    destruct (castlingRookSquares t) as [[rO rT]|] eqn:Hsq; [|discriminate].
    destruct (castlingRookSquares_inv _ _ _ Hsq) as (HrO & HrT & Hne & HrOt & HrTt).
    rewrite !andb_true_iff in Hrook. destruct Hrook as [[[HorO HorT] Hrv] Hre].
    apply negb_true_iff, Z.eqb_neq in HorO, HorT. apply Z.eqb_eq in Hre.
    rewrite Htp in Hstep1. subst X1.
    assert (HgrO : array_get (board X3) rO = Some (pieceAt p rO)).
    { rewrite (array_get_set_ne _ _ _ _ _ Hb3) by congruence.
      rewrite (array_get_set_ne _ _ _ _ _ Hb2) by congruence.
      by apply pieceAt_get. }
    destruct (remove_spec zobrist PieceType_getValue X3 _ rO Hinv3 Hrv HrO HgrO)
      as (Xr & Hremr & Hputr & Hinvr & Hbr).
    assert (HgrT : array_get (board Xr) rT = Some piece.NOPIECE).
    { rewrite (array_get_set_ne _ _ _ _ _ Hbr) by congruence.
      rewrite (array_get_set_ne _ _ _ _ _ Hb3) by congruence.
      rewrite (array_get_set_ne _ _ _ _ _ Hb2) by congruence.
      by rewrite (pieceAt_get p rT Hinv HrT), Hre. }
    destruct (put_spec zobrist PieceType_getValue Xr _ rT Hinvr Hrv HrT HgrT)
      as (X4 & Hput4 & Hrem4 & _ & _).
    exists X4. rewrite Htp. repeat (split; [done|]).
    by exists rO, rT, (pieceAt p rO), Xr.
  - exists X3. repeat (split; [done|]). done.
Qed.

End CorePath.
(** ** The blocks of makeMove *)

Section MakeMove.

Variable zobrist : Zobrist.t.
Variable PieceType_getValue : Z -> Z.

Lemma clearCastling_frame_eq (q : Position) (s : Z) :
  frame (clearCastling zobrist s q) = frame q.
Proof. destruct (clearCastling_frame zobrist q s) as (c & h & ->). reflexivity. Qed.

Lemma put_on_core (q X X' : Position) (pc s : Z) :
  put zobrist PieceType_getValue pc s X = Some X' ->
  put zobrist PieceType_getValue pc s (with_core q X)
  = Some (with_core (xor_zobristKey (Zobrist.board zobrist pc s) q) X').
Proof. intros H. by rewrite put_with_core, H. Qed.

Lemma remove_on_core (q X X' : Position) (pc s : Z) :
  remove zobrist PieceType_getValue s X = Some (pc, X') ->
  remove zobrist PieceType_getValue s (with_core q X)
  = Some (pc, with_core (xor_zobristKey (Zobrist.board zobrist pc s) q) X').
Proof. intros H. by rewrite remove_with_core, H. Qed.

Lemma makeMove_update_with_core (m : move.t) (oc : Z) (q X : Position) :
  makeMove_update zobrist m oc (with_core q X)
  = (fun Q => with_core Q X) <$> makeMove_update zobrist m oc q.
Proof.
  unfold makeMove_update. rewrite clearCastling_with_core.
  generalize (clearCastling zobrist (move.getOriginSquare m) q). intros q'.
  cbn [with_core enPassantSquare].
  destruct (negb (enPassantSquare q' =? Square.NOSQUARE));
    destruct (move.getType m =? movetype.PAWNDOUBLE);
    cbn [with_core xor_zobristKey set_zobristKey set_enPassantSquare activeColor
         enPassantSquare];
    (destruct (color.opposite (activeColor q')); [|reflexivity]);
    (destruct (piece.getType (move.getOriginPiece m)); [|reflexivity]);
    simpl;
    destruct ((_ =? PieceType.PAWN) || _); reflexivity.
Qed.

Lemma makeMove_update_spec (m : move.t) (oc : Z) (q : Position) :
  color.isValid (activeColor q) = true ->
  piece.isValid (move.getOriginPiece m) = true ->
  exists Q, makeMove_update zobrist m oc q = Some Q
    /\ color.opposite (activeColor q) = Some (activeColor Q)
    /\ color.opposite (activeColor Q) = Some (activeColor q)
    /\ halfmoveClock Q
       = (if (move.getOriginPiece m mod 6 =? PieceType.PAWN)
             || negb (move.getTargetPiece m =? piece.NOPIECE)
          then 0 else halfmoveClock q + 1)
    /\ halfmoveNumber Q = halfmoveNumber q + 1
    /\ states Q = states q
    /\ statesSize Q = statesSize q.
Proof.
  intros Hcol Hop. unfold makeMove_update.
  destruct (piece_unpack _ Hop) as (-> & _).
  pose proof (clearCastling_frame_eq q (move.getOriginSquare m)) as Hf.
  revert Hf. generalize (clearCastling zobrist (move.getOriginSquare m) q).
  intros q' [= Hc Hk Hn Hs Hz].
  assert (exists c', color.opposite (activeColor q) = Some c'
                     /\ color.opposite c' = Some (activeColor q)) as (c' & Hc' & Hc'').
  { unfold color.isValid, color.WHITE, color.BLACK in Hcol. unfold color.opposite.
    assert (activeColor q = 0 \/ activeColor q = 1) as [-> | ->] by lia;
      eexists; split; reflexivity. }
  destruct (negb (enPassantSquare q' =? Square.NOSQUARE));
    destruct (move.getType m =? movetype.PAWNDOUBLE);
    cbn [xor_zobristKey set_zobristKey set_enPassantSquare activeColor];
    rewrite Hc, Hc'; simpl;
    destruct ((_ =? PieceType.PAWN) || _);
    eexists; (split; [reflexivity|]); simpl; rewrite ?Hk, ?Hn, ?Hs, ?Hz; done.
Qed.

End MakeMove.
(** ** makeMove followed by undoMove *)

Lemma move_ok_inv (p : Position) (m : move.t) :
  move_ok p m = true ->
  statesSize p < Z.of_nat (length (states p))
  /\ piece.isValid (move.getOriginPiece m) = true.
Proof.
  unfold move_ok. rewrite !andb_true_iff.
  intros [[[[[[[Hroom _] _] Hop] _] _] _] _]. split; [lia | done].
Qed.

Section MakeUndo.

Variable zobrist : Zobrist.t.
Variable PieceType_getValue : Z -> Z.

Lemma make_undo (p : Position) (m : move.t) :
  position_ok p = true -> move_ok p m = true ->
  exists p1 states',
    array_set (states p) (statesSize p)
      (State.make (zobristKey p) (castlingRights p) (enPassantSquare p) (halfmoveClock p))
    = Some states'
    /\ makeMove zobrist PieceType_getValue m p = Some p1
    /\ halfmoveClock p1
       = (if (move.getOriginPiece m mod 6 =? PieceType.PAWN)
             || negb (move.getTargetPiece m =? piece.NOPIECE)
          then 0 else halfmoveClock p + 1)
    /\ undoMove zobrist PieceType_getValue m p1 = Some (set_states states' p).
Proof.
  intros Hpok Hok.
  destruct (position_ok_inv p Hpok) as (Hinv & Hcol & Hss).
  destruct (move_ok_inv p m Hok) as (Hroom & Hop).
  destruct (core_path zobrist PieceType_getValue p m Hinv Hok)
    as (X1 & X2 & X3 & X4 & Hcap & Hrem2 & Hput2 & Hval & Hput3 & Hrem3 & Hrook).
  destruct (piece_unpack _ Hop) as (_ & Hgc & _).
  set (entry := State.make (zobristKey p) (castlingRights p) (enPassantSquare p)
                  (halfmoveClock p)).
  pose proof (array_set_Some (states p) (statesSize p) entry ltac:(lia)) as Hset.
  set (states' := <[Z.to_nat (statesSize p) := entry]> (states p)) in *.
  set (p0 := set_statesSize (statesSize p + 1) (set_states states' p)).
  set (oc := move.getOriginPiece m / 6) in *.
  (* makeMove, block by block *)
  assert (exists q1, makeMove_capture zobrist PieceType_getValue m oc (with_core p0 p)
                     = Some (with_core q1 X1) /\ frame q1 = frame p0)
    as (q1 & Hm1 & Hf1).
  { unfold makeMove_capture.
    destruct (move.getTargetPiece m =? piece.NOPIECE); simpl.
    - subst X1. by exists p0.
    - destruct Hcap as [Hrem _]. rewrite (remove_on_core _ _ _ _ _ _ _ Hrem). simpl.
      rewrite clearCastling_with_core. eexists. split; [reflexivity|].
      by rewrite clearCastling_frame_eq. }
  assert (exists q3, makeMove_move zobrist PieceType_getValue m oc (with_core q1 X1)
                     = Some (with_core q3 X3) /\ frame q3 = frame q1)
    as (q3 & Hm3 & Hf3).
  { unfold makeMove_move. rewrite (remove_on_core _ _ _ _ _ _ _ Hrem2). simpl.
    unfold placedPiece in Hput3, Hval.
    destruct (move.getType m =? movetype.PAWNPROMOTION).
    - rewrite (Hval eq_refl). simpl.
      rewrite (put_on_core _ _ _ _ _ _ _ Hput3). by eexists.
    - rewrite (put_on_core _ _ _ _ _ _ _ Hput3). by eexists. }
  assert (exists q4, makeMove_rook zobrist PieceType_getValue m (with_core q3 X3)
                     = Some (with_core q4 X4) /\ frame q4 = frame q3)
    as (q4 & Hm4 & Hf4).
  { unfold makeMove_rook.
    destruct (move.getType m =? movetype.CASTLING).
    - destruct Hrook as (rO & rT & rook & Xr & Hsq & Hremr & _ & Hput4 & _).
      rewrite Hsq. simpl. rewrite (remove_on_core _ _ _ _ _ _ _ Hremr). simpl.
      rewrite (put_on_core _ _ _ _ _ _ _ Hput4). by eexists.
    - subst X4. by exists q3. }
  assert (Hfr : frame q4 = frame p0) by congruence.
  injection Hfr as Hc4 Hk4 Hn4 Hs4 Hz4.
  destruct (makeMove_update_spec zobrist m oc q4 ltac:(by rewrite Hc4) Hop)
    as (Q & HQ & Hopp & Hopp' & HkQ & HnQ & HsQ & HzQ).
  exists (with_core Q X4), states'. split; [done | split; [|split]].
  - unfold makeMove, makeMove_save. fold entry. rewrite Hset. simpl.
    rewrite Hgc. simpl. fold oc. fold p0.
    replace p0 with (with_core p0 p) by (by destruct p).
    rewrite Hm1. simpl. rewrite Hm3. simpl. rewrite Hm4. simpl.
    by rewrite makeMove_update_with_core, HQ.
  - simpl. by rewrite HkQ, Hk4.
  - (* undoMove, block by block *)
    set (Q1 := set_activeColor (activeColor q4)
                 (set_halfmoveNumber (halfmoveNumber Q - 1) Q)).
    assert (Hu1 : undoMove_update (with_core Q X4) = Some (with_core Q1 X4)).
    { unfold undoMove_update. cbn [with_core set_halfmoveNumber activeColor].
      by rewrite Hopp'. }
    assert (exists Q2, undoMove_rook zobrist PieceType_getValue m (with_core Q1 X4)
                       = Some (with_core Q2 X3) /\ frame Q2 = frame Q1)
      as (Q2 & Hu2 & Hg2).
    { unfold undoMove_rook.
      destruct (move.getType m =? movetype.CASTLING).
      - destruct Hrook as (rO & rT & rook & Xr & Hsq & _ & Hputr & _ & Hrem4).
        rewrite Hsq. simpl. rewrite (remove_on_core _ _ _ _ _ _ _ Hrem4). simpl.
        rewrite (put_on_core _ _ _ _ _ _ _ Hputr). by eexists.
      - subst X4. by exists Q1. }
    assert (exists Q3, undoMove_move zobrist PieceType_getValue m (with_core Q2 X3)
                       = Some (with_core Q3 X1) /\ frame Q3 = frame Q2)
      as (Q3 & Hu3 & Hg3).
    { unfold undoMove_move. rewrite (remove_on_core _ _ _ _ _ _ _ Hrem3). simpl.
      rewrite (put_on_core _ _ _ _ _ _ _ Hput2). by eexists. }
    assert (exists Q4, undoMove_capture zobrist PieceType_getValue m oc (with_core Q3 X1)
                       = Some (with_core Q4 p) /\ frame Q4 = frame Q3)
      as (Q4 & Hu4 & Hg4).
    { unfold undoMove_capture.
      destruct (move.getTargetPiece m =? piece.NOPIECE); simpl.
      - subst X1. by exists Q3.
      - destruct Hcap as [_ Hput]. rewrite (put_on_core _ _ _ _ _ _ _ Hput). by eexists. }
    assert (Hg : frame Q4 = frame Q1) by congruence.
    injection Hg as Hc Hk Hn Hs Hz. cbn in Hc, Hk, Hn, Hs, Hz.
    unfold undoMove. rewrite Hgc. simpl. fold oc.
    rewrite Hu1. simpl. rewrite Hu2. simpl. rewrite Hu3. simpl. rewrite Hu4. simpl.
    unfold undoMove_restore. cbn [with_core set_statesSize states statesSize].
    rewrite Hz, HzQ, Hz4, Hs, HsQ, Hs4. cbn [p0 set_statesSize set_states states statesSize].
    replace (statesSize p + 1 - 1) with (statesSize p) by lia.
    rewrite (array_get_set_eq _ _ _ _ Hset). simpl.
    unfold set_zobristKey, set_castlingRights, set_enPassantSquare, set_halfmoveClock,
      set_statesSize, set_states, with_core.
    cbn [board pieces material castlingRights enPassantSquare activeColor
         halfmoveClock zobristKey halfmoveNumber states statesSize].
    rewrite Hc, Hc4, Hn, HnQ, Hn4, Hs, HsQ, Hs4.
    cbn [p0 set_statesSize set_states activeColor halfmoveNumber states].
    replace (halfmoveNumber p + 1 - 1) with (halfmoveNumber p) by lia.
    reflexivity.
Qed.

End MakeUndo.
(** ** C1: undoMove after makeMove *)

Section MakeUndoClaims.

Variable zobrist : Zobrist.t.
Variable PieceType_getValue : Z -> Z.

(** C1.  On a position that satisfies the data-model invariants, for a
    move that meets the caller discipline of [makeMove] ([move_ok]: the
    origin piece sits on the origin square, the target piece sits on
    the capture square, castling targets are canonical, and every
    square a piece is put on is empty at that moment), [makeMove]
    succeeds, [undoMove] with the same move succeeds right after it, and
    the resulting position equals the initial one in the sense of
    [operator==]: board, occupancy sets, material, castling rights,
    en-passant square, side to move, halfmove clock, hash and halfmove
    number; the history depth is back to its value as well. *)
Theorem undoMove_makeMove (p : Position) (m : move.t) :
  position_ok p = true ->
  move_ok p m = true ->
  exists p1 p2,
    makeMove zobrist PieceType_getValue m p = Some p1
    /\ undoMove zobrist PieceType_getValue m p1 = Some p2
    /\ Position_equal p2 p
    /\ statesSize p2 = statesSize p.
Proof.
  intros Hpok Hok.
  destruct (make_undo zobrist PieceType_getValue p m Hpok Hok)
    as (p1 & states' & _ & Hmake & _ & Hundo).
  exists p1, (set_states states' p).
  split; [done | split; [done | split; [|reflexivity]]].
  repeat split.
Qed.

(** C9.  Under the same preconditions [makeMove] succeeds and leaves the
    halfmove clock at zero when the origin piece is a pawn or the move
    has a target piece (a capture), and at the previous clock plus one
    otherwise.  The clock is an [int]: the increment is stated for a
    clock below the largest [int], where the sum is the value the field
    holds. *)
Theorem makeMove_halfmoveClock (p : Position) (m : move.t) :
  position_ok p = true ->
  move_ok p m = true ->
  exists p1,
    makeMove zobrist PieceType_getValue m p = Some p1
    /\ (piece.getType (move.getOriginPiece m) = Some PieceType.PAWN
        \/ move.getTargetPiece m <> piece.NOPIECE ->
        halfmoveClock p1 = 0)
    /\ (piece.getType (move.getOriginPiece m) <> Some PieceType.PAWN ->
        move.getTargetPiece m = piece.NOPIECE ->
        halfmoveClock p < 2 ^ 31 - 1 ->
        halfmoveClock p1 = halfmoveClock p + 1).
Proof.
  intros Hpok Hok.
  destruct (make_undo zobrist PieceType_getValue p m Hpok Hok)
    as (p1 & states' & _ & Hmake & Hclock & _).
  destruct (move_ok_inv p m Hok) as (_ & Hop).
  destruct (piece_unpack _ Hop) as (Hty & _).
  exists p1. split; [done|]. rewrite Hclock, Hty. split.
  - intros [[= ->] | Hne].
    + by rewrite Z.eqb_refl.
    + apply Z.eqb_neq in Hne. rewrite Hne. by rewrite orb_true_r.
  - intros Hnp -> _. rewrite Z.eqb_refl. simpl. rewrite orb_false_r.
    destruct (Z.eqb_spec (move.getOriginPiece m mod 6) PieceType.PAWN) as [Heq|]; [|done].
    by rewrite Heq in Hnp.
Qed.

End MakeUndoClaims.

(** The preconditions hold for a quiet move, a double pawn push, a
    capture, an en-passant capture, a capturing promotion and both
    castlings of positions given by their descriptions. *)
Example move_ok_examples :
  let ok fen type o t op tp promo :=
    position_ok (sample_position fen)
    && move_ok (sample_position fen) (move.valueOf type o t op tp promo) in
  ok STANDARDPOSITION movetype.NORMAL 6 37 piece.WHITE_KNIGHT piece.NOPIECE 6
  && ok STANDARDPOSITION movetype.PAWNDOUBLE 20 52 piece.WHITE_PAWN piece.NOPIECE 6
  && ok "4k3/8/8/3q4/4P3/8/8/4K3 w - - 0 1"%string
        movetype.NORMAL 52 67 piece.WHITE_PAWN piece.BLACK_QUEEN 6
  && ok "4k3/8/8/3pP3/8/8/8/4K3 w - d6 0 1"%string
        movetype.ENPASSANT 68 83 piece.WHITE_PAWN piece.BLACK_PAWN 6
  && ok "3r3k/4P3/8/8/8/8/8/4K3 w - - 0 1"%string
        movetype.PAWNPROMOTION 100 115 piece.WHITE_PAWN piece.BLACK_ROOK PieceType.QUEEN
  && ok "r3k2r/8/8/8/8/8/8/R3K2R w KQkq - 0 1"%string
        movetype.CASTLING Square.e1 Square.g1 piece.WHITE_KING piece.NOPIECE 6
  && ok "r3k2r/8/8/8/8/8/8/R3K2R b KQkq - 0 1"%string
        movetype.CASTLING Square.e8 Square.c8 piece.BLACK_KING piece.NOPIECE 6
  = true.
Proof. vm_compute. reflexivity. Qed.

Lemma undoMove_makeMove_witness :
  let p := sample_position "4k3/8/8/3pP3/8/8/8/4K3 w - d6 0 1" in
  let m := move.valueOf movetype.ENPASSANT 68 83 piece.WHITE_PAWN piece.BLACK_PAWN 6 in
  exists p1 p2,
    makeMove sample_zobrist sample_getValue m p = Some p1
    /\ undoMove sample_zobrist sample_getValue m p1 = Some p2
    /\ Position_equal p2 p
    /\ statesSize p2 = statesSize p.
Proof.
  apply (undoMove_makeMove sample_zobrist sample_getValue
           (sample_position "4k3/8/8/3pP3/8/8/8/4K3 w - d6 0 1")
           (move.valueOf movetype.ENPASSANT 68 83 piece.WHITE_PAWN piece.BLACK_PAWN 6));
    vm_compute; reflexivity.
Defined.

Lemma makeMove_halfmoveClock_witness :
  let p := sample_position "r3k2r/8/8/8/8/8/8/R3K2R w KQkq - 7 20" in
  let m := move.valueOf movetype.CASTLING Square.e1 Square.g1
             piece.WHITE_KING piece.NOPIECE 6 in
  exists p1,
    makeMove sample_zobrist sample_getValue m p = Some p1
    /\ halfmoveClock p = 7
    /\ halfmoveClock p1 = 8.
Proof.
  destruct (makeMove_halfmoveClock sample_zobrist sample_getValue
              (sample_position "r3k2r/8/8/8/8/8/8/R3K2R w KQkq - 7 20")
              (move.valueOf movetype.CASTLING Square.e1 Square.g1
                 piece.WHITE_KING piece.NOPIECE 6)
              ltac:(vm_compute; reflexivity) ltac:(vm_compute; reflexivity))
    as (p1 & Hmake & _ & Hclock).
  exists p1. split; [exact Hmake|]. split; [vm_compute; reflexivity|].
  rewrite Hclock.
  - vm_compute. reflexivity.
  - vm_compute. discriminate.
  - vm_compute. reflexivity.
  - vm_compute. reflexivity.
Defined.
(** ** C8: the standard position round trip *)

(** C8.  Whatever the hash tables, the piece values and the capacity of
    the history, parsing the standard starting description succeeds
    and serializing the result gives back the same string, character
    for character. *)
Theorem fromPosition_toPosition_standard
    (zobrist : Zobrist.t) (PieceType_getValue : Z -> Z) (MAX_MOVES : nat) :
  toPosition zobrist PieceType_getValue MAX_MOVES STANDARDPOSITION ≫= fromPosition
  = Some "rnbqkbnr/pppppppp/8/8/8/8/PPPPPPPP/RNBQKBNR w KQkq - 0 1"%string.
Proof. vm_compute. reflexivity. Qed.

(** ** C7: the active-color field *)

Lemma toColor_NOCOLOR (c : ascii) :
  tolower c <> WHITE_NOTATION -> tolower c <> BLACK_NOTATION ->
  toColor c = color.NOCOLOR.
Proof.
  intros Hw Hb. unfold toColor.
  destruct (Ascii.eqb_spec (tolower c) WHITE_NOTATION); [done|].
  destruct (Ascii.eqb_spec (tolower c) BLACK_NOTATION); [done|].
  reflexivity.
Qed.

(** C7, as the code has it.  [toColor] lowers the case of the letter
    before it compares it: a description whose active-color field is a
    single character that is neither [w] nor [b] after lowering its
    case is rejected, whatever the other fields are. *)
Theorem toPosition_unknown_color
    (zobrist : Zobrist.t) (PieceType_getValue : Z -> Z) (MAX_MOVES : nat)
    (fen placement : string) (c : ascii) (others : list string) :
  getTokens fen EmptyString = placement :: String c EmptyString :: others ->
  tolower c <> WHITE_NOTATION ->
  tolower c <> BLACK_NOTATION ->
  toPosition zobrist PieceType_getValue MAX_MOVES fen = None.
Proof.
  intros Htok Hw Hb. unfold toPosition. rewrite Htok.
  destruct ((_ <? 4)%nat || _); [reflexivity|].
  cbn [lookup list_lookup].
  change ((placement :: String c EmptyString :: others) !! 0%nat) with (Some placement).
  change ((placement :: String c EmptyString :: others) !! 1%nat)
    with (Some (String c EmptyString)).
  cbn [mbind option_bind].
  destruct (toPosition_placements _ _ _ _) as [st|]; [|reflexivity].
  cbn [mbind option_bind String.length Nat.eqb negb String.get].
  by rewrite (toColor_NOCOLOR c Hw Hb).
Qed.

Lemma toPosition_unknown_color_witness :
  toPosition sample_zobrist sample_getValue 8
    "rnbqkbnr/pppppppp/8/8/8/8/PPPPPPPP/RNBQKBNR x KQkq - 0 1" = None.
Proof.
  apply (toPosition_unknown_color sample_zobrist sample_getValue 8
           "rnbqkbnr/pppppppp/8/8/8/8/PPPPPPPP/RNBQKBNR x KQkq - 0 1"
           "rnbqkbnr/pppppppp/8/8/8/8/PPPPPPPP/RNBQKBNR" "x"
           ["KQkq"; "-"; "0"; "1"]%string);
    [reflexivity | vm_compute; discriminate | vm_compute; discriminate].
Defined.

(** C7 as stated fails: the uppercase letters [W] and [B] are single
    characters other than [w] and [b], and descriptions that carry them
    as active color parse to positions with white and black to move. *)
Lemma toPosition_uppercase_color_accepted :
  ("W" <> "w" /\ "W" <> "b" /\ "B" <> "w" /\ "B" <> "b")%char
  /\ getTokens "4k3/8/8/8/8/8/8/4K3 W - - 0 1" EmptyString
     = ["4k3/8/8/8/8/8/8/4K3"; "W"; "-"; "-"; "0"; "1"]%string
  /\ activeColor <$> toPosition sample_zobrist sample_getValue 8
                       "4k3/8/8/8/8/8/8/4K3 W - - 0 1" = Some color.WHITE
  /\ getTokens "4k3/8/8/8/8/8/8/4K3 B - - 0 1" EmptyString
     = ["4k3/8/8/8/8/8/8/4K3"; "B"; "-"; "-"; "0"; "1"]%string
  /\ activeColor <$> toPosition sample_zobrist sample_getValue 8
                       "4k3/8/8/8/8/8/8/4K3 B - - 0 1" = Some color.BLACK.
Proof.
  split; [repeat split; discriminate|].
  split; [reflexivity|]. split; [vm_compute; reflexivity|].
  split; [reflexivity|]. vm_compute; reflexivity.
Qed.
(** ** C4: repetition *)

Lemma isRepetition_loop_spec (fuel : nat) (i j : Z) (p : Position) :
  0 <= j -> i < Z.of_nat (length (states p)) -> i < j + 2 * Z.of_nat fuel ->
  exists b, isRepetition_loop fuel i j p = Some b
    /\ (b = true <->
        exists k entry, 0 <= k /\ j <= i - 2 * k
          /\ array_get (states p) (i - 2 * k) = Some entry
          /\ State.zobristKey entry = zobristKey p).
Proof.
  intros Hj. revert i. induction fuel as [|fuel IH]; intros i Hi Hfuel.
  - exists false. split.
    + simpl. rewrite Z.geb_leb. destruct (Z.leb_spec j i); [lia | reflexivity].
    + split; [discriminate|]. intros (k & e & Hk & Hjk & _). lia.
  - cbn [isRepetition_loop]. rewrite Z.geb_leb. destruct (Z.leb_spec j i) as [Hji|Hji].
    + destruct (array_get_Some (states p) i ltac:(lia)) as [e He]. rewrite He. simpl.
      destruct (Z.eqb_spec (zobristKey p) (State.zobristKey e)) as [Heq|Hne].
      * exists true. split; [reflexivity|]. split; [|reflexivity]. intros _.
        exists 0, e. rewrite Z.mul_0_r, Z.sub_0_r. repeat split; (lia || done).
      * destruct (IH (i - 2) ltac:(lia) ltac:(lia)) as (b & Hb & Hiff).
        exists b. split; [exact Hb|]. rewrite Hiff. split.
        -- intros (k & e' & Hk & Hjk & Hget & Hkey). exists (k + 1), e'.
           replace (i - 2 * (k + 1)) with (i - 2 - 2 * k) by lia.
           repeat split; (lia || done).
        -- intros (k & e' & Hk & Hjk & Hget & Hkey).
           destruct (Z.eq_dec k 0) as [->|Hk0].
           ++ rewrite Z.mul_0_r, Z.sub_0_r in Hget. congruence.
           ++ exists (k - 1), e'.
              replace (i - 2 - 2 * (k - 1)) with (i - 2 * k) by lia.
              repeat split; (lia || done).
    + exists false. split; [reflexivity|].
      split; [discriminate|]. intros (k & e & Hk & Hjk & _). lia.
Qed.

Lemma isRepetition_loop_ext (fuel : nat) (i j : Z) (p : Position) (states' : list State.t) :
  (forall k, 0 <= k -> j <= i - 2 * k ->
     array_get states' (i - 2 * k) = array_get (states p) (i - 2 * k)) ->
  isRepetition_loop fuel i j (set_states states' p) = isRepetition_loop fuel i j p.
Proof.
  revert i. induction fuel as [|fuel IH]; intros i Hagree; [reflexivity|].
  cbn [isRepetition_loop]. rewrite Z.geb_leb. destruct (Z.leb_spec j i) as [Hji|Hji];
    [|reflexivity].
  cbn [set_states states zobristKey].
  pose proof (Hagree 0 ltac:(lia) ltac:(lia)) as H0.
  rewrite Z.mul_0_r, Z.sub_0_r in H0. rewrite H0.
  destruct (array_get (states p) i) as [e|]; [|reflexivity]. simpl.
  destruct (zobristKey p =? State.zobristKey e); [reflexivity|].
  apply IH. intros k Hk Hjk.
  replace (i - 2 - 2 * k) with (i - 2 * (k + 1)) by lia. apply Hagree; lia.
Qed.

(** C4.  With a history depth within the capacity, [isRepetition]
    returns, and it returns true exactly when some snapshot at one of
    the examined indices ([statesSize - 2], [statesSize - 4], ... down
    to and including [max 0 (statesSize - halfmoveClock)]) stores the
    current hash.  The other snapshots are never compared: changing
    them does not change the result. *)
Theorem isRepetition_spec (p : Position) :
  0 <= statesSize p <= Z.of_nat (length (states p)) ->
  exists b, isRepetition p = Some b
    /\ (b = true <->
        exists i entry, examined p i
          /\ array_get (states p) i = Some entry
          /\ State.zobristKey entry = zobristKey p)
    /\ (forall states' : list State.t,
          (forall i, examined p i -> array_get states' i = array_get (states p) i) ->
          isRepetition (set_states states' p) = Some b).
Proof.
  intros Hss. unfold isRepetition.
  set (j := Z.max 0 (statesSize p - halfmoveClock p)).
  destruct (isRepetition_loop_spec (Z.to_nat (statesSize p)) (statesSize p - 2) j p
              ltac:(lia) ltac:(lia) ltac:(lia)) as (b & Hb & Hiff).
  exists b. split; [exact Hb | split].
  - rewrite Hiff. unfold examined. fold j. split.
    + intros (k & e & Hk & Hjk & Hget & Hkey).
      exists (statesSize p - 2 - 2 * k), e. repeat split; try done.
      exists (k + 1). lia.
    + intros (i & e & (Hji & k & Hk & ->) & Hget & Hkey).
      exists (k - 1), e.
      replace (statesSize p - 2 - 2 * (k - 1)) with (statesSize p - 2 * k) by lia.
      repeat split; (lia || done).
  - intros states' Hagree. cbn [set_states statesSize halfmoveClock]. fold j.
    rewrite isRepetition_loop_ext; [exact Hb|].
    intros k Hk Hjk. apply Hagree. unfold examined. fold j.
    split; [lia|]. exists (k + 1). lia.
Qed.

Lemma isRepetition_spec_witness :
  let p := set_zobristKey 5
             (set_halfmoveClock 4
                (set_statesSize 4
                   (set_states [State.make 5 0 0 0; State.make 7 0 0 0;
                                State.make 9 0 0 0; State.make 5 0 0 0]
                      (Position_new 4)))) in
  exists b, isRepetition p = Some b
    /\ (b = true <->
        exists i entry, examined p i
          /\ array_get (states p) i = Some entry
          /\ State.zobristKey entry = zobristKey p)
    /\ (forall states' : list State.t,
          (forall i, examined p i -> array_get states' i = array_get (states p) i) ->
          isRepetition (set_states states' p) = Some b).
Proof.
  apply (isRepetition_spec
           (set_zobristKey 5
              (set_halfmoveClock 4
                 (set_statesSize 4
                    (set_states [State.make 5 0 0 0; State.make 7 0 0 0;
                                 State.make 9 0 0 0; State.make 5 0 0 0]
                       (Position_new 4))))));
    vm_compute; split; discriminate.
Defined.
(** ** C5: insufficient material *)

Lemma bitboard_size_0 (bb : Z) :
  bitboard.size bb = 0 <->
  forall s, validSquare s = true -> bitboard.mem s bb = false.
Proof.
  unfold bitboard.size, bitboard.mem. split.
  - intros H s Hs. pose proof (toBitSquare_range s Hs) as Hr.
    assert (Hnil : filter (fun i => Z.testbit bb i = true) (Z.of_nat <$> seq 0 64) = [])
      by (apply nil_length_inv; lia).
    destruct (Z.testbit bb (bitboard.toBitSquare s)) eqn:Hbit; [|reflexivity].
    assert (Hin : bitboard.toBitSquare s
                  ∈ filter (fun i => Z.testbit bb i = true) (Z.of_nat <$> seq 0 64)).
    { apply list_elem_of_filter. split; [exact Hbit|].
      apply list_elem_of_fmap. exists (Z.to_nat (bitboard.toBitSquare s)).
      split; [lia|]. apply elem_of_seq. lia. }
    rewrite Hnil in Hin. by apply not_elem_of_nil in Hin.
  - intros H.
    assert (Hnil : filter (fun i => Z.testbit bb i = true) (Z.of_nat <$> seq 0 64) = []).
    { apply elem_of_nil_inv. intros i [Hbit Hin]%list_elem_of_filter.
      apply list_elem_of_fmap in Hin as (n & -> & Hn%elem_of_seq).
      pose proof (Zrange_forallb
        (fun i => validSquare (bitboard.toX88Square i)
                  && (bitboard.toBitSquare (bitboard.toX88Square i) =? i)) 0 64
        ltac:(vm_compute; reflexivity) (Z.of_nat n) ltac:(lia)) as Hsq.
      cbv beta in Hsq. apply andb_true_iff in Hsq as [Hv Hb%Z.eqb_eq].
      specialize (H _ Hv). rewrite Hb in H. congruence. }
    by rewrite Hnil.
Qed.

Lemma bitboard_size_nonneg (bb : Z) : 0 <= bitboard.size bb.
Proof. unfold bitboard.size. lia. Qed.

(** C5.  On a well-formed position [hasInsufficientMaterial] returns,
    and it returns true exactly when neither color has a pawn, a rook
    or a queen in its occupancy sets and, for each color, knights plus
    bishops number at most one.  In particular it returns false as soon
    as either side has a pawn, and it returns true for king and bishop
    against a lone king. *)
Theorem hasInsufficientMaterial_spec (p : Position) :
  board_ok p = true ->
  exists b, hasInsufficientMaterial p = Some b
    /\ (b = true <->
        (forall c t, color.isValid c = true ->
           t = PieceType.PAWN \/ t = PieceType.ROOK \/ t = PieceType.QUEEN ->
           ~ hasPiece p c t)
        /\ (forall c, color.isValid c = true ->
              countPieces p c PieceType.KNIGHT + countPieces p c PieceType.BISHOP <= 1))
    /\ (forall c, color.isValid c = true -> hasPiece p c PieceType.PAWN -> b = false)
    /\ hasInsufficientMaterial (sample_position "4k3/8/8/8/8/8/8/4KB2 w - - 0 1")
       = Some true.
Proof.
  intros Hok. apply board_ok_inv in Hok as (_ & _ & Hps).
  assert (Hget : forall c t, 0 <= c < 2 -> 0 <= t < 6 ->
                   exists bb, pieces_get (pieces p) c t = Some bb).
  { intros c t Hc Ht. destruct (Hps c t Hc Ht) as (bb & Hbb & _). eauto. }
  assert (Hno : forall c t bb, pieces_get (pieces p) c t = Some bb ->
                  (bitboard.size bb =? 0) = true <-> ~ hasPiece p c t).
  { intros c t bb Hbb. rewrite Z.eqb_eq, bitboard_size_0. unfold hasPiece. split.
    - intros H (bb' & s & Hbb' & Hs & Hmem). rewrite Hbb in Hbb'. injection Hbb' as <-.
      rewrite (H s Hs) in Hmem. discriminate.
    - intros H s Hs. destruct (bitboard.mem s bb) eqn:Hmem; [|reflexivity].
      exfalso. apply H. by exists bb, s. }
  unfold hasInsufficientMaterial, color.WHITE, color.BLACK, PieceType.PAWN,
    PieceType.ROOK, PieceType.QUEEN, PieceType.KNIGHT, PieceType.BISHOP.
  destruct (Hget 0 0 ltac:(lia) ltac:(lia)) as [wp Hwp].
  destruct (Hget 1 0 ltac:(lia) ltac:(lia)) as [bp Hbp].
  destruct (Hget 0 3 ltac:(lia) ltac:(lia)) as [wr Hwr].
  destruct (Hget 1 3 ltac:(lia) ltac:(lia)) as [br Hbr].
  destruct (Hget 0 4 ltac:(lia) ltac:(lia)) as [wq Hwq].
  destruct (Hget 1 4 ltac:(lia) ltac:(lia)) as [bq Hbq].
  destruct (Hget 0 1 ltac:(lia) ltac:(lia)) as [wn Hwn].
  destruct (Hget 0 2 ltac:(lia) ltac:(lia)) as [wb Hwb].
  destruct (Hget 1 1 ltac:(lia) ltac:(lia)) as [bn Hbn].
  destruct (Hget 1 2 ltac:(lia) ltac:(lia)) as [bb Hbb].
  rewrite Hwp, Hbp, Hwr, Hbr, Hwq, Hbq, Hwn, Hwb, Hbn, Hbb. cbn [mbind option_bind].
  eexists. split; [reflexivity|].
  assert (Hiff :
    (bitboard.size wp =? 0) && (bitboard.size bp =? 0) && (bitboard.size wr =? 0)
    && (bitboard.size br =? 0) && (bitboard.size wq =? 0) && (bitboard.size bq =? 0)
    && (bitboard.size wn + bitboard.size wb <=? 1)
    && (bitboard.size bn + bitboard.size bb <=? 1) = true <->
    (forall c t, color.isValid c = true -> t = 0 \/ t = 3 \/ t = 4 -> ~ hasPiece p c t)
    /\ (forall c, color.isValid c = true -> countPieces p c 1 + countPieces p c 2 <= 1)).
  { rewrite !andb_true_iff.
    rewrite (Hno _ _ _ Hwp), (Hno _ _ _ Hbp), (Hno _ _ _ Hwr), (Hno _ _ _ Hbr),
      (Hno _ _ _ Hwq), (Hno _ _ _ Hbq), !Z.leb_le.
    unfold color.isValid, color.WHITE, color.BLACK. split.
    - intros [[[[[[[H1 H2] H3] H4] H5] H6] H7] H8]. split.
      + intros c t Hc Ht.
        assert (c = 0 \/ c = 1) as [-> | ->] by lia;
          destruct Ht as [-> | [-> | ->]]; assumption.
      + intros c Hc. unfold countPieces.
        assert (c = 0 \/ c = 1) as [-> | ->] by lia;
          rewrite ?Hwn, ?Hwb, ?Hbn, ?Hbb; assumption.
    - intros [Hnone Hminor].
      pose proof (Hminor 0 eq_refl) as Hw. pose proof (Hminor 1 eq_refl) as Hb.
      unfold countPieces in Hw, Hb. rewrite ?Hwn, ?Hwb in Hw. rewrite ?Hbn, ?Hbb in Hb.
      repeat split; try assumption; apply Hnone; auto. }
  split; [exact Hiff | split; [|vm_compute; reflexivity]].
  intros c Hc Hpawn. apply not_true_is_false. intros Htrue.
  apply Hiff in Htrue as [Hnone _]. by apply (Hnone c 0 Hc); [left|].
Qed.

Lemma hasInsufficientMaterial_spec_witness :
  hasInsufficientMaterial (sample_position "4k3/8/8/8/8/8/8/4KB2 w - - 0 1") = Some true
  /\ hasInsufficientMaterial (sample_position "4k3/4p3/8/8/8/8/8/4KB2 w - - 0 1")
     = Some false.
Proof.
  destruct (hasInsufficientMaterial_spec
              (sample_position "4k3/4p3/8/8/8/8/8/4KB2 w - - 0 1")
              ltac:(vm_compute; reflexivity)) as (b & Hb & _ & Hpawn & Hkb).
  split; [exact Hkb|].
  rewrite Hb. f_equal. apply (Hpawn color.BLACK eq_refl).
  exists 4503599627370496, 100. vm_compute. repeat split.
Defined.
(** ** C6: sliding attacks *)

Lemma isValid_near (x : Z) :
  -128 <= x < 256 -> Square.isValid x = true -> 0 <= x < 128.
Proof.
  intros Hx Hv.
  pose proof (Zrange_forallb
    (fun z => implb (Square.isValid z) ((0 <=? z) && (z <? 128))) (-128) 384
    ltac:(vm_compute; reflexivity) x ltac:(lia)) as H.
  cbv beta in H. rewrite Hv in H. simpl in H. lia.
Qed.

Lemma ray_leaves_board (t d : Z) :
  validSquare t = true -> In d Square.kingDirections ->
  -128 <= d <= 128 /\ -128 <= t + d < 256
  /\ exists k : nat, (k < 8)%nat /\ Square.isValid (t + d + Z.of_nat k * d) = false.
Proof.
  intros Ht%validSquare_values Hd.
  assert (Hall : forallb (fun t => forallb (fun d =>
            (-128 <=? d) && (d <=? 128) && (-128 <=? t + d) && (t + d <? 256)
            && existsb (fun k => negb (Square.isValid (t + d + Z.of_nat k * d))) (seq 0 8))
            Square.kingDirections) Square.values = true) by (vm_compute; reflexivity).
  rewrite forallb_forall in Hall. specialize (Hall _ Ht).
  rewrite forallb_forall in Hall. specialize (Hall _ Hd).
  rewrite !andb_true_iff in Hall. destruct Hall as [[[[H1 H2] H3] H4] Hex].
  apply existsb_exists in Hex as (k & Hk%in_seq & Hinv%negb_true_iff).
  repeat split; try lia. exists k. split; [lia | exact Hinv].
Qed.

Lemma isAttacked_ray_spec (fuel : nat) (s d a q : Z) (p : Position) :
  length (board p) = 128%nat -> -128 <= d <= 128 -> -128 <= s < 256 ->
  (exists k : nat, (k < fuel)%nat /\ Square.isValid (s + Z.of_nat k * d) = false) ->
  exists b, isAttacked_ray fuel s d a q p = Some b
    /\ (b = true <->
        exists k : nat,
          (forall i : nat, (i < k)%nat ->
             Square.isValid (s + Z.of_nat i * d) = true
             /\ exists pc, array_get (board p) (s + Z.of_nat i * d) = Some pc
                           /\ piece.isValid pc = false)
          /\ Square.isValid (s + Z.of_nat k * d) = true
          /\ exists pc, array_get (board p) (s + Z.of_nat k * d) = Some pc
                        /\ piece.isValid pc = true /\ (pc = a \/ pc = q)).
Proof.
  intros Hlen Hd. revert s. induction fuel as [|fuel IH]; intros s Hs (k & Hk & Hinv);
    [lia|].
  cbn [isAttacked_ray]. destruct (Square.isValid s) eqn:Hv.
  - destruct (isValid_near s Hs Hv) as [Hs0 Hs1].
    destruct (array_get_Some (board p) s ltac:(lia)) as [pc Hpc]. rewrite Hpc. simpl.
    destruct (piece.isValid pc) eqn:Hpcv.
    + eexists. split; [reflexivity|]. rewrite orb_true_iff, !Z.eqb_eq. split.
      * intros Hor. exists 0%nat. rewrite Z.mul_0_l, Z.add_0_r.
        split; [intros i Hi; lia|]. split; [done|]. by exists pc.
      * intros ([|k'] & Hbefore & _ & pc' & Hget & _ & Hor).
        -- rewrite Z.mul_0_l, Z.add_0_r in Hget. congruence.
        -- destruct (Hbefore 0%nat ltac:(lia)) as (_ & pc'' & Hget'' & Hnv).
           rewrite Z.mul_0_l, Z.add_0_r in Hget''. congruence.
    + destruct k as [|k0].
      { rewrite Z.mul_0_l, Z.add_0_r in Hinv. congruence. }
      destruct (IH (s + d) ltac:(lia)) as (b & Hb & Hiff).
      { exists k0. split; [lia|].
        replace (s + d + Z.of_nat k0 * d) with (s + Z.of_nat (S k0) * d) by lia. done. }
      exists b. split; [exact Hb|]. rewrite Hiff. split.
      * intros (k' & Hbefore & Hvk & Hhit). exists (S k').
        replace (s + Z.of_nat (S k') * d) with (s + d + Z.of_nat k' * d) by lia.
        split; [|by split]. intros [|i] Hi.
        -- rewrite Z.mul_0_l, Z.add_0_r. split; [done|]. by exists pc.
        -- replace (s + Z.of_nat (S i) * d) with (s + d + Z.of_nat i * d) by lia.
           apply Hbefore. lia.
      * intros ([|k'] & Hbefore & Hvk & pc' & Hget & Hpv & Hor).
        -- rewrite Z.mul_0_l, Z.add_0_r in Hget. congruence.
        -- exists k'.
           replace (s + Z.of_nat (S k') * d) with (s + d + Z.of_nat k' * d) in * by lia.
           split; [|split; [done | by exists pc']]. intros i Hi.
           replace (s + d + Z.of_nat i * d) with (s + Z.of_nat (S i) * d) by lia.
           apply Hbefore. lia.
  - exists false. split; [reflexivity|]. split; [discriminate|].
    intros ([|k'] & Hbefore & Hvk & _).
    + rewrite Z.mul_0_l, Z.add_0_r in Hvk. congruence.
    + destruct (Hbefore 0%nat ltac:(lia)) as (Hv0 & _).
      rewrite Z.mul_0_l, Z.add_0_r in Hv0. congruence.
Qed.

Lemma ray_hit_shift (p : Position) (t d a q : Z) :
  ray_hit p t d a q <->
  exists k : nat,
    (forall i : nat, (i < k)%nat ->
       Square.isValid (t + d + Z.of_nat i * d) = true
       /\ exists pc, array_get (board p) (t + d + Z.of_nat i * d) = Some pc
                     /\ piece.isValid pc = false)
    /\ Square.isValid (t + d + Z.of_nat k * d) = true
    /\ exists pc, array_get (board p) (t + d + Z.of_nat k * d) = Some pc
                  /\ piece.isValid pc = true /\ (pc = a \/ pc = q).
Proof.
  unfold ray_hit, ray_hit_at. split.
  - intros ([|k] & Hk & Hbefore & Hv & Hhit); [lia|]. exists k.
    replace (t + Z.of_nat (S k) * d) with (t + d + Z.of_nat k * d) in * by lia.
    split; [|by split]. intros i Hi.
    replace (t + d + Z.of_nat i * d) with (t + Z.of_nat (S i) * d) by lia.
    apply Hbefore. lia.
  - intros (k & Hbefore & Hv & Hhit). exists (S k).
    replace (t + Z.of_nat (S k) * d) with (t + d + Z.of_nat k * d) by lia.
    split; [lia|]. split; [|by split]. intros [|i] Hi; [lia|].
    replace (t + Z.of_nat (S i) * d) with (t + d + Z.of_nat i * d) by lia.
    apply Hbefore. lia.
Qed.

Lemma isAttacked_slide_spec (t a q : Z) (directions : list Z) (p : Position) :
  length (board p) = 128%nat -> validSquare t = true ->
  (forall d, In d directions -> In d Square.kingDirections) ->
  exists b, isAttacked_slide t a q directions p = Some b
    /\ (b = true <-> exists d, In d directions /\ ray_hit p t d a q).
Proof.
  intros Hlen Ht. induction directions as [|d ds IH]; intros Hsub.
  - exists false. split; [reflexivity|]. split; [discriminate|]. by intros (d & [] & _).
  - destruct (ray_leaves_board t d Ht (Hsub d (or_introl eq_refl))) as (Hd & Hs & Hex).
    destruct (isAttacked_ray_spec 8 (t + d) d a q p Hlen Hd Hs Hex) as (b & Hb & Hiff).
    rewrite <- ray_hit_shift in Hiff.
    cbn [isAttacked_slide]. rewrite Hb. simpl. destruct b.
    + exists true. split; [reflexivity|]. split; [|reflexivity]. intros _.
      exists d. split; [by left | by apply Hiff].
    + destruct (IH (fun d' H => Hsub d' (or_intror H))) as (b' & Hb' & Hiff').
      exists b'. split; [exact Hb'|]. rewrite Hiff'. split.
      * intros (d' & Hin & Hhit). exists d'. split; [by right | done].
      * intros (d' & [<- | Hin] & Hhit).
        -- apply Hiff in Hhit. discriminate.
        -- by exists d'.
Qed.

Lemma isAttacked_step_total (t a : Z) (directions : list Z) (p : Position) :
  length (board p) = 128%nat ->
  (forall d, In d directions -> -128 <= t + d < 256) ->
  exists b, isAttacked_step t a directions p = Some b.
Proof.
  intros Hlen. induction directions as [|d ds IH]; intros Hr; [by exists false|].
  cbn [isAttacked_step].
  destruct (IH (fun d' H => Hr d' (or_intror H))) as [b' Hb'].
  destruct (Square.isValid (t + d)) eqn:Hv.
  - destruct (isValid_near _ (Hr d (or_introl eq_refl)) Hv) as [H0 H1].
    destruct (array_get_Some (board p) (t + d) ltac:(lia)) as [pc ->]. simpl.
    destruct (pc =? a); eauto.
  - simpl. eauto.
Qed.

Lemma isAttacked_pawn_total (t a : Z) (directions : list Z) (p : Position) :
  length (board p) = 128%nat ->
  (forall d, In d directions -> -128 <= t - d < 256) ->
  exists b, isAttacked_pawn t a directions p = Some b.
Proof.
  intros Hlen. induction directions as [|d ds IH]; intros Hr; [by exists false|].
  cbn [isAttacked_pawn].
  destruct (IH (fun d' H => Hr d' (or_intror H))) as [b' Hb'].
  destruct (Square.isValid (t - d)) eqn:Hv.
  - destruct (isValid_near _ (Hr d (or_introl eq_refl)) Hv) as [H0 H1].
    destruct (array_get_Some (board p) (t - d) ltac:(lia)) as [pc ->]. simpl.
    destruct (pc =? a); eauto.
  - simpl. eauto.
Qed.
(** C6.  For a playable target square and an attacker color, on a board
    array of its declared size: the sliding overload returns for the
    diagonal and for the orthogonal direction set, and it returns true
    exactly when on some ray of the set the first occupied square,
    reached through playable empty squares only, holds the slider of
    that set (bishop, rook) or the attacker's queen; any other occupant
    and the edge of the board end the ray without a hit.  The pawn,
    knight and king checks return as well, and [isAttacked] is the
    disjunction of the five results. *)
Theorem isAttacked_sliding_spec (p : Position) (t c : Z) :
  length (board p) = 128%nat ->
  validSquare t = true ->
  color.isValid c = true ->
  exists (pawnPiece knightPiece bishopPiece rookPiece queenPiece kingPiece : Z)
         (pawnDirections : list Z) (pawn knight bishop rook king : bool),
    (piece.valueOf c PieceType.PAWN = Some pawnPiece
     /\ piece.valueOf c PieceType.KNIGHT = Some knightPiece
     /\ piece.valueOf c PieceType.BISHOP = Some bishopPiece
     /\ piece.valueOf c PieceType.ROOK = Some rookPiece
     /\ piece.valueOf c PieceType.QUEEN = Some queenPiece
     /\ piece.valueOf c PieceType.KING = Some kingPiece
     /\ Square.pawnDirections c = Some pawnDirections)
    /\ isAttacked_slide t bishopPiece queenPiece Square.bishopDirections p = Some bishop
    /\ (bishop = true <->
        exists d, In d Square.bishopDirections /\ ray_hit p t d bishopPiece queenPiece)
    /\ isAttacked_slide t rookPiece queenPiece Square.rookDirections p = Some rook
    /\ (rook = true <->
        exists d, In d Square.rookDirections /\ ray_hit p t d rookPiece queenPiece)
    /\ isAttacked_pawn t pawnPiece (drop 1 pawnDirections) p = Some pawn
    /\ isAttacked_step t knightPiece Square.knightDirections p = Some knight
    /\ isAttacked_step t kingPiece Square.kingDirections p = Some king
    /\ isAttacked t c p = Some (pawn || knight || bishop || rook || king).
Proof.
  intros Hlen Ht Hc. pose proof (validSquare_range t Ht) as Htr.
  assert (exists pds, Square.pawnDirections c = Some pds
            /\ forall d, In d (drop 1 pds) -> -128 <= t - d < 256) as (pds & Hpds & Hpr).
  { unfold color.isValid, color.WHITE, color.BLACK in Hc.
    assert (c = 0 \/ c = 1) as [-> | ->] by lia;
      (eexists; split; [reflexivity|]); intros d Hd; cbv in Hd; lia. }
  assert (Hval : forall ty, PieceType.isValid ty = true ->
                   piece.valueOf c ty = Some (c * 6 + ty)).
  { intros ty Hty. unfold piece.valueOf. by rewrite Hc, Hty. }
  destruct (isAttacked_slide_spec t (c * 6 + PieceType.BISHOP) (c * 6 + PieceType.QUEEN)
              Square.bishopDirections p Hlen Ht) as (bishop & Hbishop & Hbiff).
  { intros d Hd. cbv in Hd |- *. tauto. }
  destruct (isAttacked_slide_spec t (c * 6 + PieceType.ROOK) (c * 6 + PieceType.QUEEN)
              Square.rookDirections p Hlen Ht) as (rook & Hrook & Hriff).
  { intros d Hd. cbv in Hd |- *. tauto. }
  destruct (isAttacked_pawn_total t (c * 6 + PieceType.PAWN) (drop 1 pds) p Hlen Hpr)
    as [pawn Hpawn].
  destruct (isAttacked_step_total t (c * 6 + PieceType.KNIGHT) Square.knightDirections p Hlen)
    as [knight Hknight].
  { intros d Hd. cbv in Hd. lia. }
  destruct (isAttacked_step_total t (c * 6 + PieceType.KING) Square.kingDirections p Hlen)
    as [king Hking].
  { intros d Hd. cbv in Hd. lia. }
  exists (c * 6 + PieceType.PAWN), (c * 6 + PieceType.KNIGHT), (c * 6 + PieceType.BISHOP),
    (c * 6 + PieceType.ROOK), (c * 6 + PieceType.QUEEN), (c * 6 + PieceType.KING),
    pds, pawn, knight, bishop, rook, king.
  split; [by rewrite !Hval|].
  repeat (split; [done|]).
  unfold isAttacked. rewrite !Hval by done. cbn [mbind option_bind].
  rewrite Hpds. cbn [mbind option_bind]. rewrite Hpawn. cbn [mbind option_bind].
  destruct pawn; [reflexivity|].
  unfold orElse. rewrite Hknight. cbn [mbind option_bind].
  destruct knight; [reflexivity|].
  rewrite Hbishop. cbn [mbind option_bind]. destruct bishop; [reflexivity|].
  rewrite Hrook. cbn [mbind option_bind]. destruct rook; [reflexivity|].
  by rewrite Hking.
Qed.

Lemma isAttacked_sliding_spec_witness :
  let p := sample_position "4k3/8/8/2B5/8/8/1R6/4K3 w - - 0 1" in
  ray_hit p 36 Square.NW piece.WHITE_BISHOP piece.WHITE_QUEEN
  /\ isAttacked 36 color.WHITE p = Some true.
Proof.
  destruct (isAttacked_sliding_spec
              (sample_position "4k3/8/8/2B5/8/8/1R6/4K3 w - - 0 1") 36 color.WHITE
              ltac:(vm_compute; reflexivity) ltac:(vm_compute; reflexivity)
              ltac:(vm_compute; reflexivity))
    as (pawnPiece & knightPiece & bishopPiece & rookPiece & queenPiece & kingPiece
        & pawnDirections & pawn & knight & bishop & rook & king
        & (_ & _ & [= <-] & _ & [= <-] & _) & Hbishop & Hiff & _ & _ & _ & _ & _ & Hall).
  assert (Hhit : ray_hit (sample_position "4k3/8/8/2B5/8/8/1R6/4K3 w - - 0 1")
                   36 Square.NW piece.WHITE_BISHOP piece.WHITE_QUEEN).
  { exists 2%nat. split; [lia|]. split; [|split].
    - intros i Hi. assert (i = 1%nat) as -> by lia.
      split; [reflexivity|]. exists piece.NOPIECE. split; reflexivity.
    - reflexivity.
    - exists piece.WHITE_BISHOP. split; [vm_compute; reflexivity|].
      split; [reflexivity | by left]. }
  split; [exact Hhit|].
  rewrite Hall.
  assert (bishop = true) as -> by (apply Hiff; exists Square.NW; split; [cbv; tauto | exact Hhit]).
  by rewrite !orb_true_r.
Defined.
(** ** C2: the incremental hash against the hash from scratch *)

(** Equations between exclusive-ors of table entries, bit by bit. *)
Ltac xor_solve :=
  apply Z.bits_inj'; intros ? _;
  repeat rewrite Z.lxor_spec; repeat rewrite Z.bits_0;
  repeat match goal with
         | |- context [Z.testbit ?a ?n] => destruct (Z.testbit a n)
         end;
  reflexivity.

Lemma lxor_drift (key scratch a b : Z) :
  key = Z.lxor scratch (Z.lxor a b) -> (key = scratch <-> a = b).
Proof.
  intros ->. rewrite <- (Z.lxor_eq_0_iff a b). split.
  - intros H. apply (f_equal (Z.lxor scratch)) in H.
    by rewrite <- Z.lxor_assoc, Z.lxor_nilpotent, Z.lxor_0_l in H.
  - intros ->. apply Z.lxor_0_r.
Qed.

(** *** Where the maintained hash follows the hash from scratch *)

Section HashMaintenance.

Variable zobrist : Zobrist.t.
Variable PieceType_getValue : Z -> Z.

Lemma Square_values_NoDup : NoDup Square.values.
Proof. apply (bool_decide_unpack _). vm_compute. reflexivity. Qed.

Lemma squares_fold_update (brd brd' : list Z) (s x : Z) (l : list Z) :
  array_set brd s x = Some brd' -> NoDup l ->
  fold_right (fun s acc => Z.lxor (zobrist_square zobrist brd' s) acc) 0 l
  = Z.lxor (fold_right (fun s acc => Z.lxor (zobrist_square zobrist brd s) acc) 0 l)
      (if bool_decide (s ∈ l)
       then Z.lxor (zobrist_square zobrist brd s) (zobrist_square zobrist brd' s)
       else 0).
Proof.
  intros Hset. induction l as [|a l IH]; intros Hnd.
  - reflexivity.
  - apply NoDup_cons in Hnd as [Ha Hnd]. cbn [fold_right]. rewrite (IH Hnd).
    destruct (decide (a = s)) as [->|Hne].
    + rewrite (bool_decide_eq_true_2 (s ∈ s :: l)) by left.
      rewrite (bool_decide_eq_false_2 (s ∈ l)) by done. xor_solve.
    + unfold zobrist_square at 1. rewrite (array_get_set_ne _ _ _ _ _ Hset) by congruence.
      fold (zobrist_square zobrist brd a).
      destruct (decide (s ∈ l)) as [Hin|Hin].
      * rewrite (bool_decide_eq_true_2 (s ∈ a :: l)) by (by right).
        rewrite (bool_decide_eq_true_2 (s ∈ l)) by done. xor_solve.
      * rewrite (bool_decide_eq_false_2 (s ∈ a :: l))
          by (intros [->|?]%elem_of_cons; done).
        rewrite (bool_decide_eq_false_2 (s ∈ l)) by done. xor_solve.
Qed.

Lemma zobrist_board_update (brd brd' : list Z) (s x : Z) :
  array_set brd s x = Some brd' -> validSquare s = true ->
  zobrist_board zobrist brd'
  = Z.lxor (zobrist_board zobrist brd)
      (Z.lxor (zobrist_square zobrist brd s) (zobrist_square zobrist brd' s)).
Proof.
  intros Hset Hs. unfold zobrist_board.
  rewrite (squares_fold_update _ _ _ _ _ Hset Square_values_NoDup).
  by rewrite bool_decide_eq_true_2
    by (apply list_elem_of_In; by apply validSquare_values).
Qed.

(** Writing one playable square changes the hash from scratch by the
    old and the new contribution of that square. *)
Lemma from_scratch_board (p p' : Position) (s x : Z) :
  array_set (board p) s x = Some (board p') -> validSquare s = true ->
  castlingRights p' = castlingRights p -> enPassantSquare p' = enPassantSquare p ->
  activeColor p' = activeColor p ->
  zobristKey_from_scratch zobrist p'
  = Z.lxor (zobristKey_from_scratch zobrist p)
      (Z.lxor (zobrist_square zobrist (board p) s) (zobrist_square zobrist (board p') s)).
Proof.
  intros Hset Hs Hc He Ha. unfold zobristKey_from_scratch.
  rewrite (zobrist_board_update _ _ _ _ Hset Hs), Hc, He, Ha. xor_solve.
Qed.

Lemma put_inv (p p' : Position) (pc s : Z) :
  put zobrist PieceType_getValue pc s p = Some p' ->
  array_set (board p) s pc = Some (board p')
  /\ castlingRights p' = castlingRights p /\ enPassantSquare p' = enPassantSquare p
  /\ activeColor p' = activeColor p.
Proof.
  unfold put. intros H.
  destruct (piece.getType pc); simpl in H; [|discriminate].
  destruct (piece.getColor pc); simpl in H; [|discriminate].
  destruct (array_set (board p) s pc) as [b'|]; simpl in H; [|discriminate].
  repeat (match type of H with
          | context [mbind _ ?x] => destruct x; simpl in H; [|discriminate]
          end).
  by injection H as <-.
Qed.

Lemma remove_inv (p p' : Position) (pc s : Z) :
  remove zobrist PieceType_getValue s p = Some (pc, p') ->
  array_get (board p) s = Some pc /\ piece.isValid pc = true
  /\ array_set (board p) s piece.NOPIECE = Some (board p')
  /\ castlingRights p' = castlingRights p /\ enPassantSquare p' = enPassantSquare p
  /\ activeColor p' = activeColor p.
Proof.
  unfold remove. intros H.
  destruct (array_get (board p) s) as [x|]; simpl in H; [|discriminate].
  destruct (piece.getType x) eqn:Hty; simpl in H; [|discriminate].
  assert (Hv : piece.isValid x = true).
  { unfold piece.getType in Hty. by destruct (piece.isValid x). }
  destruct (piece.getColor x); simpl in H; [|discriminate].
  destruct (array_set (board p) s piece.NOPIECE) as [b'|]; simpl in H; [|discriminate].
  repeat (match type of H with
          | context [mbind _ ?x] => destruct x; simpl in H; [|discriminate]
          end).
  by injection H as <- <-.
Qed.

(** [put] on a playable square that holds no piece, and [remove], keep
    the maintained hash equal to the hash from scratch. *)
Lemma put_hash (p p' : Position) (pc s x : Z) :
  put zobrist PieceType_getValue pc s p = Some p' ->
  validSquare s = true -> array_get (board p) s = Some x -> piece.isValid x = false ->
  zobristKey p = zobristKey_from_scratch zobrist p ->
  zobristKey p' = zobristKey_from_scratch zobrist p'.
Proof.
  intros Hput Hs Hx Hxv Hkey.
  destruct (put_inv _ _ _ _ Hput) as (Hset & Hc & He & Ha).
  rewrite (put_zobristKey _ _ _ _ _ _ Hput), Hkey.
  rewrite (from_scratch_board p p' s pc Hset Hs Hc He Ha).
  unfold zobrist_square. rewrite Hx, Hxv, (array_get_set_eq _ _ _ _ Hset).
  assert (Hpc : piece.isValid pc = true).
  { unfold put, piece.getType in Hput. by destruct (piece.isValid pc). }
  rewrite Hpc. xor_solve.
Qed.

Lemma remove_hash (p p' : Position) (pc s : Z) :
  remove zobrist PieceType_getValue s p = Some (pc, p') ->
  validSquare s = true ->
  zobristKey p = zobristKey_from_scratch zobrist p ->
  zobristKey p' = zobristKey_from_scratch zobrist p'.
Proof.
  intros Hrem Hs Hkey.
  destruct (remove_inv _ _ _ _ Hrem) as (Hx & Hxv & Hset & Hc & He & Ha).
  rewrite (remove_zobristKey _ _ _ _ _ _ Hrem), Hkey.
  rewrite (from_scratch_board p p' s _ Hset Hs Hc He Ha).
  unfold zobrist_square. rewrite Hx, Hxv, (array_get_set_eq _ _ _ _ Hset).
  change (piece.isValid piece.NOPIECE) with false. xor_solve.
Qed.

(** So do the setters of the construction interface. *)
Lemma setActiveColor_hash (p : Position) (c : Z) :
  color.isValid (activeColor p) = true -> color.isValid c = true ->
  zobristKey p = zobristKey_from_scratch zobrist p ->
  zobristKey (setActiveColor zobrist c p)
  = zobristKey_from_scratch zobrist (setActiveColor zobrist c p).
Proof.
  unfold color.isValid, color.WHITE, color.BLACK. intros Hp Hc Hkey.
  unfold setActiveColor.
  destruct (Z.eqb_spec (activeColor p) c) as [|Hne]; [exact Hkey|]. cbn [negb].
  unfold zobristKey_from_scratch in *.
  cbn [xor_zobristKey set_zobristKey set_activeColor zobristKey board
       castlingRights enPassantSquare activeColor].
  rewrite Hkey. unfold zobrist_active, color.BLACK.
  destruct (Z.eqb_spec (activeColor p) 1); destruct (Z.eqb_spec c 1);
    try lia; xor_solve.
Qed.

Lemma setEnPassantSquare_hash (p : Position) (s : Z) :
  zobristKey p = zobristKey_from_scratch zobrist p ->
  zobristKey (setEnPassantSquare zobrist s p)
  = zobristKey_from_scratch zobrist (setEnPassantSquare zobrist s p).
Proof.
  intros Hkey. unfold setEnPassantSquare, zobristKey_from_scratch, zobrist_enPassant in *.
  destruct (negb (enPassantSquare p =? Square.NOSQUARE));
    destruct (negb (s =? Square.NOSQUARE)) eqn:Hs;
    cbn [xor_zobristKey set_zobristKey set_enPassantSquare zobristKey board
         castlingRights enPassantSquare activeColor];
    rewrite ?Hs, Hkey; xor_solve.
Qed.

Lemma zobrist_castling_lor (r flag : Z) :
  castling.isFlag flag = true -> Z.land r flag = 0 ->
  zobrist_castling zobrist (Z.lor r flag)
  = Z.lxor (zobrist_castling zobrist r) (Zobrist.castlingRights zobrist flag).
Proof.
  intros Hflag H0.
  assert (Hl : forall g, castling.isFlag g = true ->
            (Z.land (Z.lor r flag) g =? 0) = (Z.land r g =? 0) && negb (g =? flag)).
  { intros g Hg. rewrite Z.land_lor_distr_l.
    destruct (Z.eqb_spec g flag) as [->|Hne].
    - rewrite Z.land_diag, H0, Z.lor_0_l, andb_false_r. apply Z.eqb_neq.
      unfold castling.isFlag, castling.WHITE_KINGSIDE, castling.WHITE_QUEENSIDE,
        castling.BLACK_KINGSIDE, castling.BLACK_QUEENSIDE in Hflag. lia.
    - replace (Z.land flag g) with 0; [by rewrite Z.lor_0_r, andb_true_r|].
      unfold castling.isFlag, castling.WHITE_KINGSIDE, castling.WHITE_QUEENSIDE,
        castling.BLACK_KINGSIDE, castling.BLACK_QUEENSIDE in Hflag, Hg.
      assert (flag = 1 \/ flag = 2 \/ flag = 4 \/ flag = 8) as [->|[->|[->| ->]]] by lia;
        assert (g = 1 \/ g = 2 \/ g = 4 \/ g = 8) as [->|[->|[->| ->]]] by lia;
        (reflexivity || congruence). }
  unfold zobrist_castling, castling.NOCASTLING. cbn [fold_right].
  rewrite !Hl by reflexivity.
  unfold castling.isFlag, castling.WHITE_KINGSIDE, castling.WHITE_QUEENSIDE,
    castling.BLACK_KINGSIDE, castling.BLACK_QUEENSIDE in *.
  assert (flag = 1 \/ flag = 2 \/ flag = 4 \/ flag = 8) as [->|[->|[->| ->]]] by lia;
    cbn [Z.eqb Pos.eqb negb andb]; rewrite ?andb_true_r, ?andb_false_r;
    cbn [negb]; rewrite ?H0; cbn [Z.eqb negb];
    repeat match goal with
           | |- context [Z.land r ?g =? 0] => destruct (Z.land r g =? 0)
           end; cbn [negb]; xor_solve.
Qed.

Lemma setCastlingRight_hash (p : Position) (flag : Z) :
  castling.isFlag flag = true ->
  zobristKey p = zobristKey_from_scratch zobrist p ->
  zobristKey (setCastlingRight zobrist flag p)
  = zobristKey_from_scratch zobrist (setCastlingRight zobrist flag p).
Proof.
  intros Hflag Hkey. unfold setCastlingRight, castling.NOCASTLING.
  destruct (Z.eqb_spec (Z.land (castlingRights p) flag) 0) as [H0|]; [|exact Hkey].
  unfold zobristKey_from_scratch in *.
  cbn [xor_zobristKey set_zobristKey set_castlingRights zobristKey board
       castlingRights enPassantSquare activeColor].
  rewrite (zobrist_castling_lor _ _ Hflag H0), Hkey. xor_solve.
Qed.

(** [clearCastling], whenever it changes the rights, leaves the
    maintained hash off the hash from scratch by the entry of index 0
    and the contributions of the old and of the new rights. *)
Lemma clearCastling_hash (p : Position) (s : Z) :
  zobristKey p = zobristKey_from_scratch zobrist p ->
  zobristKey (clearCastling zobrist s p)
  = Z.lxor (zobristKey_from_scratch zobrist (clearCastling zobrist s p))
      (if castlingRights (clearCastling zobrist s p) =? castlingRights p then 0
       else Z.lxor (Zobrist.castlingRights zobrist 0)
              (Z.lxor (zobrist_castling zobrist (castlingRights p))
                 (zobrist_castling zobrist
                    (castlingRights (clearCastling zobrist s p))))).
Proof.
  intros Hkey. unfold clearCastling.
  destruct (clearCastling_mask s (castlingRights p)) as [n|];
    [|rewrite Z.eqb_refl; rewrite Hkey at 1; xor_solve].
  destruct (Z.eqb_spec n (castlingRights p)) as [->|Hne]; cbn [negb].
  - rewrite Z.eqb_refl. rewrite Hkey at 1. xor_solve.
  - cbn [castlingRights set_castlingRights xor_zobristKey set_zobristKey zobristKey].
    destruct (Z.eqb_spec n (castlingRights p)) as [|_]; [done|].
    rewrite Z.lxor_nilpotent, Hkey. unfold zobristKey_from_scratch.
    cbn [board castlingRights enPassantSquare activeColor
         set_castlingRights xor_zobristKey set_zobristKey]. xor_solve.
Qed.

End HashMaintenance.

Lemma Position_new_hash (zobrist : Zobrist.t) (MAX_MOVES : nat) :
  zobristKey (Position_new MAX_MOVES)
  = zobristKey_from_scratch zobrist (Position_new MAX_MOVES).
Proof. vm_compute. reflexivity. Qed.

(** *** Where it does not *)

(** C2 fails on the code.  Whatever the tables: the position parsed
    from [4k3/8/8/8/8/8/8/4K2R w K - 0 1] has the hash recomputed from
    scratch; after [makeMove] of the rook from h1 to g1, which clears
    white's king-side right, the maintained hash differs from the hash
    recomputed from scratch by the exclusive-or of the table entries
    for that right and for the empty mask: [clearCastling] overwrites
    the rights before it computes the table index, so it always folds
    in the entry of index 0.  The two hashes agree only if those two
    entries happen to be equal. *)
Theorem makeMove_clearCastling_hash_drift
    (zobrist : Zobrist.t) (PieceType_getValue : Z -> Z) :
  let p := default (Position_new 8)
             (toPosition zobrist PieceType_getValue 8 "4k3/8/8/8/8/8/8/4K2R w K - 0 1") in
  let m := move.valueOf movetype.NORMAL Square.h1 Square.g1
             piece.WHITE_ROOK piece.NOPIECE 6 in
  zobristKey p = zobristKey_from_scratch zobrist p
  /\ exists p',
       makeMove zobrist PieceType_getValue m p = Some p'
       /\ castlingRights p = castling.WHITE_KINGSIDE
       /\ castlingRights p' = castling.NOCASTLING
       /\ zobristKey p'
          = Z.lxor (zobristKey_from_scratch zobrist p')
              (Z.lxor (Zobrist.castlingRights zobrist castling.WHITE_KINGSIDE)
                      (Zobrist.castlingRights zobrist castling.NOCASTLING))
       /\ (zobristKey p' = zobristKey_from_scratch zobrist p'
           <-> Zobrist.castlingRights zobrist castling.WHITE_KINGSIDE
               = Zobrist.castlingRights zobrist castling.NOCASTLING).
Proof.
  intros p m.
  assert (Heval :
    zobristKey p = zobristKey_from_scratch zobrist p
    /\ exists p',
         makeMove zobrist PieceType_getValue m p = Some p'
         /\ castlingRights p = castling.WHITE_KINGSIDE
         /\ castlingRights p' = castling.NOCASTLING
         /\ zobristKey p'
            = Z.lxor (zobristKey_from_scratch zobrist p')
                (Z.lxor (Zobrist.castlingRights zobrist castling.WHITE_KINGSIDE)
                        (Zobrist.castlingRights zobrist castling.NOCASTLING))).
  { subst p m. cbv -[Z.lxor]. split; [xor_solve|].
    eexists. split; [reflexivity|]. split; [reflexivity|]. split; [reflexivity|].
    change (Z.lxor 0 0) with 0. xor_solve. }
  destruct Heval as (Hp & p' & Hmake & Hr & Hr' & Hkey).
  split; [exact Hp|]. exists p'. repeat (split; [assumption|]).
  by apply lxor_drift.
Qed.

(** With the sample tables the hash from scratch is the maintained one
    after parsing and after moves that clear no castling right, and is
    not after a move that clears one. *)
Example zobristKey_examples :
  let agree p := zobristKey p =? zobristKey_from_scratch sample_zobrist p in
  let after fen type o t op tp :=
    default (Position_new 8)
      (makeMove sample_zobrist sample_getValue (move.valueOf type o t op tp 6)
         (sample_position fen)) in
  agree (Position_new 8)
  && agree (sample_position STANDARDPOSITION)
  && agree (sample_position "r3k2r/8/8/3pP3/8/8/8/R3K2R b Qk d6 3 9"%string)
  && agree (after STANDARDPOSITION movetype.PAWNDOUBLE 20 52 piece.WHITE_PAWN piece.NOPIECE)
  && agree (after STANDARDPOSITION movetype.NORMAL 6 37 piece.WHITE_KNIGHT piece.NOPIECE)
  && agree (after "4k3/8/8/3pP3/8/8/8/4K3 w - d6 0 1"%string
              movetype.ENPASSANT 68 83 piece.WHITE_PAWN piece.BLACK_PAWN)
  && negb (agree (after "4k3/8/8/8/8/8/8/4K2R w K - 0 1"%string
                    movetype.NORMAL Square.h1 Square.g1 piece.WHITE_ROOK piece.NOPIECE))
  && negb (agree (after "r3k2r/8/8/8/8/8/8/R3K2R w KQkq - 0 1"%string
                    movetype.CASTLING Square.e1 Square.g1 piece.WHITE_KING piece.NOPIECE))
  = true.
Proof. vm_compute. reflexivity. Qed.

(** * Further properties of the position *)

(** ** Shapes are kept by the primitives *)

Lemma shape_ok_iff (p : Position) :
  shape_ok p = true <->
  length (board p) = 128%nat /\ pieces_shape (pieces p) /\ length (material p) = 2%nat.
Proof.
  unfold shape_ok, pieces_shape. rewrite !andb_true_iff, !Nat.eqb_eq.
  assert (Hrows : forallb (fun row => (length row =? 6)%nat && forallb bitboard_ok row)
                    (pieces p) = true
                  <-> Forall (fun row => length row = 6%nat
                              /\ Forall (fun bb => bitboard_ok bb = true) row) (pieces p)).
  { rewrite forallb_forall, Forall_forall. split; intros H row Hin.
    - apply list_elem_of_In in Hin. specialize (H _ Hin).
      apply andb_true_iff in H as [Hl Hb]. apply Nat.eqb_eq in Hl.
      split; [done|]. rewrite forallb_forall in Hb. apply Forall_forall.
      intros bb Hbb. apply Hb. by apply list_elem_of_In.
    - apply list_elem_of_In in Hin. destruct (H _ Hin) as [Hl Hb].
      apply andb_true_iff. split; [by apply Nat.eqb_eq|].
      apply forallb_forall. intros bb Hbb. rewrite Forall_forall in Hb.
      apply Hb. by apply list_elem_of_In. }
  rewrite Hrows. tauto.
Qed.

Lemma pieces_get_shape (ps : list (list Z)) (c t bb : Z) :
  pieces_shape ps -> pieces_get ps c t = Some bb -> bitboard_ok bb = true.
Proof.
  intros [_ Hrows] Hget. unfold pieces_get in Hget.
  destruct (array_get ps c) as [row|] eqn:Hrow; [|discriminate]. simpl in Hget.
  apply array_get_inv in Hrow as [_ Hrow]. apply array_get_inv in Hget as [_ Hget].
  rewrite Forall_forall in Hrows.
  destruct (Hrows row ltac:(by eapply list_elem_of_lookup_2)) as [_ Hbbs].
  rewrite Forall_forall in Hbbs. apply Hbbs. by eapply list_elem_of_lookup_2.
Qed.

Lemma pieces_set_shape (ps ps' : list (list Z)) (c t x : Z) :
  pieces_shape ps -> bitboard_ok x = true ->
  pieces_set ps c t x = Some ps' -> pieces_shape ps'.
Proof.
  intros [Hlen Hrows] Hx (row & row' & Hrow & Hset & Hps)%pieces_set_inv.
  apply array_set_inv in Hset as [_ ->]. apply array_set_inv in Hps as [_ ->].
  apply array_get_inv in Hrow as [_ Hrow].
  split; [by rewrite length_insert|].
  apply Forall_insert; [done|].
  rewrite Forall_forall in Hrows.
  destruct (Hrows row ltac:(by eapply list_elem_of_lookup_2)) as [Hl Hbbs].
  split; [by rewrite length_insert | by apply Forall_insert].
Qed.

Section Shapes.

Variable zobrist : Zobrist.t.
Variable PieceType_getValue : Z -> Z.

Lemma put_shape_ok (p p' : Position) (pc s : Z) :
  put zobrist PieceType_getValue pc s p = Some p' ->
  validSquare s = true -> shape_ok p = true -> shape_ok p' = true.
Proof.
  intros Hput Hs. rewrite !shape_ok_iff. intros (Hb & Hps & Hm).
  unfold put in Hput.
  destruct (piece.getType pc) as [t|]; simpl in Hput; [|discriminate].
  destruct (piece.getColor pc) as [c|]; simpl in Hput; [|discriminate].
  destruct (array_set (board p) s pc) as [b'|] eqn:Hb'; simpl in Hput; [|discriminate].
  destruct (pieces_get (pieces p) c t) as [bb|] eqn:Hbb; simpl in Hput; [|discriminate].
  destruct (pieces_set (pieces p) c t (bitboard.add s bb)) as [ps'|] eqn:Hps';
    simpl in Hput; [|discriminate].
  destruct (array_get (material p) c) as [mt|]; simpl in Hput; [|discriminate].
  destruct (array_set (material p) c _) as [m'|] eqn:Hm'; simpl in Hput; [|discriminate].
  injection Hput as <-. simpl.
  split; [by rewrite (array_set_length _ _ _ _ Hb')|].
  split; [|by rewrite (array_set_length _ _ _ _ Hm')].
  eapply pieces_set_shape; [exact Hps | | exact Hps'].
  apply bitboard_add_ok; [done|]. by eapply pieces_get_shape.
Qed.

Lemma remove_shape_ok (p p' : Position) (pc s : Z) :
  remove zobrist PieceType_getValue s p = Some (pc, p') ->
  validSquare s = true -> shape_ok p = true -> shape_ok p' = true.
Proof.
  intros Hrem Hs. rewrite !shape_ok_iff. intros (Hb & Hps & Hm).
  unfold remove in Hrem.
  destruct (array_get (board p) s) as [x|]; simpl in Hrem; [|discriminate].
  destruct (piece.getType x) as [t|]; simpl in Hrem; [|discriminate].
  destruct (piece.getColor x) as [c|]; simpl in Hrem; [|discriminate].
  destruct (array_set (board p) s piece.NOPIECE) as [b'|] eqn:Hb';
    simpl in Hrem; [|discriminate].
  destruct (pieces_get (pieces p) c t) as [bb|] eqn:Hbb; simpl in Hrem; [|discriminate].
  destruct (pieces_set (pieces p) c t (bitboard.remove s bb)) as [ps'|] eqn:Hps';
    simpl in Hrem; [|discriminate].
  destruct (array_get (material p) c) as [mt|]; simpl in Hrem; [|discriminate].
  destruct (array_set (material p) c _) as [m'|] eqn:Hm'; simpl in Hrem; [|discriminate].
  injection Hrem as <- <-. simpl.
  split; [by rewrite (array_set_length _ _ _ _ Hb')|].
  split; [|by rewrite (array_set_length _ _ _ _ Hm')].
  eapply pieces_set_shape; [exact Hps | | exact Hps'].
  apply bitboard_remove_ok; [done|]. by eapply pieces_get_shape.
Qed.

(** The invariant is kept by a [remove], and by a [put] that a [remove]
    reverts. *)
Lemma remove_Inv (p p' : Position) (pc s : Z) :
  remove zobrist PieceType_getValue s p = Some (pc, p') ->
  validSquare s = true -> Inv p -> Inv p'.
Proof.
  intros Hrem Hs Hinv.
  destruct (remove_inv _ _ _ _ _ _ Hrem) as (Hx & Hxv & _).
  destruct (remove_spec zobrist PieceType_getValue p pc s Hinv Hxv Hs Hx)
    as (p'' & Hrem' & _ & Hinv' & _).
  congruence.
Qed.

Lemma put_Inv (p p' : Position) (pc s : Z) :
  put zobrist PieceType_getValue pc s p = Some p' ->
  remove zobrist PieceType_getValue s p' = Some (pc, p) ->
  validSquare s = true -> Inv p -> Inv p'.
Proof.
  intros Hput Hrem Hs Hinv.
  destruct (remove_inv _ _ _ _ _ _ Hrem) as (_ & Hpcv & Hset & _).
  pose proof (array_get_set_eq _ _ _ _ Hset) as Hempty.
  destruct (put_spec zobrist PieceType_getValue p pc s Hinv Hpcv Hs Hempty)
    as (p'' & Hput' & _ & Hinv' & _).
  congruence.
Qed.

End Shapes.

Lemma Inv_occupancy_ok (p : Position) : Inv p -> occupancy_ok p = true.
Proof.
  intros (_ & _ & Hps). unfold occupancy_ok.
  apply forallb_forall. intros s Hs%validSquare_values.
  apply forallb_forall. intros pc Hpc.
  unfold piece_values in Hpc. apply in_map_iff in Hpc as (n & <- & Hn%in_seq).
  assert (Hr : 0 <= Z.of_nat n < 12) by lia.
  destruct (Hps (Z.of_nat n / 6) (Z.of_nat n mod 6)) as (bb & Hbb & _ & Hocc).
  { split; [apply Z.div_pos; lia | apply Z.div_lt_upper_bound; lia]. }
  { apply Z.mod_pos_bound. lia. }
  destruct (Hocc s Hs) as (x & Hx & Hmem). rewrite Hx, Hbb, Hmem.
  replace (Z.of_nat n / 6 * 6 + Z.of_nat n mod 6) with (Z.of_nat n)
    by (rewrite Z.mul_comm; apply Z.div_mod; lia).
  apply eqb_reflx.
Qed.

Lemma board_ok_intro (p : Position) : shape_ok p = true -> Inv p -> board_ok p = true.
Proof.
  intros Hs Hi. unfold board_ok. by rewrite Hs, (Inv_occupancy_ok p Hi).
Qed.

(** ** What makeMove leaves behind *)

Lemma clearedRights_subset (s r : Z) : Z.land (clearedRights s r) r = clearedRights s r.
Proof.
  unfold clearedRights, clearCastling_mask.
  repeat (match goal with
          | |- context [if ?b then _ else _] => destruct b
          end);
    try apply Z.land_diag;
    rewrite (Z.land_comm r), <- Z.land_assoc, Z.land_diag; reflexivity.
Qed.

Lemma clearedRights_other (s r : Z) :
  s <> Square.a1 -> s <> Square.a8 -> s <> Square.h1 -> s <> Square.h8 ->
  s <> Square.e1 -> s <> Square.e8 -> clearedRights s r = r.
Proof.
  intros. unfold clearedRights, clearCastling_mask.
  repeat (match goal with
          | |- context [?a =? ?b] => destruct (Z.eqb_spec a b); [done|]
          end).
  reflexivity.
Qed.

Section MakeMoveResult.

Variable zobrist : Zobrist.t.
Variable PieceType_getValue : Z -> Z.

Lemma clearCastling_rights (q : Position) (s : Z) :
  castlingRights (clearCastling zobrist s q) = clearedRights s (castlingRights q).
Proof.
  unfold clearCastling, clearedRights.
  destruct (clearCastling_mask s (castlingRights q)) as [n|]; [|reflexivity].
  destruct (Z.eqb_spec n (castlingRights q)) as [->|]; reflexivity.
Qed.

Lemma makeMove_update_fields (m : move.t) (oc : Z) (q Q : Position) :
  makeMove_update zobrist m oc q = Some Q ->
  castlingRights Q = clearedRights (move.getOriginSquare m) (castlingRights q)
  /\ enPassantSquare Q
     = (if move.getType m =? movetype.PAWNDOUBLE
        then move.getTargetSquare m + (if oc =? color.WHITE then Square.S else Square.N)
        else Square.NOSQUARE).
Proof.
  unfold makeMove_update. rewrite <- clearCastling_rights.
  generalize (clearCastling zobrist (move.getOriginSquare m) q). intros q'.
  destruct (negb (enPassantSquare q' =? Square.NOSQUARE));
    destruct (move.getType m =? movetype.PAWNDOUBLE);
    cbn [xor_zobristKey set_zobristKey set_enPassantSquare activeColor];
    (destruct (color.opposite (activeColor q')); [|discriminate]);
    (destruct (piece.getType (move.getOriginPiece m)); [|discriminate]);
    simpl; destruct ((_ =? PieceType.PAWN) || _); intros [= <-]; split; reflexivity.
Qed.

(** [makeMove] on a well-formed position and a move within the caller
    discipline: the position it returns, as the board, occupancy sets
    and material reached by its puts and removes, and the other fields. *)
Lemma makeMove_result (p : Position) (m : move.t) :
  position_ok p = true -> move_ok p m = true ->
  let type := move.getType m in
  let o := move.getOriginSquare m in
  let t := move.getTargetSquare m in
  let op := move.getOriginPiece m in
  let tp := move.getTargetPiece m in
  let cap := captureSquareOf type t (op / 6) in
  exists X1 X2 X3 X4 Q,
    ((if tp =? piece.NOPIECE then X1 = p
      else remove zobrist PieceType_getValue cap p = Some (tp, X1)
           /\ put zobrist PieceType_getValue tp cap X1 = Some p)
     /\ remove zobrist PieceType_getValue o X1 = Some (op, X2)
     /\ put zobrist PieceType_getValue op o X2 = Some X1
     /\ ((type =? movetype.PAWNPROMOTION) = true ->
         piece.valueOf (op / 6) (move.getPromotion m) = Some (placedPiece m))
     /\ put zobrist PieceType_getValue (placedPiece m) t X2 = Some X3
     /\ remove zobrist PieceType_getValue t X3 = Some (placedPiece m, X2)
     /\ (if type =? movetype.CASTLING then
           exists rO rT rook Xr,
             castlingRookSquares t = Some (rO, rT)
             /\ remove zobrist PieceType_getValue rO X3 = Some (rook, Xr)
             /\ put zobrist PieceType_getValue rook rO Xr = Some X3
             /\ put zobrist PieceType_getValue rook rT Xr = Some X4
             /\ remove zobrist PieceType_getValue rT X4 = Some (rook, Xr)
         else X4 = X3))
    /\ makeMove zobrist PieceType_getValue m p = Some (with_core Q X4)
    /\ color.opposite (activeColor p) = Some (activeColor Q)
    /\ halfmoveClock Q
       = (if (op mod 6 =? PieceType.PAWN) || negb (tp =? piece.NOPIECE)
          then 0 else halfmoveClock p + 1)
    /\ halfmoveNumber Q = halfmoveNumber p + 1
    /\ array_set (states p) (statesSize p)
         (State.make (zobristKey p) (castlingRights p) (enPassantSquare p)
            (halfmoveClock p)) = Some (states Q)
    /\ statesSize Q = statesSize p + 1
    /\ castlingRights Q
       = clearedRights o (if tp =? piece.NOPIECE then castlingRights p
                          else clearedRights cap (castlingRights p))
    /\ enPassantSquare Q
       = (if type =? movetype.PAWNDOUBLE
          then t + (if op / 6 =? color.WHITE then Square.S else Square.N)
          else Square.NOSQUARE).
Proof.
  intros Hpok Hok type o t op tp cap. subst type o t op tp cap.
  destruct (position_ok_inv p Hpok) as (Hinv & Hcol & Hss).
  destruct (move_ok_inv p m Hok) as (Hroom & Hop).
  pose proof (core_path zobrist PieceType_getValue p m Hinv Hok) as Hcore.
  cbv zeta in Hcore.
  destruct Hcore as (X1 & X2 & X3 & X4 & Hcore).
  pose proof Hcore as (Hcap & Hrem2 & Hput2 & Hval & Hput3 & Hrem3 & Hrook).
  destruct (piece_unpack _ Hop) as (_ & Hgc & _).
  set (entry := State.make (zobristKey p) (castlingRights p) (enPassantSquare p)
                  (halfmoveClock p)).
  pose proof (array_set_Some (states p) (statesSize p) entry ltac:(lia)) as Hset.
  set (states' := <[Z.to_nat (statesSize p) := entry]> (states p)) in *.
  set (p0 := set_statesSize (statesSize p + 1) (set_states states' p)).
  assert (exists q1, makeMove_capture zobrist PieceType_getValue m (move.getOriginPiece m / 6) (with_core p0 p)
                     = Some (with_core q1 X1) /\ frame q1 = frame p0
                     /\ castlingRights q1
                        = (if move.getTargetPiece m =? piece.NOPIECE then castlingRights p
                           else clearedRights (captureSquareOf (move.getType m) (move.getTargetSquare m) (move.getOriginPiece m / 6)) (castlingRights p)))
    as (q1 & Hm1 & Hf1 & Hr1).
  { unfold makeMove_capture.
    destruct (move.getTargetPiece m =? piece.NOPIECE); simpl.
    - subst X1. by exists p0.
    - destruct Hcap as [Hrem _]. rewrite (remove_on_core _ _ _ _ _ _ _ Hrem). simpl.
      rewrite clearCastling_with_core. eexists. split; [reflexivity|].
      split; [by rewrite clearCastling_frame_eq | by rewrite clearCastling_rights]. }
  assert (exists q3, makeMove_move zobrist PieceType_getValue m (move.getOriginPiece m / 6) (with_core q1 X1)
                     = Some (with_core q3 X3) /\ frame q3 = frame q1
                     /\ castlingRights q3 = castlingRights q1)
    as (q3 & Hm3 & Hf3 & Hr3).
  { unfold makeMove_move.
    rewrite (remove_on_core _ _ _ _ _ _ _ Hrem2). simpl.
    unfold placedPiece in Hput3, Hval.
    destruct (move.getType m =? movetype.PAWNPROMOTION).
    - rewrite (Hval eq_refl). simpl.
      rewrite (put_on_core _ _ _ _ _ _ _ Hput3). by eexists.
    - rewrite (put_on_core _ _ _ _ _ _ _ Hput3). by eexists. }
  assert (exists q4, makeMove_rook zobrist PieceType_getValue m (with_core q3 X3)
                     = Some (with_core q4 X4) /\ frame q4 = frame q3
                     /\ castlingRights q4 = castlingRights q3)
    as (q4 & Hm4 & Hf4 & Hr4).
  { unfold makeMove_rook.
    destruct (move.getType m =? movetype.CASTLING).
    - destruct Hrook as (rO & rT & rook & Xr & Hsq & Hremr & _ & Hput4 & _).
      rewrite Hsq. simpl. rewrite (remove_on_core _ _ _ _ _ _ _ Hremr). simpl.
      rewrite (put_on_core _ _ _ _ _ _ _ Hput4). by eexists.
    - subst X4. by exists q3. }
  assert (Hfr : frame q4 = frame p0) by congruence.
  injection Hfr as Hc4 Hk4 Hn4 Hs4 Hz4.
  destruct (makeMove_update_spec zobrist m (move.getOriginPiece m / 6) q4 ltac:(by rewrite Hc4) Hop)
    as (Q & HQ & Hopp & _ & HkQ & HnQ & HsQ & HzQ).
  destruct (makeMove_update_fields m (move.getOriginPiece m / 6) q4 Q HQ) as (HrQ & HeQ).
  exists X1, X2, X3, X4, Q. split; [exact Hcore|].
  split; [|repeat split].
  - unfold makeMove, makeMove_save. fold entry. rewrite Hset. simpl.
    rewrite Hgc. simpl. fold p0.
    replace p0 with (with_core p0 p) by (by destruct p).
    rewrite Hm1. simpl. rewrite Hm3. simpl. rewrite Hm4. simpl.
    by rewrite makeMove_update_with_core, HQ.
  - by rewrite <- Hopp, Hc4.
  - by rewrite HkQ, Hk4.
  - by rewrite HnQ, Hn4.
  - by rewrite HsQ, Hs4.
  - by rewrite HzQ, Hz4.
  - by rewrite HrQ, Hr4, Hr3, Hr1.
  - exact HeQ.
Qed.

End MakeMoveResult.

Lemma move_ok_squares (p : Position) (m : move.t) :
  move_ok p m = true ->
  validSquare (move.getOriginSquare m) = true
  /\ validSquare (move.getTargetSquare m) = true
  /\ (move.getTargetPiece m <> piece.NOPIECE ->
      validSquare (captureSquareOf (move.getType m) (move.getTargetSquare m)
                     (move.getOriginPiece m / 6)) = true).
Proof.
  unfold move_ok. rewrite !andb_true_iff.
  intros [[[[[[[_ Ho] Ht] _] _] Hcapture] _] _]. split; [done | split; [done|]].
  intros Hne. apply Z.eqb_neq in Hne. rewrite Hne in Hcapture.
  rewrite !andb_true_iff in Hcapture. tauto.
Qed.

Lemma isRepetition_window (p : Position) :
  halfmoveClock p < 2 \/ statesSize p < 2 -> isRepetition p = Some false.
Proof.
  intros H. unfold isRepetition.
  destruct (Z.to_nat (statesSize p)); cbn [isRepetition_loop];
    rewrite Z.geb_leb; destruct (Z.leb_spec (Z.max 0 (statesSize p - halfmoveClock p))
                                   (statesSize p - 2)); (lia || reflexivity).
Qed.

Section MakeMoveProperties.

Variable zobrist : Zobrist.t.
Variable PieceType_getValue : Z -> Z.

(** X1.  [makeMove] keeps the position well-formed: board array and
    occupancy sets still agree and have their shapes, there is a side
    to move, and the history depth is within the capacity.  So a
    position stays well-formed along any sequence of moves within the
    caller discipline. *)
Theorem makeMove_position_ok (p : Position) (m : move.t) :
  position_ok p = true ->
  move_ok p m = true ->
  exists p1, makeMove zobrist PieceType_getValue m p = Some p1
             /\ position_ok p1 = true.
Proof.
  intros Hpok Hok.
  destruct (makeMove_result zobrist PieceType_getValue p m Hpok Hok)
    as (X1 & X2 & X3 & X4 & Q & Hcore & Hmake & Hopp & _ & _ & Hst & Hsz & _).
  destruct Hcore as (Hcap & Hrem2 & _ & _ & Hput3 & Hrem3 & Hrook).
  destruct (move_ok_squares p m Hok) as (Ho & Ht & Hcapv).
  destruct (move_ok_inv p m Hok) as (Hroom & _).
  destruct (position_ok_inv p Hpok) as (Hinv & Hcol & Hss).
  assert (Hshape : shape_ok p = true).
  { unfold position_ok, board_ok in Hpok. rewrite !andb_true_iff in Hpok. tauto. }
  exists (with_core Q X4). split; [exact Hmake|].
  assert (H1 : shape_ok X1 = true /\ Inv X1).
  { destruct (Z.eqb_spec (move.getTargetPiece m) piece.NOPIECE) as [|Hne].
    - by subst X1.
    - destruct Hcap as [Hrem _]. specialize (Hcapv Hne).
      split; [exact (remove_shape_ok _ _ _ _ _ _ Hrem Hcapv Hshape)
             | exact (remove_Inv _ _ _ _ _ _ Hrem Hcapv Hinv)]. }
  destruct H1 as [Hs1 Hi1].
  pose proof (remove_shape_ok _ _ _ _ _ _ Hrem2 Ho Hs1) as Hs2.
  pose proof (remove_Inv _ _ _ _ _ _ Hrem2 Ho Hi1) as Hi2.
  pose proof (put_shape_ok _ _ _ _ _ _ Hput3 Ht Hs2) as Hs3.
  pose proof (put_Inv _ _ _ _ _ _ Hput3 Hrem3 Ht Hi2) as Hi3.
  assert (H4 : shape_ok X4 = true /\ Inv X4).
  { destruct (move.getType m =? movetype.CASTLING).
    - destruct Hrook as (rO & rT & rook & Xr & Hsq & Hremr & _ & Hput4 & Hrem4).
      destruct (castlingRookSquares_inv _ _ _ Hsq) as (HrO & HrT & _).
      pose proof (remove_shape_ok _ _ _ _ _ _ Hremr HrO Hs3) as Hsr.
      pose proof (remove_Inv _ _ _ _ _ _ Hremr HrO Hi3) as Hir.
      split; [exact (put_shape_ok _ _ _ _ _ _ Hput4 HrT Hsr)
             | exact (put_Inv _ _ _ _ _ _ Hput4 Hrem4 HrT Hir)].
    - by subst X4. }
  destruct H4 as [Hs4 Hi4].
  unfold position_ok.
  change (board_ok (with_core Q X4)) with (board_ok X4).
  rewrite (board_ok_intro X4 Hs4 Hi4).
  cbn [with_core activeColor statesSize states andb].
  rewrite Hsz, (array_set_length _ _ _ _ Hst).
  assert (Hc : color.isValid (activeColor Q) = true).
  { unfold color.isValid, color.opposite, color.WHITE, color.BLACK in *.
    destruct (activeColor p =? 0); [by injection Hopp as <-|].
    destruct (activeColor p =? 1); [by injection Hopp as <-|discriminate]. }
  rewrite Hc. cbn [andb]. apply andb_true_iff. split; lia.
Qed.

(** X2.  The bookkeeping of [makeMove]: the side to move flips, the
    halfmove number, an [int], grows by one when it is below the largest
    [int], the snapshot of hash, rights, en-passant square and clock is
    pushed on the history and no other entry of the history changes,
    the en-passant square is the skipped square after a double pawn
    push and none otherwise. *)
Theorem makeMove_bookkeeping (p : Position) (m : move.t) :
  position_ok p = true ->
  move_ok p m = true ->
  exists p1, makeMove zobrist PieceType_getValue m p = Some p1
    /\ color.opposite (activeColor p) = Some (activeColor p1)
    /\ (halfmoveNumber p < 2 ^ 31 - 1 -> halfmoveNumber p1 = halfmoveNumber p + 1)
    /\ statesSize p1 = statesSize p + 1
    /\ array_get (states p1) (statesSize p)
       = Some (State.make (zobristKey p) (castlingRights p) (enPassantSquare p)
                 (halfmoveClock p))
    /\ (forall i, i <> statesSize p -> array_get (states p1) i = array_get (states p) i)
    /\ enPassantSquare p1
       = (if move.getType m =? movetype.PAWNDOUBLE
          then move.getTargetSquare m
               + (if move.getOriginPiece m / 6 =? color.WHITE then Square.S else Square.N)
          else Square.NOSQUARE).
Proof.
  intros Hpok Hok.
  destruct (makeMove_result zobrist PieceType_getValue p m Hpok Hok)
    as (X1 & X2 & X3 & X4 & Q & _ & Hmake & Hopp & _ & Hn & Hst & Hsz & _ & Hep).
  exists (with_core Q X4). split; [exact Hmake|].
  cbn [with_core activeColor halfmoveNumber statesSize states enPassantSquare].
  repeat split; try done.
  - by eapply array_get_set_eq.
  - intros i Hi. eapply array_get_set_ne; [exact Hst | congruence].
Qed.

(** X3.  [makeMove] never grants a castling right: the rights after the move
    are among the rights before it; and they are the same unless the
    origin square or the capture square is a king or rook home square. *)
Theorem makeMove_castlingRights (p : Position) (m : move.t) :
  position_ok p = true ->
  move_ok p m = true ->
  let home := [Square.a1; Square.a8; Square.h1; Square.h8; Square.e1; Square.e8] in
  exists p1, makeMove zobrist PieceType_getValue m p = Some p1
    /\ Z.land (castlingRights p1) (castlingRights p) = castlingRights p1
    /\ (~ In (move.getOriginSquare m) home ->
        (move.getTargetPiece m = piece.NOPIECE
         \/ ~ In (captureSquareOf (move.getType m) (move.getTargetSquare m)
                    (move.getOriginPiece m / 6)) home) ->
        castlingRights p1 = castlingRights p).
Proof.
  intros Hpok Hok home.
  destruct (makeMove_result zobrist PieceType_getValue p m Hpok Hok)
    as (X1 & X2 & X3 & X4 & Q & _ & Hmake & _ & _ & _ & _ & _ & Hr & _).
  exists (with_core Q X4). split; [exact Hmake|].
  cbn [with_core castlingRights]. rewrite Hr. split.
  - set (r' := if move.getTargetPiece m =? piece.NOPIECE then castlingRights p
               else clearedRights _ (castlingRights p)).
    assert (Hr' : Z.land r' (castlingRights p) = r').
    { subst r'. destruct (_ =? piece.NOPIECE);
        [apply Z.land_diag | apply clearedRights_subset]. }
    rewrite <- (clearedRights_subset _ r') at 1.
    by rewrite <- Z.land_assoc, Hr', clearedRights_subset.
  - intros Ho Hc.
    assert (Hother : forall s r, ~ In s home -> clearedRights s r = r).
    { intros s r Hs. apply clearedRights_other; intros ->; apply Hs; cbn; tauto. }
    rewrite (Hother _ _ Ho).
    destruct (Z.eqb_spec (move.getTargetPiece m) piece.NOPIECE) as [|Hne]; [done|].
    destruct Hc as [|Hc]; [done|]. by apply Hother.
Qed.

(** X4.  Right after a pawn move or a capture no repetition is reported,
    whatever the history holds. *)
Theorem makeMove_isRepetition (p : Position) (m : move.t) :
  position_ok p = true ->
  move_ok p m = true ->
  piece.getType (move.getOriginPiece m) = Some PieceType.PAWN
  \/ move.getTargetPiece m <> piece.NOPIECE ->
  exists p1, makeMove zobrist PieceType_getValue m p = Some p1
             /\ isRepetition p1 = Some false.
Proof.
  intros Hpok Hok Hirr.
  destruct (makeMove_result zobrist PieceType_getValue p m Hpok Hok)
    as (X1 & X2 & X3 & X4 & Q & _ & Hmake & _ & Hk & _).
  exists (with_core Q X4). split; [exact Hmake|].
  apply isRepetition_window. left. cbn [with_core halfmoveClock]. rewrite Hk.
  destruct (move_ok_inv p m Hok) as (_ & Hop).
  destruct (piece_unpack _ Hop) as (Hty & _). rewrite Hty in Hirr.
  destruct Hirr as [[= ->] | Hne].
  - rewrite Z.eqb_refl. simpl. lia.
  - apply Z.eqb_neq in Hne. rewrite Hne, orb_true_r. lia.
Qed.

End MakeMoveProperties.

Lemma move_ok_castling (p : Position) (m : move.t) :
  move_ok p m = true ->
  (move.getType m =? movetype.CASTLING) = true ->
  move.getTargetPiece m = piece.NOPIECE
  /\ exists rO rT, castlingRookSquares (move.getTargetSquare m) = Some (rO, rT)
                   /\ move.getOriginSquare m <> rO /\ move.getOriginSquare m <> rT.
Proof.
  unfold move_ok. rewrite !andb_true_iff.
  intros [_ Hcastle] Hty. rewrite Hty in Hcastle.
  apply andb_true_iff in Hcastle as [Htp%Z.eqb_eq Hrook]. split; [done|].
  destruct (castlingRookSquares (move.getTargetSquare m)) as [[rO rT]|]; [|discriminate].
  rewrite !andb_true_iff in Hrook. destruct Hrook as [[[HorO HorT] _] _].
  apply negb_true_iff, Z.eqb_neq in HorO, HorT. by exists rO, rT.
Qed.

Section MakeMoveBoard.

Variable zobrist : Zobrist.t.
Variable PieceType_getValue : Z -> Z.

(** X5.  The board after [makeMove]: the target square holds the moved piece
    (the promoted piece for a promotion), the origin square and the
    capture square of an en-passant capture are empty, a castling move
    has carried the rook from its origin to its target, and every other
    square holds what it held. *)
Theorem makeMove_board (p : Position) (m : move.t) :
  position_ok p = true ->
  move_ok p m = true ->
  let type := move.getType m in
  let o := move.getOriginSquare m in
  let t := move.getTargetSquare m in
  let tp := move.getTargetPiece m in
  let cap := captureSquareOf type t (move.getOriginPiece m / 6) in
  exists p1, makeMove zobrist PieceType_getValue m p = Some p1
    /\ pieceAt p1 t = placedPiece m
    /\ (o <> t -> pieceAt p1 o = piece.NOPIECE)
    /\ (tp <> piece.NOPIECE -> cap <> t -> pieceAt p1 cap = piece.NOPIECE)
    /\ (forall rO rT, type = movetype.CASTLING ->
          castlingRookSquares t = Some (rO, rT) ->
          pieceAt p1 rT = pieceAt p rO /\ pieceAt p1 rO = piece.NOPIECE)
    /\ (forall s, s <> t -> s <> o -> (tp = piece.NOPIECE \/ s <> cap) ->
          (forall rO rT, type = movetype.CASTLING ->
             castlingRookSquares t = Some (rO, rT) -> s <> rO /\ s <> rT) ->
          pieceAt p1 s = pieceAt p s).
Proof.
  intros Hpok Hok type o t tp cap. subst type o t tp cap.
  destruct (makeMove_result zobrist PieceType_getValue p m Hpok Hok)
    as (X1 & X2 & X3 & X4 & Q & Hcore & Hmake & _).
  destruct Hcore as (Hcap & Hrem2 & _ & _ & Hput3 & _ & Hrook).
  exists (with_core Q X4). split; [exact Hmake|].
  destruct (remove_inv _ _ _ _ _ _ Hrem2) as (_ & _ & Hb2 & _).
  destruct (put_inv _ _ _ _ _ _ Hput3) as (Hb3 & _).
  assert (Hb1 : forall s, (move.getTargetPiece m = piece.NOPIECE
                           \/ s <> captureSquareOf (move.getType m) (move.getTargetSquare m)
                                     (move.getOriginPiece m / 6)) ->
                  array_get (board X1) s = array_get (board p) s).
  { intros s Hs. destruct (Z.eqb_spec (move.getTargetPiece m) piece.NOPIECE) as [|Hne].
    - by subst X1.
    - destruct Hcap as [Hrem _]. destruct (remove_inv _ _ _ _ _ _ Hrem) as (_ & _ & Hb & _).
      destruct Hs as [|Hs]; [done|]. eapply array_get_set_ne; [exact Hb | congruence]. }
  assert (Hb1c : move.getTargetPiece m <> piece.NOPIECE ->
                 array_get (board X1)
                   (captureSquareOf (move.getType m) (move.getTargetSquare m)
                      (move.getOriginPiece m / 6)) = Some piece.NOPIECE).
  { intros Hne. apply Z.eqb_neq in Hne. rewrite Hne in Hcap. destruct Hcap as [Hrem _].
    destruct (remove_inv _ _ _ _ _ _ Hrem) as (_ & _ & Hb & _).
    by eapply array_get_set_eq. }
  unfold pieceAt. cbn [with_core board].
  destruct (move.getType m =? movetype.CASTLING) eqn:Hty.
  - destruct (move_ok_castling p m Hok Hty) as (Htp & rO & rT & Hsq & HorO & HorT).
    destruct Hrook as (rO' & rT' & rook & Xr & Hsq' & Hremr & _ & Hput4 & _).
    rewrite Hsq in Hsq'. injection Hsq' as <- <-.
    destruct (castlingRookSquares_inv _ _ _ Hsq) as (_ & _ & Hne & HrOt & HrTt).
    destruct (remove_inv _ _ _ _ _ _ Hremr) as (Hgr & _ & Hbr & _).
    destruct (put_inv _ _ _ _ _ _ Hput4) as (Hb4 & _).
    assert (Hrook : array_get (board p) rO = Some rook).
    { rewrite <- Hgr.
      rewrite (array_get_set_ne _ _ _ _ _ Hb3) by congruence.
      rewrite (array_get_set_ne _ _ _ _ _ Hb2) by congruence.
      symmetry. apply Hb1. by left. }
    split; [|split; [|split; [|split]]].
    + rewrite (array_get_set_ne _ _ _ _ _ Hb4) by congruence.
      rewrite (array_get_set_ne _ _ _ _ _ Hbr) by congruence.
      by rewrite (array_get_set_eq _ _ _ _ Hb3).
    + intros Hot.
      rewrite (array_get_set_ne _ _ _ _ _ Hb4) by congruence.
      rewrite (array_get_set_ne _ _ _ _ _ Hbr) by congruence.
      rewrite (array_get_set_ne _ _ _ _ _ Hb3) by congruence.
      by rewrite (array_get_set_eq _ _ _ _ Hb2).
    + intros Hne'. done.
    + intros rO' rT' _ Hsq'. rewrite Hsq in Hsq'. injection Hsq' as <- <-.
      rewrite (array_get_set_eq _ _ _ _ Hb4), Hrook. split; [reflexivity|].
      rewrite (array_get_set_ne _ _ _ _ _ Hb4) by congruence.
      by rewrite (array_get_set_eq _ _ _ _ Hbr).
    + intros s Hst Hso Hsc Hsr.
      destruct (Hsr rO rT) as [HsrO HsrT]; [by apply Z.eqb_eq | done |].
      rewrite (array_get_set_ne _ _ _ _ _ Hb4) by congruence.
      rewrite (array_get_set_ne _ _ _ _ _ Hbr) by congruence.
      rewrite (array_get_set_ne _ _ _ _ _ Hb3) by congruence.
      rewrite (array_get_set_ne _ _ _ _ _ Hb2) by congruence.
      by rewrite Hb1.
  - subst X4. apply Z.eqb_neq in Hty.
    split; [|split; [|split; [|split]]].
    + by rewrite (array_get_set_eq _ _ _ _ Hb3).
    + intros Hot. rewrite (array_get_set_ne _ _ _ _ _ Hb3) by congruence.
      by rewrite (array_get_set_eq _ _ _ _ Hb2).
    + intros Hne Hct. rewrite (array_get_set_ne _ _ _ _ _ Hb3) by congruence.
      destruct (Z.eq_dec (move.getOriginSquare m)
                  (captureSquareOf (move.getType m) (move.getTargetSquare m)
                     (move.getOriginPiece m / 6))) as [Heq|Hoc].
      * rewrite <- Heq. by rewrite (array_get_set_eq _ _ _ _ Hb2).
      * rewrite (array_get_set_ne _ _ _ _ _ Hb2) by congruence. by rewrite Hb1c.
    + intros rO rT Hc. done.
    + intros s Hst Hso Hsc _.
      rewrite (array_get_set_ne _ _ _ _ _ Hb3) by congruence.
      rewrite (array_get_set_ne _ _ _ _ _ Hb2) by congruence.
      by rewrite Hb1.
Qed.

End MakeMoveBoard.

Lemma makeMove_position_ok_witness :
  exists p1,
    makeMove sample_zobrist sample_getValue
      (move.valueOf movetype.CASTLING Square.e8 Square.c8 piece.BLACK_KING piece.NOPIECE 6)
      (sample_position "r3k2r/8/8/8/8/8/8/R3K2R b KQkq - 0 1") = Some p1
    /\ position_ok p1 = true.
Proof.
  apply (makeMove_position_ok sample_zobrist sample_getValue
           (sample_position "r3k2r/8/8/8/8/8/8/R3K2R b KQkq - 0 1")
           (move.valueOf movetype.CASTLING Square.e8 Square.c8
              piece.BLACK_KING piece.NOPIECE 6));
    vm_compute; reflexivity.
Defined.

Lemma makeMove_bookkeeping_witness :
  exists p1,
    makeMove sample_zobrist sample_getValue
      (move.valueOf movetype.PAWNDOUBLE 20 52 piece.WHITE_PAWN piece.NOPIECE 6)
      (sample_position STANDARDPOSITION) = Some p1
    /\ activeColor p1 = color.BLACK
    /\ halfmoveNumber p1 = 3
    /\ statesSize p1 = 1
    /\ enPassantSquare p1 = 36.
Proof.
  destruct (makeMove_bookkeeping sample_zobrist sample_getValue
              (sample_position STANDARDPOSITION)
              (move.valueOf movetype.PAWNDOUBLE 20 52 piece.WHITE_PAWN piece.NOPIECE 6)
              ltac:(vm_compute; reflexivity) ltac:(vm_compute; reflexivity))
    as (p1 & Hmake & Hc & Hn & Hs & _ & _ & He).
  exists p1. split; [exact Hmake|]. split; [|split; [|split]].
  - vm_compute in Hc. injection Hc as Hc. symmetry. exact Hc.
  - exact (Hn ltac:(vm_compute; reflexivity)).
  - exact Hs.
  - exact He.
Defined.

Lemma makeMove_castlingRights_witness :
  exists p1,
    makeMove sample_zobrist sample_getValue
      (move.valueOf movetype.NORMAL Square.h1 Square.h8 piece.WHITE_ROOK piece.BLACK_ROOK 6)
      (sample_position "r3k2r/8/8/8/8/8/8/R3K2R w KQkq - 0 1") = Some p1
    /\ Z.land (castlingRights p1) 15 = castlingRights p1.
Proof.
  destruct (makeMove_castlingRights sample_zobrist sample_getValue
              (sample_position "r3k2r/8/8/8/8/8/8/R3K2R w KQkq - 0 1")
              (move.valueOf movetype.NORMAL Square.h1 Square.h8
                 piece.WHITE_ROOK piece.BLACK_ROOK 6)
              ltac:(vm_compute; reflexivity) ltac:(vm_compute; reflexivity))
    as (p1 & Hmake & Hsub & _).
  exists p1. split; [exact Hmake | exact Hsub].
Defined.

Lemma makeMove_isRepetition_witness :
  exists p1,
    makeMove sample_zobrist sample_getValue
      (move.valueOf movetype.ENPASSANT 68 83 piece.WHITE_PAWN piece.BLACK_PAWN 6)
      (sample_position "4k3/8/8/3pP3/8/8/8/4K3 w - d6 0 1") = Some p1
    /\ isRepetition p1 = Some false.
Proof.
  apply (makeMove_isRepetition sample_zobrist sample_getValue
           (sample_position "4k3/8/8/3pP3/8/8/8/4K3 w - d6 0 1")
           (move.valueOf movetype.ENPASSANT 68 83 piece.WHITE_PAWN piece.BLACK_PAWN 6));
    [vm_compute; reflexivity | vm_compute; reflexivity | left; reflexivity].
Defined.

Lemma makeMove_board_witness :
  exists p1,
    makeMove sample_zobrist sample_getValue
      (move.valueOf movetype.PAWNPROMOTION 100 115 piece.WHITE_PAWN piece.BLACK_ROOK
         PieceType.QUEEN)
      (sample_position "3r3k/4P3/8/8/8/8/8/4K3 w - - 0 1") = Some p1
    /\ pieceAt p1 115 = piece.WHITE_QUEEN
    /\ pieceAt p1 100 = piece.NOPIECE
    /\ pieceAt p1 Square.e1 = piece.WHITE_KING.
Proof.
  destruct (makeMove_board sample_zobrist sample_getValue
              (sample_position "3r3k/4P3/8/8/8/8/8/4K3 w - - 0 1")
              (move.valueOf movetype.PAWNPROMOTION 100 115 piece.WHITE_PAWN
                 piece.BLACK_ROOK PieceType.QUEEN)
              ltac:(vm_compute; reflexivity) ltac:(vm_compute; reflexivity))
    as (p1 & Hmake & Ht & Ho & _ & _ & Hother).
  exists p1. split; [exact Hmake|]. split; [exact Ht|]. split.
  - apply Ho. discriminate.
  - rewrite Hother; [reflexivity | discriminate | discriminate | by right |].
    intros rO rT Hc. discriminate.
Defined.

(** ** Copies *)

(** X6.  A copy made by the copy constructor or by assignment compares equal
    to the original under [operator==], is well-formed when the
    original is, and starts with an empty history: [isRepetition] is
    false on it whatever the history of the original holds. *)
Theorem Position_copy_spec (MAX_MOVES : nat) (this p : Position) :
  Position_equal (Position_copy MAX_MOVES p) p
  /\ Position_equal (Position_assign this p) p
  /\ statesSize (Position_copy MAX_MOVES p) = 0
  /\ statesSize (Position_assign this p) = 0
  /\ isRepetition (Position_copy MAX_MOVES p) = Some false
  /\ isRepetition (Position_assign this p) = Some false
  /\ (position_ok p = true ->
      position_ok (Position_copy MAX_MOVES p) = true
      /\ position_ok (Position_assign this p) = true).
Proof.
  split; [repeat split|]. split; [repeat split|].
  split; [reflexivity|]. split; [reflexivity|].
  split; [apply isRepetition_window; right; simpl; lia|].
  split; [apply isRepetition_window; right; simpl; lia|].
  unfold position_ok. rewrite !andb_true_iff. intros [[[Hb Hc] _] _].
  change (board_ok (Position_copy MAX_MOVES p)) with (board_ok p).
  change (board_ok (Position_assign this p)) with (board_ok p).
  cbn [Position_copy Position_assign activeColor statesSize states].
  rewrite Hb, Hc. repeat apply conj; try reflexivity; apply Z.leb_le; lia.
Qed.

Lemma Position_copy_spec_witness :
  position_ok (Position_copy 8 (sample_position STANDARDPOSITION)) = true
  /\ position_ok (Position_assign (Position_new 4) (sample_position STANDARDPOSITION)) = true.
Proof.
  destruct (Position_copy_spec 8 (Position_new 4) (sample_position STANDARDPOSITION))
    as (_ & _ & _ & _ & _ & _ & Hok).
  apply Hok. vm_compute. reflexivity.
Defined.

(** ** The fullmove number *)

(** X7.  Reading back the fullmove number that was set returns it, for either
    side to move, as long as it is not negative and small enough for the
    halfmove number, twice the fullmove number plus one, to fit an
    [int]. *)
Theorem getFullmoveNumber_setFullmoveNumber (p : Position) (n : Z) :
  0 <= n < 2 ^ 30 -> getFullmoveNumber (setFullmoveNumber n p) = n.
Proof.
  intros [Hn _]. unfold getFullmoveNumber, setFullmoveNumber.
  cbn [set_halfmoveNumber activeColor halfmoveNumber].
  destruct (activeColor p =? color.BLACK); cbn [set_halfmoveNumber halfmoveNumber].
  - symmetry. apply Z.quot_unique with 1; lia.
  - symmetry. apply Z.quot_unique with 0; lia.
Qed.

Lemma getFullmoveNumber_setFullmoveNumber_witness :
  getFullmoveNumber (setFullmoveNumber 34 (sample_position "4k3/8/8/8/8/8/8/4K3 b - - 0 1"))
  = 34.
Proof.
  apply (getFullmoveNumber_setFullmoveNumber
           (sample_position "4k3/8/8/8/8/8/8/4K3 b - - 0 1") 34).
  lia.
Defined.

(** ** clearCastling *)

Lemma clearCastling_mask_idem (s r n : Z) :
  clearCastling_mask s r = Some n -> clearCastling_mask s n = Some n.
Proof.
  unfold clearCastling_mask.
  repeat (match goal with
          | |- context [if ?b then _ else _] => destruct b
          end);
    intros [= <-] || discriminate;
    by rewrite <- Z.land_assoc, Z.land_diag.
Qed.

(** X8.  [clearCastling] a second time for the same square changes nothing,
    the hash included; it leaves the position alone for any square but
    the six king and rook home squares; and the rights it leaves are
    among the rights it found. *)
Theorem clearCastling_idempotent (zobrist : Zobrist.t) (p : Position) (s : Z) :
  clearCastling zobrist s (clearCastling zobrist s p) = clearCastling zobrist s p
  /\ Z.land (castlingRights (clearCastling zobrist s p)) (castlingRights p)
     = castlingRights (clearCastling zobrist s p)
  /\ (~ In s [Square.a1; Square.a8; Square.h1; Square.h8; Square.e1; Square.e8] ->
      clearCastling zobrist s p = p).
Proof.
  split; [|split].
  - unfold clearCastling at 2 3.
    destruct (clearCastling_mask s (castlingRights p)) as [n|] eqn:Hmask.
    + destruct (Z.eqb_spec n (castlingRights p)) as [Heq|Hne]; cbn [negb].
      * unfold clearCastling. by rewrite Hmask, Heq, Z.eqb_refl.
      * unfold clearCastling.
        cbn [castlingRights set_castlingRights xor_zobristKey set_zobristKey].
        by rewrite (clearCastling_mask_idem _ _ _ Hmask), Z.eqb_refl.
    + unfold clearCastling. by rewrite Hmask.
  - rewrite clearCastling_rights. apply clearedRights_subset.
  - intros Hs. unfold clearCastling, clearCastling_mask.
    repeat (match goal with
            | |- context [s =? ?b] =>
                destruct (Z.eqb_spec s b) as [->|?]; [exfalso; apply Hs; cbn; tauto|]
            end).
    reflexivity.
Qed.

Lemma clearCastling_idempotent_witness :
  clearCastling sample_zobrist 20 (sample_position STANDARDPOSITION)
  = sample_position STANDARDPOSITION.
Proof.
  apply (clearCastling_idempotent sample_zobrist (sample_position STANDARDPOSITION) 20).
  cbv. intuition discriminate.
Defined.

(** * Further properties of the notation *)

(** ** Letters *)

Lemma ascii_forall (P : ascii -> bool) :
  forallb (fun n => P (ascii_of_nat n)) (seq 0 256) = true -> forall c, P c = true.
Proof.
  intros H c. rewrite forallb_forall in H.
  rewrite <- (ascii_nat_embedding c). apply H. apply in_seq.
  pose proof (nat_ascii_bounded c). lia.
Qed.

(** X9.  The notation of a piece reads back as that piece, and a letter that
    reads as a piece is the notation of that piece. *)
Theorem fromPiece_toPiece :
  (forall pc, piece.isValid pc = true ->
     exists c, fromPiece pc = Some c /\ toPiece c = Some pc)
  /\ (forall c pc, toPiece c = Some pc -> pc <> piece.NOPIECE ->
        piece.isValid pc = true /\ fromPiece pc = Some c).
Proof.
  split.
  - intros pc Hpc.
    assert (Hr : 0 <= pc < 0 + Z.of_nat 12).
    { unfold piece.isValid, piece.NOPIECE in Hpc. lia. }
    pose proof (Zrange_forallb
      (fun pc => match fromPiece pc with
                 | Some c => match toPiece c with
                             | Some pc' => pc' =? pc
                             | None => false
                             end
                 | None => false
                 end) 0 12 ltac:(vm_compute; reflexivity) pc Hr) as H.
    cbv beta in H. destruct (fromPiece pc) as [c|]; [|discriminate].
    exists c. split; [reflexivity|].
    destruct (toPiece c) as [pc'|]; [|discriminate]. apply Z.eqb_eq in H. by subst.
  - intros c pc Hto Hne.
    pose proof (ascii_forall
      (fun c => match toPiece c with
                | Some pc => (pc =? piece.NOPIECE)
                             || (piece.isValid pc
                                 && match fromPiece pc with
                                    | Some c' => Ascii.eqb c' c
                                    | None => false
                                    end)
                | None => true
                end) ltac:(vm_compute; reflexivity) c) as H.
    cbv beta in H. rewrite Hto in H.
    apply orb_true_iff in H as [H%Z.eqb_eq | H]; [done|].
    apply andb_true_iff in H as [Hv H]. split; [exact Hv|].
    destruct (fromPiece pc) as [c'|]; [|discriminate].
    apply Ascii.eqb_eq in H. by subst.
Qed.

(** X10.  The name of a playable square reads back as that square, and
    [toSquare] returns a playable square or the "no square" sentinel,
    never another encoding. *)
Theorem fromSquare_toSquare :
  (forall s, validSquare s = true ->
     exists notation, fromSquare s = Some notation /\ toSquare notation = Some s)
  /\ (forall notation s, toSquare notation = Some s ->
        s = Square.NOSQUARE \/ validSquare s = true).
Proof.
  split.
  - intros s Hs%validSquare_values.
    assert (Hall : forallb (fun s => match fromSquare s with
                                     | Some notation =>
                                         match toSquare notation with
                                         | Some s' => s' =? s
                                         | None => false
                                         end
                                     | None => false
                                     end) Square.values = true)
      by (vm_compute; reflexivity).
    rewrite forallb_forall in Hall. specialize (Hall _ Hs).
    destruct (fromSquare s) as [notation|]; [|discriminate].
    exists notation. split; [reflexivity|].
    destruct (toSquare notation) as [s'|]; [|discriminate].
    apply Z.eqb_eq in Hall. by subst.
  - intros notation s. unfold toSquare.
    destruct (string_at notation 0) as [c0|]; [|discriminate].
    destruct (string_at notation 1) as [c1|]; [|discriminate].
    cbn [mbind option_bind].
    pose proof (ascii_forall (fun c => (0 <=? toFile c) && (toFile c <=? 8))
                  ltac:(vm_compute; reflexivity) c0) as Hf.
    pose proof (ascii_forall (fun c => (0 <=? toRank c) && (toRank c <=? 8))
                  ltac:(vm_compute; reflexivity) c1) as Hr.
    cbv beta in Hf, Hr. unfold file.NOFILE, Rank.NORANK.
    destruct (Z.eqb_spec (toFile c0) 8); cbn [negb andb]; [intros [= <-]; by left|].
    destruct (Z.eqb_spec (toRank c1) 8); cbn [negb andb]; intros [= <-]; [by left|].
    right. rewrite Z.shiftl_mul_pow2 by lia.
    assert (Hfr : 0 <= toFile c0 < 8 /\ 0 <= toRank c1 < 8) by lia.
    generalize dependent (toFile c0). generalize dependent (toRank c1).
    intros r _ _ f _ _ Hfr.
    assert (f = 0 \/ f = 1 \/ f = 2 \/ f = 3 \/ f = 4 \/ f = 5 \/ f = 6 \/ f = 7)
      as Hf by lia.
    assert (r = 0 \/ r = 1 \/ r = 2 \/ r = 3 \/ r = 4 \/ r = 5 \/ r = 6 \/ r = 7)
      as Hr by lia.
    destruct Hf as [->|[->|[->|[->|[->|[->|[->| ->]]]]]]];
      destruct Hr as [->|[->|[->|[->|[->|[->|[->| ->]]]]]]]; reflexivity.
Qed.

(** X11.  The notation of a single castling flag reads back as that flag, and
    the notation of a side to move reads back as that side. *)
Theorem fromCastling_toCastling :
  (forall c, castling.isFlag c = true ->
     exists ch, fromCastling c = Some ch /\ toCastling ch = Some c)
  /\ (forall c, color.isValid c = true ->
        exists ch, fromColor c = Some ch /\ toColor ch = c).
Proof.
  split.
  - intros c Hc.
    unfold castling.isFlag, castling.WHITE_KINGSIDE, castling.WHITE_QUEENSIDE,
      castling.BLACK_KINGSIDE, castling.BLACK_QUEENSIDE in Hc.
    assert (c = 1 \/ c = 2 \/ c = 4 \/ c = 8) as [->|[->|[->| ->]]] by lia;
      eexists; split; reflexivity.
  - intros c Hc. unfold color.isValid, color.WHITE, color.BLACK in Hc.
    assert (c = 0 \/ c = 1) as [-> | ->] by lia; eexists; split; reflexivity.
Qed.

Lemma fromPiece_toPiece_witness :
  exists c, fromPiece piece.BLACK_KNIGHT = Some c /\ toPiece c = Some piece.BLACK_KNIGHT.
Proof.
  destruct fromPiece_toPiece as [H _]. apply (H piece.BLACK_KNIGHT). reflexivity.
Defined.

Lemma fromSquare_toSquare_witness :
  exists notation, fromSquare 83 = Some notation /\ toSquare notation = Some 83.
Proof.
  destruct fromSquare_toSquare as [H _]. apply (H 83). reflexivity.
Defined.

Lemma fromCastling_toCastling_witness :
  exists ch, fromCastling castling.BLACK_QUEENSIDE = Some ch
             /\ toCastling ch = Some castling.BLACK_QUEENSIDE.
Proof.
  destruct fromCastling_toCastling as [H _]. apply (H castling.BLACK_QUEENSIDE). reflexivity.
Defined.

(** ** Tokens *)

Lemma getTokens_sound (s token : string) (tok : string) :
  ~ In " "%char (list_ascii_of_string token) ->
  In tok (getTokens s token) ->
  tok <> EmptyString /\ ~ In " "%char (list_ascii_of_string tok).
Proof.
  revert token. induction s as [|c s IH]; intros token Htoken Hin.
  - cbn [getTokens] in Hin. destruct (String.eqb_spec token EmptyString) as [|Hne].
    + destruct Hin.
    + destruct Hin as [<-|[]]. by split.
  - cbn [getTokens] in Hin. destruct (Ascii.eqb_spec c " ") as [->|Hc].
    + destruct (String.eqb_spec token EmptyString) as [|Hne].
      * apply (IH EmptyString); [by intros [] | exact Hin].
      * destruct Hin as [<-|Hin]; [by split|].
        apply (IH EmptyString); [by intros [] | exact Hin].
    + apply (IH (String.append token (String c EmptyString))); [|exact Hin].
      clear -Htoken Hc. induction token as [|a token IHt]; cbn.
      * intros [->|[]]. done.
      * cbn in Htoken. intros [Ha|Hin]; [tauto|]. apply IHt; tauto.
Qed.

(** X12.  The field splitter returns only non-empty fields without blanks;
    leading, trailing and repeated blanks make no field. *)
Theorem getTokens_fields (fen tok : string) :
  In tok (getTokens fen EmptyString) ->
  tok <> EmptyString /\ ~ In " "%char (list_ascii_of_string tok).
Proof. apply getTokens_sound. by intros []. Qed.

Lemma getTokens_fields_witness :
  "w"%string <> EmptyString /\ ~ In " "%char (list_ascii_of_string "w").
Proof.
  apply (getTokens_fields "  8/8   w  - -  " "w"). vm_compute. tauto.
Defined.

(** ** What toPosition rejects *)

Section Rejections.

Variable zobrist : Zobrist.t.
Variable PieceType_getValue : Z -> Z.
Variable MAX_MOVES : nat.

(** X13.  A description that parses has four, five or six fields. *)
Theorem toPosition_field_count (fen : string) (p : Position) :
  toPosition zobrist PieceType_getValue MAX_MOVES fen = Some p ->
  (4 <= length (getTokens fen EmptyString) <= 6)%nat.
Proof.
  unfold toPosition.
  destruct (Nat.ltb_spec (length (getTokens fen EmptyString)) 4); [discriminate|].
  destruct (Nat.ltb_spec 6 (length (getTokens fen EmptyString))); [discriminate|].
  intros _. lia.
Qed.

Lemma toPosition_placement_reject (c : ascii) (st : Z * Z * Position) :
  placement_reject c = true ->
  toPosition_placement zobrist PieceType_getValue c st = None.
Proof.
  intros Hrej. destruct st as [[f r] pos]. unfold toPosition_placement.
  pose proof (ascii_forall
    (fun c => implb (placement_reject c)
                (match stoi (String c EmptyString) with
                 | Some n => (n <? 1) || (8 <? n)
                 | None => true
                 end)) ltac:(vm_compute; reflexivity) c) as Hstoi.
  cbv beta in Hstoi. rewrite Hrej in Hstoi. cbn [implb] in Hstoi.
  unfold placement_reject in Hrej. rewrite !andb_true_iff in Hrej.
  destruct Hrej as [[Hpc Hslash] _].
  destruct (toPiece c) as [pc|]; [|discriminate]. cbn [mbind option_bind].
  rewrite Hpc. cbn [negb]. apply negb_true_iff in Hslash. rewrite Hslash.
  destruct (stoi (String c EmptyString)) as [n|]; [|reflexivity].
  cbn [mbind option_bind]. by rewrite Hstoi.
Qed.

Lemma toPosition_placements_reject (c : ascii) (token : string) (st : Z * Z * Position) :
  In c (list_ascii_of_string token) -> placement_reject c = true ->
  toPosition_placements zobrist PieceType_getValue token st = None.
Proof.
  intros Hin Hrej. revert st. induction token as [|a token IH]; intros st; [destruct Hin|].
  cbn [toPosition_placements]. destruct Hin as [->|Hin].
  - by rewrite toPosition_placement_reject.
  - destruct (toPosition_placement _ _ a st) as [st'|]; [|reflexivity].
    cbn [mbind option_bind]. by apply IH.
Qed.

(** X14.  A piece-placement field that holds, anywhere, a character that is
    neither a piece letter, nor the rank separator, nor a digit from 1
    to 8 makes the description fail. *)
Theorem toPosition_placement_character
    (fen placement : string) (others : list string) (c : ascii) :
  getTokens fen EmptyString = placement :: others ->
  In c (list_ascii_of_string placement) ->
  placement_reject c = true ->
  toPosition zobrist PieceType_getValue MAX_MOVES fen = None.
Proof.
  intros Htok Hin Hrej. unfold toPosition. rewrite Htok.
  destruct ((_ <? 4)%nat || _); [reflexivity|].
  change ((placement :: others) !! 0%nat) with (Some placement).
  cbn [mbind option_bind].
  by rewrite (toPosition_placements_reject c placement _ Hin Hrej).
Qed.

(** X15.  An en-passant field of two characters whose rank is not the sixth
    with white to move, nor the third with black to move, makes the
    description fail. *)
Theorem toPosition_enPassant_rank
    (fen placement rights : string) (color f r : ascii) (others : list string) :
  getTokens fen EmptyString
  = placement :: String color EmptyString :: rights
    :: String f (String r EmptyString) :: others ->
  ~ (toColor color = color.BLACK /\ toRank r = Rank.r3) ->
  ~ (toColor color = color.WHITE /\ toRank r = Rank.r6) ->
  toPosition zobrist PieceType_getValue MAX_MOVES fen = None.
Proof.
  intros Htok Hb Hw. unfold toPosition. rewrite Htok.
  destruct ((_ <? 4)%nat || _); [reflexivity|].
  change ((placement :: ?l) !! 0%nat) with (Some placement).
  cbn [mbind option_bind].
  destruct (toPosition_placements _ _ _ _) as [st|]; [|reflexivity].
  cbn [mbind option_bind lookup list_lookup String.length Nat.eqb negb String.get].
  destruct (toColor color =? color.NOCOLOR); [reflexivity|].
  match goal with
  | |- context [mbind _ (if ?b then ?x else ?y)] => destruct (if b then x else y)
  end; [|reflexivity].
  cbn [mbind option_bind].
  assert (Hdash : String.eqb (String f (String r EmptyString)) "-" = false).
  { cbn. by destruct (Ascii.eqb f "-"). }
  rewrite Hdash. cbn [negb String.length Nat.eqb String.get mbind option_bind].
  destruct (Z.eqb_spec (toColor color) color.BLACK) as [Hcb|Hcb];
    destruct (Z.eqb_spec (toRank r) Rank.r3) as [Hr3|Hr3];
    destruct (Z.eqb_spec (toColor color) color.WHITE) as [Hcw|Hcw];
    destruct (Z.eqb_spec (toRank r) Rank.r6) as [Hr6|Hr6];
    cbn [andb negb]; try reflexivity; tauto.
Qed.

(** X16.  A halfmove clock that does not read as a number, or reads as a
    negative one, and a fullmove number that does not read as a number,
    or reads as less than one, make the description fail. *)
Theorem toPosition_counters
    (fen t0 t1 t2 t3 clock : string) (others : list string) :
  getTokens fen EmptyString = t0 :: t1 :: t2 :: t3 :: clock :: others ->
  (match stoi clock with Some n => n < 0 | None => True end
   \/ match others with
      | [number] => match stoi number with Some n => n < 1 | None => True end
      | _ => False
      end) ->
  toPosition zobrist PieceType_getValue MAX_MOVES fen = None.
Proof.
  intros Htok Hbad. unfold toPosition. rewrite Htok.
  destruct ((_ <? 4)%nat || _); [reflexivity|].
  cbn [lookup list_lookup mbind option_bind].
  destruct (toPosition_placements _ _ _ _) as [st|]; [|reflexivity].
  cbn [mbind option_bind].
  destruct (negb _); [reflexivity|].
  destruct (String.get 0 t1) as [c0|]; [|reflexivity]. cbn [mbind option_bind].
  destruct (toColor c0 =? color.NOCOLOR); [reflexivity|].
  match goal with
  | |- context [mbind _ (if ?b then ?x else ?y)] => destruct (if b then x else y)
  end; [|reflexivity].
  cbn [mbind option_bind].
  match goal with
  | |- context [mbind _ (if ?b then ?x else ?y)] => destruct (if b then x else y)
  end; [|reflexivity].
  cbn [mbind option_bind length].
  change (5 <=? S (S (S (S (S (length others))))))%nat with true. cbn iota.
  destruct Hbad as [Hclock|Hnumber].
  - destruct (stoi clock) as [n|]; [|reflexivity]. cbn [mbind option_bind].
    destruct (Z.ltb_spec n 0); [reflexivity | lia].
  - destruct others as [|number [|? ?]]; try done.
    destruct (stoi clock) as [n|]; [|reflexivity]. cbn [mbind option_bind].
    destruct (n <? 0); [reflexivity|].
    cbn [mbind option_bind length Nat.eqb lookup list_lookup].
    destruct (stoi number) as [k|]; [|reflexivity]. cbn [mbind option_bind].
    destruct (Z.ltb_spec k 1); [reflexivity | lia].
Qed.

End Rejections.

(** ** What toPosition builds *)

Lemma valueOf_valid (f r : Z) :
  0 <= f < 8 -> 0 <= r < 8 -> validSquare (Square.valueOf f r) = true.
Proof.
  intros Hf Hr.
  assert (f = 0 \/ f = 1 \/ f = 2 \/ f = 3 \/ f = 4 \/ f = 5 \/ f = 6 \/ f = 7)
    as Hf' by lia.
  assert (r = 0 \/ r = 1 \/ r = 2 \/ r = 3 \/ r = 4 \/ r = 5 \/ r = 6 \/ r = 7)
    as Hr' by lia.
  clear Hf Hr.
  repeat (destruct Hf' as [->|Hf']); try subst f;
    repeat (destruct Hr' as [->|Hr']); try subst r; reflexivity.
Qed.

Lemma valueOf_inj (f r f' r' : Z) :
  0 <= f < 8 -> 0 <= f' < 8 -> 0 <= r -> 0 <= r' ->
  Square.valueOf f r = Square.valueOf f' r' -> f = f' /\ r = r'.
Proof.
  unfold Square.valueOf. rewrite !Z.shiftl_mul_pow2 by lia.
  change (2 ^ 4) with 16. lia.
Qed.

Lemma toPiece_valid (c : ascii) (pc : Z) :
  toPiece c = Some pc -> pc <> piece.NOPIECE -> piece.isValid pc = true.
Proof.
  pose proof (ascii_forall
    (fun c => match toPiece c with
              | Some pc => (pc =? piece.NOPIECE) || piece.isValid pc
              | None => true
              end) ltac:(vm_compute; reflexivity) c) as H.
  cbv beta in H. intros Hc Hne. rewrite Hc in H.
  apply orb_true_iff in H as [H|H]; [|exact H].
  apply Z.eqb_eq in H. contradiction.
Qed.

Lemma position_ok_ext (p q : Position) :
  board q = board p -> pieces q = pieces p -> material q = material p ->
  activeColor q = activeColor p -> statesSize q = statesSize p ->
  states q = states p ->
  position_ok q = position_ok p.
Proof.
  intros Hb Hp Hm Ha Hs Hst.
  unfold position_ok, board_ok, shape_ok, occupancy_ok.
  by rewrite Hb, Hp, Hm, Ha, Hs, Hst.
Qed.

Lemma from_scratch_ext (zobrist : Zobrist.t) (p q : Position) :
  board q = board p -> castlingRights q = castlingRights p ->
  enPassantSquare q = enPassantSquare p -> activeColor q = activeColor p ->
  zobristKey_from_scratch zobrist q = zobristKey_from_scratch zobrist p.
Proof.
  intros Hb Hc He Ha.
  unfold zobristKey_from_scratch, zobrist_board, zobrist_square, zobrist_enPassant,
    zobrist_active.
  by rewrite Hb, Hc, He, Ha.
Qed.

Section Built.

Variable zobrist : Zobrist.t.
Variable PieceType_getValue : Z -> Z.
Variable MAX_MOVES : nat.

Lemma Position_new_wellBuilt : wellBuilt zobrist (Position_new MAX_MOVES).
Proof.
  split; [|split; [apply Position_new_hash | split; [reflexivity | done]]].
  unfold position_ok.
  change (board_ok (Position_new MAX_MOVES)) with (board_ok (Position_new 0)).
  change (color.isValid (activeColor (Position_new MAX_MOVES))) with true.
  change (statesSize (Position_new MAX_MOVES)) with 0.
  assert (board_ok (Position_new 0) = true) as -> by (vm_compute; reflexivity).
  cbn [andb]. apply andb_true_iff. split; apply Z.leb_le; lia.
Qed.

Lemma put_frame (p p' : Position) (pc s : Z) :
  put zobrist PieceType_getValue pc s p = Some p' ->
  halfmoveClock p' = halfmoveClock p /\ statesSize p' = statesSize p
  /\ states p' = states p.
Proof.
  intros Hput.
  pose proof (put_with_core zobrist PieceType_getValue p p pc s) as H.
  rewrite with_core_self, Hput in H. cbn [mbind option_bind] in H.
  injection H as ->. by destruct p.
Qed.

Lemma put_wellBuilt (p p' : Position) (pc s : Z) :
  put zobrist PieceType_getValue pc s p = Some p' ->
  piece.isValid pc = true -> validSquare s = true ->
  array_get (board p) s = Some piece.NOPIECE ->
  wellBuilt zobrist p -> wellBuilt zobrist p'.
Proof.
  intros Hput Hpc Hs Hempty (Hok & Hkey & Hss & Hclock).
  destruct (put_frame _ _ _ _ Hput) as (Hc & Hsz & Hst).
  destruct (put_inv _ _ _ _ _ _ Hput) as (_ & _ & _ & Ha).
  unfold position_ok in Hok. rewrite !andb_true_iff in Hok.
  destruct Hok as [[[Hbok Hcol] Hlo] Hhi].
  pose proof (board_ok_inv p Hbok) as Hinv.
  destruct (put_spec zobrist PieceType_getValue p pc s Hinv Hpc Hs Hempty)
    as (p'' & Hput' & _ & Hinv' & _).
  rewrite Hput in Hput'. injection Hput' as <-.
  assert (Hshape : shape_ok p = true).
  { unfold board_ok in Hbok. by apply andb_true_iff in Hbok as [? _]. }
  pose proof (put_shape_ok _ _ _ _ _ _ Hput Hs Hshape) as Hshape'.
  split; [|split; [|split]].
  - unfold position_ok. rewrite (board_ok_intro p' Hshape' Hinv'), Ha, Hsz, Hst, Hcol.
    cbn [andb]. by rewrite Hlo, Hhi.
  - by apply (put_hash _ _ _ _ _ _ piece.NOPIECE Hput Hs Hempty).
  - by rewrite Hsz.
  - by rewrite Hc.
Qed.

Lemma toPosition_placement_ok (c : ascii) (f r f' r' : Z) (p p' : Position) :
  toPosition_placement zobrist PieceType_getValue c (f, r, p) = Some (f', r', p') ->
  wellBuilt zobrist p -> emptyAhead f r p -> 0 <= f <= 8 -> 0 <= r < 8 ->
  wellBuilt zobrist p' /\ emptyAhead f' r' p' /\ 0 <= f' <= 8 /\ 0 <= r' < 8.
Proof.
  intros Hstep Hwb Hempty Hf Hr. unfold toPosition_placement in Hstep.
  destruct (toPiece c) as [pc|] eqn:Hpc; cbn [mbind option_bind] in Hstep;
    [|discriminate].
  destruct (Z.eqb_spec pc piece.NOPIECE) as [->|Hne]; cbn [negb] in Hstep.
  - destruct (Ascii.eqb c "/").
    + destruct (Z.eqb_spec f file.NOFILE) as [->|]; cbn [negb orb] in Hstep;
        [|discriminate].
      destruct (Z.eqb_spec r Rank.r1) as [|Hr1]; [discriminate|].
      injection Hstep as <- <- <-. unfold Rank.r1, file.a, file.NOFILE in *.
      split; [exact Hwb|]. split; [|lia].
      intros f0 r0 Hf0 Hr0 Hahead. apply Hempty; [done..|]. lia.
    + destruct (stoi (String c EmptyString)) as [n|]; cbn [mbind option_bind] in Hstep;
        [|discriminate].
      destruct (Z.ltb_spec n 1); [discriminate|].
      destruct (Z.ltb_spec 8 n); [discriminate|]. cbn [orb] in Hstep.
      unfold file.isValid, file.NOFILE, file.h in Hstep.
      destruct (Z.leb_spec 0 (f + (n - 1))); [|discriminate].
      destruct (Z.ltb_spec (f + (n - 1)) 8); [|discriminate].
      cbn [andb negb] in Hstep.
      assert (f' = f + n /\ r' = r /\ p' = p) as (-> & -> & ->).
      { destruct (Z.eqb_spec (f + (n - 1)) 7); injection Hstep as <- <- <-;
          repeat split; lia. }
      split; [exact Hwb|]. split; [|lia].
      intros f0 r0 Hf0 Hr0 Hahead. apply Hempty; [done..|]. lia.
  - unfold file.isValid, Rank.isValid, file.NOFILE, Rank.NORANK, file.h in Hstep.
    destruct (Z.leb_spec 0 f); [|discriminate].
    destruct (Z.ltb_spec f 8); [|discriminate].
    destruct (Z.leb_spec 0 r); [|discriminate].
    destruct (Z.ltb_spec r 8); [|discriminate].
    cbn [andb negb orb] in Hstep.
    destruct (put zobrist PieceType_getValue pc (Square.valueOf f r) p) as [p1|] eqn:Hput;
      cbn [mbind option_bind] in Hstep; [|discriminate].
    assert (f' = f + 1 /\ r' = r /\ p' = p1) as (-> & -> & ->).
    { destruct (Z.eqb_spec f 7); injection Hstep as <- <- <-; repeat split; lia. }
    pose proof (valueOf_valid f r ltac:(lia) ltac:(lia)) as Hs.
    pose proof (Hempty f r ltac:(lia) ltac:(lia) ltac:(lia)) as Hhere.
    split; [|split; [|lia]].
    + exact (put_wellBuilt _ _ _ _ Hput (toPiece_valid _ _ Hpc Hne) Hs Hhere Hwb).
    + intros f0 r0 Hf0 Hr0 Hahead.
      destruct (put_inv _ _ _ _ _ _ Hput) as (Hset & _).
      rewrite (array_get_set_ne _ _ _ _ _ Hset).
      * apply Hempty; [done..|]. lia.
      * intros Heq. apply valueOf_inj in Heq; lia.
Qed.

Lemma toPosition_placements_ok (token : string) (f r f' r' : Z) (p p' : Position) :
  toPosition_placements zobrist PieceType_getValue token (f, r, p) = Some (f', r', p') ->
  wellBuilt zobrist p -> emptyAhead f r p -> 0 <= f <= 8 -> 0 <= r < 8 ->
  wellBuilt zobrist p'.
Proof.
  revert f r p. induction token as [|c token IH]; intros f r p Hrun Hwb Hempty Hf Hr.
  - cbn in Hrun. by injection Hrun as <- <- <-.
  - cbn [toPosition_placements] in Hrun.
    destruct (toPosition_placement zobrist PieceType_getValue c (f, r, p))
      as [[[f1 r1] p1]|] eqn:Hstep; cbn [mbind option_bind] in Hrun; [|discriminate].
    destruct (toPosition_placement_ok _ _ _ _ _ _ _ Hstep Hwb Hempty Hf Hr)
      as (Hwb1 & Hempty1 & Hf1 & Hr1).
    exact (IH _ _ _ Hrun Hwb1 Hempty1 Hf1 Hr1).
Qed.

Lemma setter_wellBuilt (p q : Position) :
  board q = board p -> pieces q = pieces p -> material q = material p ->
  statesSize q = statesSize p -> states q = states p ->
  halfmoveClock q = halfmoveClock p ->
  color.isValid (activeColor q) = true ->
  zobristKey q = zobristKey_from_scratch zobrist q ->
  wellBuilt zobrist p -> wellBuilt zobrist q.
Proof.
  intros Hb Hp Hm Hs Hst Hc Ha Hkey (Hok & _ & Hss & Hclock).
  split; [|split; [exact Hkey | split; [by rewrite Hs | by rewrite Hc]]].
  assert (Hbok : board_ok q = board_ok p).
  { unfold board_ok, shape_ok, occupancy_ok. by rewrite Hb, Hp, Hm. }
  unfold position_ok in *. rewrite Hbok, Hs, Hst, Ha.
  rewrite !andb_true_iff in Hok. destruct Hok as [[[-> _] ->] ->]. reflexivity.
Qed.

Lemma wellBuilt_color (p : Position) :
  wellBuilt zobrist p -> color.isValid (activeColor p) = true.
Proof.
  intros (Hok & _). unfold position_ok in Hok. rewrite !andb_true_iff in Hok. tauto.
Qed.

Lemma setActiveColor_wellBuilt (p : Position) (c : Z) :
  color.isValid c = true -> wellBuilt zobrist p ->
  wellBuilt zobrist (setActiveColor zobrist c p).
Proof.
  intros Hc Hwb.
  apply (setter_wellBuilt p); try (unfold setActiveColor; by destruct (negb _)); [| |done].
  - unfold setActiveColor. destruct (negb _); [exact Hc | by apply wellBuilt_color].
  - apply setActiveColor_hash; [by apply wellBuilt_color | done | apply Hwb].
Qed.

Lemma setCastlingRight_wellBuilt (p : Position) (flag : Z) :
  castling.isFlag flag = true -> wellBuilt zobrist p ->
  wellBuilt zobrist (setCastlingRight zobrist flag p).
Proof.
  intros Hflag Hwb.
  apply (setter_wellBuilt p);
    try (unfold setCastlingRight; by destruct (_ =? _)); [| |done].
  - unfold setCastlingRight. destruct (_ =? _); exact (wellBuilt_color p Hwb).
  - apply setCastlingRight_hash; [done | apply Hwb].
Qed.

Lemma setEnPassantSquare_wellBuilt (p : Position) (s : Z) :
  wellBuilt zobrist p -> wellBuilt zobrist (setEnPassantSquare zobrist s p).
Proof.
  intros Hwb.
  apply (setter_wellBuilt p);
    try (unfold setEnPassantSquare; by destruct (negb _), (negb _)); [| |done].
  - unfold setEnPassantSquare. destruct (negb _), (negb _); exact (wellBuilt_color p Hwb).
  - apply setEnPassantSquare_hash. apply Hwb.
Qed.

Lemma toPosition_castling_ok (c : ascii) (p p' : Position) :
  toPosition_castling zobrist c p = Some p' -> wellBuilt zobrist p -> wellBuilt zobrist p'.
Proof.
  unfold toPosition_castling. intros Hstep Hwb.
  destruct (toCastling c) as [flag|]; cbn [mbind option_bind] in Hstep; [|discriminate].
  match type of Hstep with
  | mbind _ ?e = _ => destruct e as [flag'|] eqn:Hflag
  end; cbn [mbind option_bind] in Hstep; [|discriminate].
  injection Hstep as <-. apply setCastlingRight_wellBuilt; [|exact Hwb].
  destruct (flag =? castling.NOCASTLING).
  - destruct (toFile c =? file.NOFILE); [discriminate|].
    destruct (pieces_get _ _ _) as [king|]; cbn [mbind option_bind] in Hflag;
      [|discriminate].
    destruct (king =? 0); [discriminate|].
    unfold colorOf in Hflag.
    destruct (_ >? _), (islower c); vm_compute in Hflag; by injection Hflag as <-.
  - destruct (castling.getType flag) eqn:Hty; cbn [mbind option_bind] in Hflag;
      [|discriminate].
    injection Hflag as <-.
    unfold castling.getType in Hty. unfold castling.isFlag.
    destruct (flag =? castling.WHITE_KINGSIDE), (flag =? castling.WHITE_QUEENSIDE),
      (flag =? castling.BLACK_KINGSIDE), (flag =? castling.BLACK_QUEENSIDE);
      done.
Qed.

Lemma toPosition_castlings_ok (token : string) (p p' : Position) :
  toPosition_castlings zobrist token p = Some p' -> wellBuilt zobrist p ->
  wellBuilt zobrist p'.
Proof.
  revert p. induction token as [|c token IH]; intros p Hrun Hwb.
  - cbn in Hrun. by injection Hrun as <-.
  - cbn [toPosition_castlings] in Hrun.
    destruct (toPosition_castling zobrist c p) as [p1|] eqn:Hstep;
      cbn [mbind option_bind] in Hrun; [|discriminate].
    eapply IH; [exact Hrun|]. by eapply toPosition_castling_ok.
Qed.

(** X17.  Every position that [toPosition] returns satisfies the invariants
    of the data model (array shapes, agreement of board and occupancy
    sets, a side to move), carries a hash equal to the hash recomputed
    from scratch, has an empty history and a halfmove clock that is not
    negative. *)
Theorem toPosition_wellBuilt (fen : string) (p : Position) :
  toPosition zobrist PieceType_getValue MAX_MOVES fen = Some p ->
  wellBuilt zobrist p.
Proof.
  unfold toPosition. intros H.
  destruct ((_ <? 4)%nat || _); [discriminate|].
  destruct (getTokens fen EmptyString !! 0%nat) as [t0|];
    cbn [mbind option_bind] in H; [|discriminate].
  destruct (toPosition_placements _ _ t0 _) as [[[f1 r1] p1]|] eqn:Hpl;
    cbn [mbind option_bind snd] in H; [|discriminate].
  assert (Hwb1 : wellBuilt zobrist p1).
  { apply (toPosition_placements_ok _ _ _ _ _ _ _ Hpl).
    - apply Position_new_wellBuilt.
    - intros f r Hf Hr _.
      pose proof (valueOf_valid f r Hf Hr) as Hv%validSquare_range.
      unfold array_get. destruct (Z.leb_spec 0 (Square.valueOf f r)); [|lia].
      cbn [Position_new board]. apply lookup_replicate_2. lia.
    - unfold file.a. lia.
    - unfold Rank.r8. lia. }
  clear Hpl.
  destruct (getTokens fen EmptyString !! 1%nat) as [t1|];
    cbn [mbind option_bind] in H; [|discriminate].
  destruct (negb _); [discriminate|].
  destruct (String.get 0 t1) as [c0|]; cbn [mbind option_bind] in H; [|discriminate].
  destruct (Z.eqb_spec (toColor c0) color.NOCOLOR) as [|Hcol]; [discriminate|].
  assert (Hwb2 : wellBuilt zobrist (setActiveColor zobrist (toColor c0) p1)).
  { apply setActiveColor_wellBuilt; [|exact Hwb1].
    clear H. unfold toColor in *.
    destruct (Ascii.eqb (tolower c0) WHITE_NOTATION); [done|].
    by destruct (Ascii.eqb (tolower c0) BLACK_NOTATION). }
  revert H Hwb2. generalize (setActiveColor zobrist (toColor c0) p1). intros p2 H Hwb2.
  destruct (getTokens fen EmptyString !! 2%nat) as [t2|];
    cbn [mbind option_bind] in H; [|discriminate].
  match type of H with
  | mbind _ ?e = _ => destruct e as [p3|] eqn:H3
  end; cbn [mbind option_bind] in H; [|discriminate].
  assert (Hwb3 : wellBuilt zobrist p3).
  { destruct (negb _).
    - by eapply toPosition_castlings_ok.
    - by injection H3 as <-. }
  clear H3.
  destruct (getTokens fen EmptyString !! 3%nat) as [t3|];
    cbn [mbind option_bind] in H; [|discriminate].
  match type of H with
  | mbind _ ?e = _ => destruct e as [p4|] eqn:H4
  end; cbn [mbind option_bind] in H; [|discriminate].
  assert (Hwb4 : wellBuilt zobrist p4).
  { destruct (negb (String.eqb t3 "-")); [|by injection H4 as <-].
    destruct (negb (_ =? 2)%nat); [discriminate|].
    destruct (String.get 0 t3); cbn [mbind option_bind] in H4; [|discriminate].
    destruct (String.get 1 t3); cbn [mbind option_bind] in H4; [|discriminate].
    destruct (negb _ && negb _); [discriminate|].
    injection H4 as <-. by apply setEnPassantSquare_wellBuilt. }
  clear H4.
  match type of H with
  | mbind _ ?e = _ => destruct e as [p5|] eqn:H5
  end; cbn [mbind option_bind] in H; [|discriminate].
  assert (Hwb5 : wellBuilt zobrist p5).
  { destruct (5 <=? _)%nat; [|by injection H5 as <-].
    destruct (_ !! 4%nat); cbn [mbind option_bind] in H5; [|discriminate].
    destruct (stoi _) as [n|]; cbn [mbind option_bind] in H5; [|discriminate].
    destruct (Z.ltb_spec n 0); [discriminate|]. injection H5 as <-.
    destruct Hwb4 as (Hok & Hkey & Hss & _).
    split; [exact Hok | split; [exact Hkey | split; [exact Hss | exact H0]]]. }
  clear H5.
  destruct (_ =? 6)%nat; [|by injection H as <-].
  destruct (_ !! 5%nat); cbn [mbind option_bind] in H; [|discriminate].
  destruct (stoi _) as [n|]; cbn [mbind option_bind] in H; [|discriminate].
  destruct (n <? 1); [discriminate|]. injection H as <-.
  apply (setter_wellBuilt p5); try (unfold setFullmoveNumber; by destruct (_ =? _));
    [| |done].
  - unfold setFullmoveNumber.
    destruct (_ =? _); exact (wellBuilt_color p5 Hwb5).
  - destruct Hwb5 as (_ & Hkey & _).
    unfold setFullmoveNumber. by destruct (_ =? _).
Qed.

End Built.

Lemma toPosition_field_count_witness :
  (4 <= length (getTokens STANDARDPOSITION EmptyString) <= 6)%nat.
Proof.
  apply (toPosition_field_count sample_zobrist sample_getValue 8 STANDARDPOSITION
           (sample_position STANDARDPOSITION)).
  vm_compute. reflexivity.
Defined.

Lemma toPosition_placement_character_witness :
  toPosition sample_zobrist sample_getValue 8 "4k3/8/8/8/8/8/8/4K2x w - - 0 1" = None.
Proof.
  apply (toPosition_placement_character sample_zobrist sample_getValue 8
           "4k3/8/8/8/8/8/8/4K2x w - - 0 1" "4k3/8/8/8/8/8/8/4K2x"
           ["w"; "-"; "-"; "0"; "1"]%string "x"%char).
  - vm_compute. reflexivity.
  - vm_compute. tauto.
  - vm_compute. reflexivity.
Defined.

Lemma toPosition_enPassant_rank_witness :
  toPosition sample_zobrist sample_getValue 8 "4k3/8/8/8/4P3/8/8/4K3 w - e3 0 1" = None.
Proof.
  apply (toPosition_enPassant_rank sample_zobrist sample_getValue 8
           "4k3/8/8/8/4P3/8/8/4K3 w - e3 0 1" "4k3/8/8/8/4P3/8/8/4K3" "-"
           "w"%char "e"%char "3"%char ["0"; "1"]%string).
  - vm_compute. reflexivity.
  - vm_compute. intros [H _]. discriminate H.
  - vm_compute. intros [_ H]. discriminate H.
Defined.

Lemma toPosition_counters_witness :
  toPosition sample_zobrist sample_getValue 8 "4k3/8/8/8/8/8/8/4K3 w - - 3 0" = None.
Proof.
  apply (toPosition_counters sample_zobrist sample_getValue 8
           "4k3/8/8/8/8/8/8/4K3 w - - 3 0" "4k3/8/8/8/8/8/8/4K3" "w" "-" "-" "3"
           ["0"%string]).
  - vm_compute. reflexivity.
  - right. vm_compute. reflexivity.
Defined.

Lemma toPosition_wellBuilt_witness :
  wellBuilt sample_zobrist
    (sample_position "r3k2r/8/8/3pP3/8/8/8/R3K2R w Qk d6 3 9").
Proof.
  apply (toPosition_wellBuilt sample_zobrist sample_getValue 8
           "r3k2r/8/8/3pP3/8/8/8/R3K2R w Qk d6 3 9").
  vm_compute. reflexivity.
Defined.

(** ** The hash across makeMove *)

Section MakeMoveHash.

Variable zobrist : Zobrist.t.
Variable PieceType_getValue : Z -> Z.

Lemma clearCastling_same_hash (q : Position) (s : Z) :
  zobristKey q = zobristKey_from_scratch zobrist q ->
  castlingRights (clearCastling zobrist s q) = castlingRights q ->
  zobristKey (clearCastling zobrist s q)
  = zobristKey_from_scratch zobrist (clearCastling zobrist s q).
Proof.
  intros Hkey Hr. rewrite (clearCastling_hash zobrist q s Hkey), Hr, Z.eqb_refl.
  apply Z.lxor_0_r.
Qed.

Lemma remove_core_hash (q X X' : Position) (pc s : Z) :
  remove zobrist PieceType_getValue s X = Some (pc, X') -> validSquare s = true ->
  zobristKey q = zobristKey_from_scratch zobrist (with_core q X) ->
  zobristKey (xor_zobristKey (Zobrist.board zobrist pc s) q)
  = zobristKey_from_scratch zobrist
      (with_core (xor_zobristKey (Zobrist.board zobrist pc s) q) X').
Proof.
  intros Hrem Hs Hkey.
  exact (remove_hash zobrist PieceType_getValue _ _ _ _
           (remove_on_core zobrist PieceType_getValue q X X' pc s Hrem) Hs Hkey).
Qed.

Lemma put_core_hash (q X X' : Position) (pc s : Z) :
  put zobrist PieceType_getValue pc s X = Some X' ->
  remove zobrist PieceType_getValue s X' = Some (pc, X) -> validSquare s = true ->
  zobristKey q = zobristKey_from_scratch zobrist (with_core q X) ->
  zobristKey (xor_zobristKey (Zobrist.board zobrist pc s) q)
  = zobristKey_from_scratch zobrist
      (with_core (xor_zobristKey (Zobrist.board zobrist pc s) q) X').
Proof.
  intros Hput Hrem Hs Hkey.
  destruct (remove_inv _ _ _ _ _ _ Hrem) as (_ & _ & Hset & _).
  pose proof (array_get_set_eq _ _ _ _ Hset) as Hempty.
  exact (put_hash zobrist PieceType_getValue _ _ _ _ piece.NOPIECE
           (put_on_core zobrist PieceType_getValue q X X' pc s Hput) Hs Hempty
           eq_refl Hkey).
Qed.

Lemma pawnDouble_square (t d : Z) :
  validSquare t = true -> d = Square.S \/ d = Square.N ->
  (t + d =? Square.NOSQUARE) = false.
Proof.
  intros Ht Hd. apply Z.eqb_neq. intros Heq.
  unfold Square.S, Square.N, Square.NOSQUARE in *.
  assert (t = 143 \/ t = 111) as [-> | ->] by lia; discriminate Ht.
Qed.

Lemma makeMove_update_hash (m : move.t) (oc : Z) (q Q : Position) :
  makeMove_update zobrist m oc q = Some Q ->
  validSquare (move.getTargetSquare m) = true ->
  zobristKey q = zobristKey_from_scratch zobrist q ->
  castlingRights Q = castlingRights q ->
  zobristKey Q = zobristKey_from_scratch zobrist Q.
Proof.
  intros HQ Ht Hkey Hr.
  destruct (makeMove_update_fields zobrist m oc q Q HQ) as [Hr' _].
  rewrite Hr, <- (clearCastling_rights zobrist) in Hr'. symmetry in Hr'.
  pose proof (clearCastling_same_hash q _ Hkey Hr') as Hkey'.
  pose proof (pawnDouble_square (move.getTargetSquare m)
                (if oc =? color.WHITE then Square.S else Square.N) Ht
                ltac:(destruct (oc =? color.WHITE); tauto)) as Hep.
  clear Hr Hr' Hkey. revert HQ Hkey'. unfold makeMove_update.
  generalize (clearCastling zobrist (move.getOriginSquare m) q). intros q'.
  unfold zobristKey_from_scratch, zobrist_enPassant, zobrist_active, color.opposite.
  destruct (negb (enPassantSquare q' =? Square.NOSQUARE));
    destruct (move.getType m =? movetype.PAWNDOUBLE);
    cbn [xor_zobristKey set_zobristKey set_enPassantSquare set_activeColor activeColor
         enPassantSquare];
    (destruct (Z.eqb_spec (activeColor q') color.WHITE) as [Hw|Hw];
       [|destruct (Z.eqb_spec (activeColor q') color.BLACK) as [Hb|Hb];
         [|discriminate]]);
    cbn [mbind option_bind];
    (destruct (piece.getType (move.getOriginPiece m)); [|discriminate]);
    cbn [mbind option_bind];
    destruct ((_ =? PieceType.PAWN) || _); intros [= <-] Hkey';
    cbn [xor_zobristKey set_zobristKey set_enPassantSquare set_activeColor
         set_halfmoveClock set_halfmoveNumber zobristKey board castlingRights
         enPassantSquare activeColor];
    rewrite ?Hep, Hkey', ?Hw, ?Hb; cbn [negb];
    change (color.WHITE =? color.BLACK) with false;
    change (color.BLACK =? color.BLACK) with true;
    change (Square.NOSQUARE =? Square.NOSQUARE) with true; cbn [negb];
    xor_solve.
Qed.

(** X18.  [makeMove] on a well-formed position whose maintained hash equals
    the hash recomputed from scratch, with a move within the caller
    discipline: whenever the move leaves the castling rights as they
    were, the maintained hash of the position after the move again
    equals the hash recomputed from scratch. *)
Theorem makeMove_zobristKey (p : Position) (m : move.t) :
  position_ok p = true ->
  move_ok p m = true ->
  zobristKey p = zobristKey_from_scratch zobrist p ->
  exists p1, makeMove zobrist PieceType_getValue m p = Some p1
    /\ (castlingRights p1 = castlingRights p ->
        zobristKey p1 = zobristKey_from_scratch zobrist p1).
Proof.
  intros Hpok Hok Hkey.
  destruct (position_ok_inv p Hpok) as (Hinv & Hcol & Hss).
  destruct (move_ok_inv p m Hok) as (Hroom & Hop).
  destruct (move_ok_squares p m Hok) as (Hvo & Hvt & Hvc).
  destruct (core_path zobrist PieceType_getValue p m Hinv Hok)
    as (X1 & X2 & X3 & X4 & Hcap & Hrem2 & Hput2 & Hval & Hput3 & Hrem3 & Hrook).
  destruct (piece_unpack _ Hop) as (_ & Hgc & _).
  set (entry := State.make (zobristKey p) (castlingRights p) (enPassantSquare p)
                  (halfmoveClock p)).
  pose proof (array_set_Some (states p) (statesSize p) entry ltac:(lia)) as Hset.
  set (states' := <[Z.to_nat (statesSize p) := entry]> (states p)) in *.
  set (p0 := set_statesSize (statesSize p + 1) (set_states states' p)).
  set (oc := move.getOriginPiece m / 6) in *.
  assert (exists q1, makeMove_capture zobrist PieceType_getValue m oc (with_core p0 p)
                     = Some (with_core q1 X1)
            /\ activeColor q1 = activeColor p
            /\ Z.land (castlingRights q1) (castlingRights p) = castlingRights q1
            /\ (castlingRights q1 = castlingRights p ->
                zobristKey q1 = zobristKey_from_scratch zobrist (with_core q1 X1)))
    as (q1 & Hm1 & Ha1 & Hsub1 & Hk1).
  { unfold makeMove_capture.
    destruct (Z.eqb_spec (move.getTargetPiece m) piece.NOPIECE) as [|Htp]; cbn [negb].
    - subst X1. exists p0. split; [done|]. split; [done|].
      split; [apply Z.land_diag | intros _; exact Hkey].
    - destruct Hcap as [Hrem _]. rewrite (remove_on_core _ _ _ _ _ _ _ Hrem).
      cbn [mbind option_bind snd]. rewrite clearCastling_with_core.
      eexists. split; [reflexivity|].
      pose proof (clearCastling_frame_eq zobrist
                    (xor_zobristKey (Zobrist.board zobrist (move.getTargetPiece m)
                       (captureSquareOf (move.getType m) (move.getTargetSquare m) oc)) p0)
                    (captureSquareOf (move.getType m) (move.getTargetSquare m) oc))
        as [= Hfa _ _ _ _].
      split; [exact Hfa|]. rewrite clearCastling_rights. split.
      + apply clearedRights_subset.
      + intros Hr.
        pose proof (remove_core_hash p0 p X1 _ _ Hrem (Hvc Htp) Hkey) as Hkq.
        pose proof (clearCastling_same_hash (with_core _ X1)
                      (captureSquareOf (move.getType m) (move.getTargetSquare m) oc)
                      Hkq) as Hc.
        rewrite clearCastling_with_core in Hc. apply Hc.
        cbn [with_core castlingRights]. rewrite clearCastling_rights. exact Hr. }
  assert (exists q3, makeMove_move zobrist PieceType_getValue m oc (with_core q1 X1)
                     = Some (with_core q3 X3)
            /\ activeColor q3 = activeColor q1
            /\ castlingRights q3 = castlingRights q1
            /\ (zobristKey q1 = zobristKey_from_scratch zobrist (with_core q1 X1) ->
                zobristKey q3 = zobristKey_from_scratch zobrist (with_core q3 X3)))
    as (q3 & Hm3 & Ha3 & Hr3 & Hk3).
  { unfold makeMove_move. rewrite (remove_on_core _ _ _ _ _ _ _ Hrem2).
    cbn [mbind option_bind snd].
    assert (Hgoal : exists q3,
              put zobrist PieceType_getValue (placedPiece m) (move.getTargetSquare m)
                (with_core (xor_zobristKey (Zobrist.board zobrist (move.getOriginPiece m)
                              (move.getOriginSquare m)) q1) X2)
              = Some (with_core q3 X3)
              /\ activeColor q3 = activeColor q1
              /\ castlingRights q3 = castlingRights q1
              /\ (zobristKey q1 = zobristKey_from_scratch zobrist (with_core q1 X1) ->
                  zobristKey q3 = zobristKey_from_scratch zobrist (with_core q3 X3))).
    { rewrite (put_on_core _ _ _ _ _ _ _ Hput3). eexists. split; [reflexivity|].
      split; [reflexivity|]. split; [reflexivity|]. intros Hk.
      apply (put_core_hash _ X2 X3 _ _ Hput3 Hrem3 Hvt).
      apply (remove_core_hash q1 X1 X2 _ _ Hrem2 Hvo Hk). }
    unfold placedPiece in Hgoal, Hval.
    destruct (move.getType m =? movetype.PAWNPROMOTION).
    - rewrite (Hval eq_refl). cbn [mbind option_bind]. exact Hgoal.
    - exact Hgoal. }
  assert (exists q4, makeMove_rook zobrist PieceType_getValue m (with_core q3 X3)
                     = Some (with_core q4 X4)
            /\ activeColor q4 = activeColor q3
            /\ castlingRights q4 = castlingRights q3
            /\ (zobristKey q3 = zobristKey_from_scratch zobrist (with_core q3 X3) ->
                zobristKey q4 = zobristKey_from_scratch zobrist (with_core q4 X4)))
    as (q4 & Hm4 & Ha4 & Hr4 & Hk4).
  { unfold makeMove_rook.
    destruct (move.getType m =? movetype.CASTLING).
    - destruct Hrook as (rO & rT & rook & Xr & Hsq & Hremr & _ & Hput4 & Hrem4).
      destruct (castlingRookSquares_inv _ _ _ Hsq) as (HvO & HvT & _).
      rewrite Hsq. cbn [mbind option_bind fst snd].
      rewrite (remove_on_core _ _ _ _ _ _ _ Hremr). cbn [mbind option_bind fst snd].
      rewrite (put_on_core _ _ _ _ _ _ _ Hput4). eexists. split; [reflexivity|].
      split; [reflexivity|]. split; [reflexivity|]. intros Hk.
      apply (put_core_hash _ Xr X4 _ _ Hput4 Hrem4 HvT).
      apply (remove_core_hash q3 X3 Xr _ _ Hremr HvO Hk).
    - subst X4. by exists q3. }
  destruct (makeMove_update_spec zobrist m oc q4
              ltac:(by rewrite Ha4, Ha3, Ha1) Hop)
    as (Q & HQ & _).
  assert (Hup : makeMove_update zobrist m oc (with_core q4 X4) = Some (with_core Q X4)).
  { by rewrite makeMove_update_with_core, HQ. }
  exists (with_core Q X4). split.
  - unfold makeMove, makeMove_save. fold entry. rewrite Hset. cbn [mbind option_bind].
    rewrite Hgc. cbn [mbind option_bind]. fold oc. fold p0.
    replace p0 with (with_core p0 p) by (by destruct p).
    rewrite Hm1. cbn [mbind option_bind]. rewrite Hm3. cbn [mbind option_bind].
    rewrite Hm4. cbn [mbind option_bind]. exact Hup.
  - intros Hr.
    destruct (makeMove_update_fields zobrist m oc q4 Q HQ) as [HrQ _].
    cbn [with_core castlingRights] in Hr.
    assert (HsubQ : Z.land (castlingRights Q) (castlingRights q1) = castlingRights Q).
    { rewrite HrQ, Hr4, Hr3. apply clearedRights_subset. }
    assert (Hr1 : castlingRights q1 = castlingRights p).
    { rewrite Hr in HsubQ. rewrite Z.land_comm in HsubQ. congruence. }
    apply (makeMove_update_hash m oc (with_core q4 X4) (with_core Q X4) Hup Hvt).
    + apply Hk4, Hk3, Hk1, Hr1.
    + cbn [with_core castlingRights]. congruence.
Qed.

End MakeMoveHash.

Lemma makeMove_zobristKey_witness :
  exists p1,
    makeMove sample_zobrist sample_getValue (move.valueOf movetype.ENPASSANT 68 83 piece.WHITE_PAWN piece.BLACK_PAWN 6)
      (sample_position "4k3/8/8/3pP3/8/8/8/4K3 w - d6 0 1") = Some p1
    /\ (castlingRights p1
        = castlingRights (sample_position "4k3/8/8/3pP3/8/8/8/4K3 w - d6 0 1") ->
        zobristKey p1 = zobristKey_from_scratch sample_zobrist p1).
Proof.
  apply (makeMove_zobristKey sample_zobrist sample_getValue
           (sample_position "4k3/8/8/3pP3/8/8/8/4K3 w - d6 0 1")
           (move.valueOf movetype.ENPASSANT 68 83 piece.WHITE_PAWN piece.BLACK_PAWN 6)).
  - vm_compute. reflexivity.
  - vm_compute. reflexivity.
  - vm_compute. reflexivity.
Defined.

(** ** The attack oracle as a whole *)

Lemma isAttacked_pawn_step (t a : Z) (directions : list Z) (p : Position) :
  isAttacked_pawn t a directions p = isAttacked_step t a (Z.opp <$> directions) p.
Proof.
  induction directions as [|d ds IH]; [reflexivity|].
  change (Z.opp <$> d :: ds) with (Z.opp d :: (Z.opp <$> ds)).
  cbn [isAttacked_pawn isAttacked_step]. rewrite IH. reflexivity.
Qed.

Lemma isAttacked_step_spec (t a : Z) (directions : list Z) (p : Position) :
  length (board p) = 128%nat ->
  (forall d, In d directions -> -128 <= t + d < 256) ->
  exists b, isAttacked_step t a directions p = Some b
    /\ (b = true <-> step_hit p t a directions).
Proof.
  intros Hlen. induction directions as [|d ds IH]; intros Hr.
  - exists false. split; [reflexivity|]. split; [discriminate|]. by intros (d & [] & _).
  - destruct (IH (fun d' H => Hr d' (or_intror H))) as (b' & Hb' & Hiff).
    assert (Hmore : step_hit p t a ds -> step_hit p t a (d :: ds)).
    { intros (d' & Hin & H). exists d'. split; [by right | done]. }
    cbn [isAttacked_step].
    destruct (Square.isValid (t + d)) eqn:Hv.
    + destruct (isValid_near _ (Hr d (or_introl eq_refl)) Hv) as [H0 H1].
      destruct (array_get_Some (board p) (t + d) ltac:(lia)) as [pc Hpc].
      rewrite Hpc. cbn [mbind option_bind].
      destruct (Z.eqb_spec pc a) as [->|Hne].
      * exists true. split; [reflexivity|]. split; [|reflexivity]. intros _.
        exists d. split; [by left | done].
      * exists b'. split; [exact Hb'|]. rewrite Hiff. split; [exact Hmore|].
        intros (d' & [<-|Hin] & Hv' & Hget); [congruence|]. by exists d'.
    + cbn [mbind option_bind]. exists b'. split; [exact Hb'|]. rewrite Hiff.
      split; [exact Hmore|].
      intros (d' & [<-|Hin] & Hv' & Hget); [congruence|]. by exists d'.
Qed.

Lemma isAttacked_attacked (p : Position) (t c : Z) :
  length (board p) = 128%nat ->
  validSquare t = true ->
  color.isValid c = true ->
  exists b, isAttacked t c p = Some b /\ (b = true <-> attacked p t c).
Proof.
  intros Hlen Ht Hc. pose proof (validSquare_range t Ht) as Htr.
  assert (exists pds, Square.pawnDirections c = Some pds
            /\ forall d, In d (Z.opp <$> drop 1 pds) -> -128 <= t + d < 256)
    as (pds & Hpds & Hpr).
  { unfold color.isValid, color.WHITE, color.BLACK in Hc.
    assert (c = 0 \/ c = 1) as [-> | ->] by lia;
      (eexists; split; [reflexivity|]); intros d Hd; cbv in Hd; lia. }
  assert (Hval : forall ty, PieceType.isValid ty = true ->
                   piece.valueOf c ty = Some (c * 6 + ty)).
  { intros ty Hty. unfold piece.valueOf. by rewrite Hc, Hty. }
  assert (Hpo : forall ty, PieceType.isValid ty = true -> pieceOf c ty = c * 6 + ty).
  { intros ty Hty. unfold pieceOf. by rewrite Hval. }
  destruct (isAttacked_slide_spec t (c * 6 + PieceType.BISHOP) (c * 6 + PieceType.QUEEN)
              Square.bishopDirections p Hlen Ht) as (bishop & Hbishop & Hbiff).
  { intros d Hd. cbv in Hd |- *. tauto. }
  destruct (isAttacked_slide_spec t (c * 6 + PieceType.ROOK) (c * 6 + PieceType.QUEEN)
              Square.rookDirections p Hlen Ht) as (rook & Hrook & Hriff).
  { intros d Hd. cbv in Hd |- *. tauto. }
  destruct (isAttacked_step_spec t (c * 6 + PieceType.PAWN) (Z.opp <$> drop 1 pds) p
              Hlen Hpr) as (pawn & Hpawn & Hpiff).
  destruct (isAttacked_step_spec t (c * 6 + PieceType.KNIGHT) Square.knightDirections p
              Hlen) as (knight & Hknight & Hniff).
  { intros d Hd. cbv in Hd. lia. }
  destruct (isAttacked_step_spec t (c * 6 + PieceType.KING) Square.kingDirections p Hlen)
    as (king & Hking & Hkiff).
  { intros d Hd. cbv in Hd. lia. }
  exists (pawn || knight || bishop || rook || king). split.
  - unfold isAttacked. rewrite !Hval by done. cbn [mbind option_bind].
    rewrite Hpds. cbn [mbind option_bind].
    rewrite isAttacked_pawn_step, Hpawn. cbn [mbind option_bind].
    destruct pawn; [reflexivity|].
    unfold orElse. rewrite Hknight. cbn [mbind option_bind].
    destruct knight; [reflexivity|].
    rewrite Hbishop. cbn [mbind option_bind]. destruct bishop; [reflexivity|].
    rewrite Hrook. cbn [mbind option_bind]. destruct rook; [reflexivity|].
    by rewrite Hking.
  - rewrite !orb_true_iff, Hpiff, Hniff, Hbiff, Hriff, Hkiff.
    unfold attacked. rewrite !Hpo by done. split.
    + intros H. exists pds. split; [exact Hpds | tauto].
    + intros (pds' & Hpds' & H). rewrite Hpds in Hpds'. injection Hpds' as <-. tauto.
Qed.

(** X19.  For a playable target square and an attacker color, on a board
    array of its declared size, [isAttacked] returns, and it returns
    true exactly when the target is attacked: by a pawn of that color
    one capturing step back, by a knight a knight's step away, by a
    bishop, a rook or the queen that is the first piece on a ray of its
    kind, or by the king next to the target. *)
Theorem isAttacked_spec (p : Position) (t c : Z) :
  length (board p) = 128%nat ->
  validSquare t = true ->
  color.isValid c = true ->
  exists b, isAttacked t c p = Some b /\ (b = true <-> attacked p t c).
Proof. apply isAttacked_attacked. Qed.

Lemma isAttacked_spec_witness :
  let p := sample_position "4k3/8/8/8/8/5n2/8/4K3 w - - 0 1" in
  attacked p Square.e1 color.BLACK /\ isAttacked Square.e1 color.BLACK p = Some true.
Proof.
  destruct (isAttacked_spec (sample_position "4k3/8/8/8/8/5n2/8/4K3 w - - 0 1")
              Square.e1 color.BLACK
              ltac:(vm_compute; reflexivity) ltac:(vm_compute; reflexivity)
              ltac:(vm_compute; reflexivity))
    as (b & Hb & Hiff).
  assert (Hatt : attacked (sample_position "4k3/8/8/8/8/5n2/8/4K3 w - - 0 1")
                   Square.e1 color.BLACK).
  { eexists. split; [reflexivity|]. right. left.
    exists (Square.N + Square.N + Square.E). split; [by left|].
    split; vm_compute; reflexivity. }
  split; [exact Hatt|]. rewrite Hb. f_equal. by apply Hiff.
Defined.

(** ** isCheck *)





(** ** More of the notation and of the board *)

(** X21.  The letters of the two colors round trip: [toColor] reads back what
    [fromColor] writes, and what [toColor] accepts, in either case,
    [fromColor] writes in lower case. *)
Theorem fromColor_toColor :
  (forall c, color.isValid c = true ->
     exists ch, fromColor c = Some ch /\ toColor ch = c)
  /\ (forall ch, toColor ch <> color.NOCOLOR ->
        color.isValid (toColor ch) = true
        /\ fromColor (toColor ch) = Some (tolower ch)).
Proof.
  split.
  - intros c Hc. unfold color.isValid, color.WHITE, color.BLACK in Hc.
    assert (c = 0 \/ c = 1) as [-> | ->] by lia; eexists; split; reflexivity.
  - intros ch Hne.
    pose proof (ascii_forall
      (fun ch => (toColor ch =? color.NOCOLOR)
                 || (color.isValid (toColor ch)
                     && match fromColor (toColor ch) with
                        | Some ch' => Ascii.eqb ch' (tolower ch)
                        | None => false
                        end)) ltac:(vm_compute; reflexivity) ch) as H.
    cbv beta in H. apply orb_true_iff in H as [H%Z.eqb_eq | H]; [done|].
    apply andb_true_iff in H as [Hv H]. split; [exact Hv|].
    destruct (fromColor (toColor ch)) as [ch'|]; [|discriminate].
    apply Ascii.eqb_eq in H. by subst.
Qed.

Lemma fromColor_toColor_witness :
  exists ch, fromColor color.BLACK = Some ch /\ toColor ch = color.BLACK.
Proof.
  destruct fromColor_toColor as [H _]. apply (H color.BLACK). reflexivity.
Defined.

Section RemovePut.

Variable zobrist : Zobrist.t.
Variable PieceType_getValue : Z -> Z.

(** X22.  On a position whose board array and occupancy sets agree, for a
    playable square [s] that holds a piece [pc], [remove s] succeeds and
    returns [pc], and [put pc s] right after it gives back the very
    position the pair started from, every field included. *)
Theorem remove_put_identity (p : Position) (pc s : Z) :
  board_ok p = true ->
  validSquare s = true ->
  piece.isValid pc = true ->
  array_get (board p) s = Some pc ->
  exists p',
    remove zobrist PieceType_getValue s p = Some (pc, p')
    /\ array_get (board p') s = Some piece.NOPIECE
    /\ put zobrist PieceType_getValue pc s p' = Some p.
Proof.
  intros Hok Hs Hpc Hfull. apply board_ok_inv in Hok as Hinv.
  destruct (remove_spec zobrist PieceType_getValue p pc s Hinv Hpc Hs Hfull)
    as (p' & Hrem & Hput & _ & Hset).
  exists p'. split; [exact Hrem|]. split; [|exact Hput].
  exact (array_get_set_eq _ _ _ _ Hset).
Qed.

Variable MAX_MOVES : nat.

Lemma toPosition_castlings_reject (c : ascii) (token : string) (p : Position) :
  In c (list_ascii_of_string token) ->
  toCastling c = Some castling.NOCASTLING -> toFile c = file.NOFILE ->
  toPosition_castlings zobrist token p = None.
Proof.
  intros Hin Hc Hf. revert p. induction token as [|a token IH]; intros p; [destruct Hin|].
  cbn [toPosition_castlings]. destruct Hin as [->|Hin].
  - unfold toPosition_castling. rewrite Hc. cbn [mbind option_bind].
    change (castling.NOCASTLING =? castling.NOCASTLING) with true. cbn iota.
    rewrite Hf. reflexivity.
  - destruct (toPosition_castling zobrist a p) as [p'|]; [|reflexivity].
    cbn [mbind option_bind]. by apply IH.
Qed.

(** X23.  A castling field other than [-] that holds, anywhere, a character
    that is neither a castling letter nor a file letter makes the
    description fail. *)
Theorem toPosition_castling_character
    (fen t0 t1 rights : string) (others : list string) (c : ascii) :
  getTokens fen EmptyString = t0 :: t1 :: rights :: others ->
  rights <> "-"%string ->
  In c (list_ascii_of_string rights) ->
  toCastling c = Some castling.NOCASTLING -> toFile c = file.NOFILE ->
  toPosition zobrist PieceType_getValue MAX_MOVES fen = None.
Proof.
  intros Htok Hdash Hin Hc Hf. unfold toPosition. rewrite Htok.
  destruct ((_ <? 4)%nat || _); [reflexivity|].
  cbn [lookup list_lookup mbind option_bind].
  destruct (toPosition_placements _ _ _ _) as [st|]; [|reflexivity].
  cbn [mbind option_bind].
  destruct (negb _); [reflexivity|].
  destruct (String.get 0 t1) as [c0|]; [|reflexivity]. cbn [mbind option_bind].
  destruct (toColor c0 =? color.NOCOLOR); [reflexivity|].
  apply String.eqb_neq in Hdash. rewrite Hdash. cbn [negb].
  by rewrite (toPosition_castlings_reject c rights _ Hin Hc Hf).
Qed.

End RemovePut.

Lemma remove_put_identity_witness :
  exists p',
    remove sample_zobrist sample_getValue Square.e1 (sample_position STANDARDPOSITION)
    = Some (piece.WHITE_KING, p')
    /\ array_get (board p') Square.e1 = Some piece.NOPIECE
    /\ put sample_zobrist sample_getValue piece.WHITE_KING Square.e1 p'
       = Some (sample_position STANDARDPOSITION).
Proof.
  apply (remove_put_identity sample_zobrist sample_getValue
           (sample_position STANDARDPOSITION) piece.WHITE_KING Square.e1).
  - vm_compute. reflexivity.
  - vm_compute. reflexivity.
  - vm_compute. reflexivity.
  - vm_compute. reflexivity.
Defined.

Lemma toPosition_castling_character_witness :
  toPosition sample_zobrist sample_getValue 8 "4k3/8/8/8/8/8/8/4K3 w Kx - 0 1" = None.
Proof.
  apply (toPosition_castling_character sample_zobrist sample_getValue 8
           "4k3/8/8/8/8/8/8/4K3 w Kx - 0 1" "4k3/8/8/8/8/8/8/4K3" "w" "Kx"
           ["-"; "0"; "1"]%string "x"%char).
  - vm_compute. reflexivity.
  - discriminate.
  - vm_compute. tauto.
  - vm_compute. reflexivity.
  - vm_compute. reflexivity.
Defined.
